(** * Windows-MidiController: configuration store, dispatcher and input loop

    A shallow embedding of the Python sources

      - [src/midi_controller/config.py]                  (class [Config])
      - [src/midi_controller/controller.py]              (class [AkaiMPKMiniAutomation], [main])
      - [src/midi_controller/actions/knob_actions.py]    (class [KnobActions])
      - [src/midi_controller/actions/pad_actions.py]     (class [PadActions])
      - [src/midi_controller/utils/window_utils.py], [.../process_utils.py]
      - [src/main.py]

    Python code runs in a monad [M] that threads a [world]: the trace of
    observable events, the persisted configuration file and the fields of
    the (single) controller object.  Exceptions are explicit outcomes.
    Every call into a third-party library (pygame.midi, pyautogui, pycaw,
    wmi, win32gui, psutil, subprocess, os) is answered by an oracle that
    sees the history, so that every statement quantified over worlds holds
    for every behaviour of the operating system and of the MIDI device.

    Numbers: Python [int] is [Z]; Python [float] is the kernel's binary64
    [float], so [value / 127.0] is the IEEE-754 division Python performs.
    Strings: Python [str] restricted to code points below 256, one [ascii]
    per code point. *)

From Stdlib Require Import ZArith String Ascii List Floats DecimalString Lia.
From Stdlib Require DecimalPos DecimalZ.
From stdpp Require Import gmap strings list.

Set Warnings "-inexact-float,-register-all".
Local Open Scope string_scope.
Local Open Scope list_scope.
Local Open Scope Z_scope.

(** ** Python values (the JSON-representable fragment) *)

Inductive PyVal :=
| PNone
| PBool (b : bool)
| PInt (z : Z)
| PFloat (f : float)
| PStr (s : string)
| PList (l : list PyVal)
| PDict (m : gmap string PyVal).

(** Truth value testing ([if v:]). *)
Definition truthy (v : PyVal) : bool :=
  match v with
  | PNone => false
  | PBool b => b
  | PInt z => negb (z =? 0)
  | PFloat f => negb (PrimFloat.eqb f 0)
  | PStr s => negb (String.eqb s "")
  | PList l => match l with [] => false | _ => true end
  | PDict m => negb (Nat.eqb (size m) 0)
  end.

(** [str(n)] for an [int]. *)
Definition str_of_Z (n : Z) : string := NilZero.string_of_int (Z.to_int n).

(** [float(n)] for an [int], correctly rounded; [None] stands for the
    [OverflowError] Python raises when [n] exceeds the range of a double. *)
Definition float_of_Z (n : Z) : option float :=
  let f := SF2Prim (binary_normalize prec emax n 0 false) in
  if PrimFloat.is_infinity f then None else Some f.

(** [int(f)] for a [float]: truncation toward zero. *)
Definition int_of_float (f : float) : string + Z :=
  match Prim2SF f with
  | S754_zero _ => inr 0
  | S754_infinity _ => inl "OverflowError"
  | S754_nan => inl "ValueError"
  | S754_finite s m e =>
      let a := if 0 <=? e then Z.pos m * 2 ^ e else Z.pos m / 2 ^ (- e) in
      inr (if s then - a else a)
  end.

(** [range(n)]. *)
Definition range (n : Z) : list Z := map Z.of_nat (seq 0 (Z.to_nat n)).

(** ** Strings *)

(** [str.lower] on one code point below 256: A-Z and the Latin-1 capitals
    (U+00C0..U+00DE except the multiplication sign U+00D7) move up by 32. *)
Definition lower_ascii (c : ascii) : ascii :=
  let n := N_of_ascii c in
  if (((65 <=? n) && (n <=? 90)) ||
      ((192 <=? n) && (n <=? 222) && negb (n =? 215)))%N
  then ascii_of_N (n + 32) else c.

Fixpoint lower (s : string) : string :=
  match s with
  | EmptyString => EmptyString
  | String c r => String (lower_ascii c) (lower r)
  end.

(** [s.replace(a, b)] for one-character [a] and [b]. *)
Fixpoint replace (a b : ascii) (s : string) : string :=
  match s with
  | EmptyString => EmptyString
  | String c r => String (if Ascii.eqb c a then b else c) (replace a b r)
  end.

(** [needle in hay]. *)
Fixpoint contains (needle hay : string) : bool :=
  String.prefix needle hay ||
  match hay with
  | EmptyString => false
  | String _ r => contains needle r
  end.

(** ** Exceptions and outcomes *)

(** [KeyboardInterrupt] derives from [BaseException] only; [Exc cls] is an
    instance of the [Exception] subclass named [cls]. *)
Inductive exn :=
| KeyboardInterrupt
| Exc (cls : string).

(** [OutOfFuel]: the observation ended while the program was still running
    (only the [while True] loop of [start_monitoring] can produce it). *)
Inductive outcome (A : Type) :=
| Ok (a : A)
| Raise (e : exn)
| OutOfFuel.
Arguments Ok {A} a.
Arguments Raise {A} e.
Arguments OutOfFuel {A}.

(** ** The external interface *)

Record device_info := { dev_name : string; dev_input : Z; dev_output : Z }.
Record midi_event := { status : Z; data1 : Z; data2 : Z }.
Record session := { sess_id : Z; sess_has_process : bool }.
Record monitor := { hMonitor : Z; hdcMonitor : Z }.
Definition rect : Type := Z * Z * Z * Z.

(** Calls into third-party libraries, indexed by the type of their result. *)
Inductive ext : Type -> Type :=
(* os, glob, subprocess, logging, win32com, psutil *)
| os_path_exists (p : string) : ext bool
| os_makedirs (p : string) : ext unit
| os_path_expandvars (p : string) : ext string
| glob_glob (p : string) : ext (list string)
| logging_FileHandler : ext unit
| subprocess_Popen (args : list string) : ext unit
| shortcut_Targetpath (p : string) : ext string
| psutil_process_iter : ext (list (option string))
(* the configuration file, opened for writing *)
| open_write (p : string) : ext unit
| json_dump (p : string) : ext unit
(* pygame.midi *)
| midi_quit : ext unit
| midi_init : ext unit
| midi_get_count : ext Z
| midi_get_device_info (i : Z) : ext device_info
| midi_Input (i : Z) : ext Z
| Input_close (h : Z) : ext unit
| Input_poll (h : Z) : ext bool
| Input_read (h : Z) (n : Z) : ext (list midi_event)
(* pycaw *)
| AudioUtilities_GetSpeakers : ext unit
| IAudioEndpointVolume_Activate : ext unit
| SetMasterVolumeLevelScalar (v : float) : ext unit
| AudioUtilities_GetAllSessions : ext (list session)
| Process_name (sid : Z) : ext string
| ISimpleAudioVolume_QueryInterface (sid : Z) : ext unit
| SetMasterVolume (sid : Z) (v : float) : ext unit
(* pythoncom, wmi *)
| CoInitialize : ext unit
| CoUninitialize : ext unit
| wmi_WMI : ext unit
| WmiMonitorBrightnessMethods : ext (list Z)
| WmiSetBrightness (m : Z) (brightness : Z) : ext unit
(* pyautogui *)
| pyautogui_press (key : string) : ext unit
| pyautogui_hotkey (keys : list string) : ext unit
| pyautogui_hscroll (clicks : Z) : ext unit
| pyautogui_vscroll (clicks : Z) : ext unit
(* win32gui, win32api *)
| EnumWindows : ext (list Z)
| IsWindowVisible (hwnd : Z) : ext bool
| GetWindowText (hwnd : Z) : ext string
| IsIconic (hwnd : Z) : ext bool
| ShowWindow (hwnd : Z) (cmd : Z) : ext unit
| SetForegroundWindow (hwnd : Z) : ext unit
| GetForegroundWindow : ext Z
| GetWindowRect (hwnd : Z) : ext rect
| EnumDisplayMonitors : ext (list monitor)
| GetMonitorInfo (hm : Z) : ext rect
| PyHANDLE_getitem (h : Z) (i : Z) : ext Z
| MoveWindow (hwnd x y w h : Z) : ext unit
(* calling an attribute every object inherits from [object] *)
| object_attr_call (name : string) : ext unit.

(** The methods of [PadActions] and [KnobActions] the dispatcher can reach. *)
Inductive capability :=
| previous_track_
| play_pause_spotify_
| next_track_
| launch_focus_slack_
| launch_focus_windsurf_
| voice_recognition_
| toggle_audio_output_
| move_to_next_display_
| minimize_window_
| maximize_window_
| switch_window_
| open_file_explorer_
| show_desktop_
| set_system_volume_ (v : float)
| set_application_volume_ (app : string) (v : float)
| set_screen_brightness_ (v : float)
| relative_zoom_ (v : float)
| horizontal_scroll_ (v : float)
| vertical_scroll_ (v : float).

Inductive level := DEBUG | INFO | WARNING | ERROR.

(** The values interpolated into a log line. *)
Inductive logarg :=
| AStr (s : string)
| AInt (z : Z)
| AFloat (f : float)
| ABool (b : bool)
| AVal (v : PyVal)
| AExn (cls : string).

(** Observable events.  [Log] is a call of a logging method on the
    logger that the running object holds.  [Enter c] marks the entry into
    a capability method; it is the only event that is not an effect of
    the Python program. *)
Inductive event :=
| Log (lvl : level) (fmt : string) (args : list logarg)
| RootLog (lvl : level) (fmt : string) (args : list logarg)
| Print (fmt : string) (args : list logarg)
| Sleep (seconds : float)
| Enter (c : capability)
| Call {T : Type} (c : ext T).

Inductive response (T : Type) :=
| Returns (v : T)
| Throws (cls : string).
Arguments Returns {T} v.
Arguments Throws {T} cls.

(** The environment: what each library call answers after a given history,
    whether Ctrl+C arrives during a [time.sleep] (the one place where the
    model delivers [KeyboardInterrupt]), and which attribute names an
    instance inherits from [object] (this depends on the interpreter). *)
Record Env := {
  oracle : forall T : Type, list event -> ext T -> response T;
  interrupt : list event -> bool;
  object_attr : string -> bool
}.

(** The content of [midi_config.json]: missing, present but not loadable
    (unreadable, truncated or not JSON: [open] or [json.load] raises
    [cls]), or a JSON document. *)
Inductive file_state :=
| Absent
| Unreadable (cls : string)
| Document (doc : PyVal).

(** The logger an object holds: the one it was given (the controller
    passes its own, named MPKMini), or the one of its module,
    [logging.getLogger(__name__)], which [logger or ...] takes when no
    logger is given. *)
Inductive logger := controller_logger | module_logger.

Record world := {
  env : Env;
  trace : list event;
  config_file : file_state;
  (* Config *)
  pad_mappings : PyVal;
  knob_mappings : PyVal;
  (* PadActions, and the WindowUtils and ProcessUtils it builds *)
  pad_logger : logger;
  (* KnobActions *)
  wmi : bool;
  (* AkaiMPKMiniAutomation *)
  midi_input : option Z
}.

Definition set_trace (t : list event) (w : world) : world :=
  {| env := env w; trace := t; config_file := config_file w;
     pad_mappings := pad_mappings w; knob_mappings := knob_mappings w;
     pad_logger := pad_logger w; wmi := wmi w; midi_input := midi_input w |}.
Definition set_config_file (f : file_state) (w : world) : world :=
  {| env := env w; trace := trace w; config_file := f;
     pad_mappings := pad_mappings w; knob_mappings := knob_mappings w;
     pad_logger := pad_logger w; wmi := wmi w; midi_input := midi_input w |}.
Definition set_pad_mappings (v : PyVal) (w : world) : world :=
  {| env := env w; trace := trace w; config_file := config_file w;
     pad_mappings := v; knob_mappings := knob_mappings w;
     pad_logger := pad_logger w; wmi := wmi w; midi_input := midi_input w |}.
Definition set_knob_mappings (v : PyVal) (w : world) : world :=
  {| env := env w; trace := trace w; config_file := config_file w;
     pad_mappings := pad_mappings w; knob_mappings := v;
     pad_logger := pad_logger w; wmi := wmi w; midi_input := midi_input w |}.
Definition set_wmi (b : bool) (w : world) : world :=
  {| env := env w; trace := trace w; config_file := config_file w;
     pad_mappings := pad_mappings w; knob_mappings := knob_mappings w;
     pad_logger := pad_logger w; wmi := b; midi_input := midi_input w |}.
Definition set_midi_input (h : option Z) (w : world) : world :=
  {| env := env w; trace := trace w; config_file := config_file w;
     pad_mappings := pad_mappings w; knob_mappings := knob_mappings w;
     pad_logger := pad_logger w; wmi := wmi w; midi_input := h |}.
Definition set_pad_logger (l : logger) (w : world) : world :=
  {| env := env w; trace := trace w; config_file := config_file w;
     pad_mappings := pad_mappings w; knob_mappings := knob_mappings w;
     pad_logger := l; wmi := wmi w; midi_input := midi_input w |}.

(** ** The monad *)

Definition M (A : Type) : Type := world -> outcome A * world.

Definition ret {A} (a : A) : M A := fun w => (Ok a, w).
Definition raise {A} (e : exn) : M A := fun w => (Raise e, w).
Definition bind {A B} (m : M A) (k : A -> M B) : M B :=
  fun w =>
    match m w with
    | (Ok a, w') => k a w'
    | (Raise e, w') => (Raise e, w')
    | (OutOfFuel, w') => (OutOfFuel, w')
    end.

Declare Scope py_scope.
Delimit Scope py_scope with py.
Notation "x <- m ;; k" := (bind m (fun x => k))
  (at level 100, m at next level, right associativity) : py_scope.
Notation "m ;; k" := (bind m (fun _ => k))
  (at level 100, right associativity) : py_scope.
Local Open Scope py_scope.

(** [try: m  except Exception as e: h e]. *)
Definition try_except {A} (m : M A) (h : string -> M A) : M A :=
  fun w =>
    match m w with
    | (Raise (Exc cls), w') => h cls w'
    | r => r
    end.

(** [try: m  except KeyboardInterrupt: h]. *)
Definition except_KeyboardInterrupt {A} (m : M A) (h : M A) : M A :=
  fun w =>
    match m w with
    | (Raise KeyboardInterrupt, w') => h w'
    | r => r
    end.

(** [try: m  except: h] (a bare [except] catches every exception). *)
Definition try_except_all {A} (m : M A) (h : M A) : M A :=
  fun w =>
    match m w with
    | (Raise _, w') => h w'
    | r => r
    end.

(** [try: m  finally: f].  An exception of [f] replaces the outcome of [m]. *)
Definition try_finally {A} (m : M A) (f : M unit) : M A :=
  fun w =>
    match m w with
    | (OutOfFuel, w') => (OutOfFuel, w')
    | (r, w') =>
        match f w' with
        | (Ok _, w'') => (r, w'')
        | (Raise e, w'') => (Raise e, w'')
        | (OutOfFuel, w'') => (OutOfFuel, w'')
        end
    end.

Definition emit (e : event) : M unit :=
  fun w => (Ok tt, set_trace (trace w ++ [e]) w).

Definition log (lvl : level) (fmt : string) (args : list logarg) : M unit :=
  emit (Log lvl fmt args).

Definition enter (c : capability) : M unit := emit (Enter c).

(** A library call: the oracle answers from the history before the call. *)
Definition call {T} (c : ext T) : M T :=
  fun w =>
    let w' := set_trace (trace w ++ [Call c]) w in
    match oracle (env w) T (trace w) c with
    | Returns v => (Ok v, w')
    | Throws cls => (Raise (Exc cls), w')
    end.

(** [time.sleep(seconds)]. *)
Definition sleep (seconds : float) : M unit :=
  fun w =>
    let w' := set_trace (trace w ++ [Sleep seconds]) w in
    if interrupt (env w) (trace w) then (Raise KeyboardInterrupt, w')
    else (Ok tt, w').

Definition when (b : bool) (m : M unit) : M unit := if b then m else ret tt.

(** [for x in l: f x]. *)
Fixpoint for_each {A} (l : list A) (f : A -> M unit) : M unit :=
  match l with
  | [] => ret tt
  | x :: r => f x ;; for_each r f
  end.

(** [for x in l: f x], where [f x] may leave the loop with a result
    ([Some]: a [return] or [break] inside the body). *)
Fixpoint for_first {A B} (l : list A) (f : A -> M (option B)) : M (option B) :=
  match l with
  | [] => ret None
  | x :: r => o <- f x ;; match o with Some b => ret (Some b) | None => for_first r f end
  end.

Definition gets {A} (f : world -> A) : M A := fun w => (Ok (f w), w).
Definition modify (f : world -> world) : M unit := fun w => (Ok tt, f w).

(** [try: m  except KeyboardInterrupt: h1  except Exception as e: h2 e]. *)
Definition try_except2 {A} (m : M A) (h1 : M A) (h2 : string -> M A) : M A :=
  fun w =>
    match m w with
    | (Raise KeyboardInterrupt, w') => h1 w'
    | (Raise (Exc cls), w') => h2 cls w'
    | r => r
    end.

(** [v.get(k, default)]: only a [dict] has the method. *)
Definition py_get (v : PyVal) (k : string) (default : PyVal) : M PyVal :=
  match v with
  | PDict m => ret (match m !! k with Some x => x | None => default end)
  | _ => raise (Exc "AttributeError")
  end.

(** [v[k] = x] for a string [k]. *)
Definition py_setitem (v : PyVal) (k : string) (x : PyVal) : M PyVal :=
  match v with
  | PDict m => ret (PDict (<[k := x]> m))
  | _ => raise (Exc "TypeError")
  end.

Definition isinstance_dict (v : PyVal) : bool :=
  match v with PDict _ => true | _ => false end.
Definition isinstance_str (v : PyVal) : bool :=
  match v with PStr _ => true | _ => false end.

(** [v == s] for a string literal [s]. *)
Definition py_eq_str (v : PyVal) (s : string) : bool :=
  match v with PStr t => String.eqb t s | _ => false end.

(** [int(f)] as a computation. *)
Definition py_int (f : float) : M Z :=
  match int_of_float f with
  | inl cls => raise (Exc cls)
  | inr z => ret z
  end.

(** * config.py: class Config *)

Definition config_file_name : string := "midi_config.json".

(** What [json.dump] writes: the two mappings under their names.  The file
    is modelled by the document [json.load] reads back from it. *)
Definition config_document (w : world) : PyVal :=
  PDict (<["pad_mappings" := pad_mappings w]>
         (<["knob_mappings" := knob_mappings w]> ∅)).

(** [with open(self.config_file, 'r') as f: json.load(f)]. *)
Definition json_load : M PyVal :=
  fun w =>
    match config_file w with
    | Document doc => (Ok doc, w)
    | Unreadable cls => (Raise (Exc cls), w)
    | Absent => (Raise (Exc "FileNotFoundError"), w)
    end.

Definition save_config : M unit :=
  try_except
    (config <- gets config_document ;;
     call (open_write config_file_name) ;;
     modify (set_config_file (Unreadable "JSONDecodeError")) ;;
     call (json_dump config_file_name) ;;
     modify (set_config_file (Document config)) ;;
     log INFO "Configuration saved successfully" [])
    (fun e => log ERROR "Failed to save config: {}" [AExn e]).

Definition knob_record (action : PyVal) (min_val max_val : Z) : PyVal :=
  PDict (<["action" := action]>
         (<["min" := PInt min_val]> (<["max" := PInt max_val]> ∅))).

Definition default_pad_mappings : PyVal :=
  PDict (list_to_map
    [("36", PStr "Previous Track");
     ("37", PStr "Play/Pause Spotify");
     ("38", PStr "Next Track");
     ("39", PStr "Launch/Focus Slack");
     ("40", PStr "Launch/Focus Windsurf");
     ("41", PStr "Voice Recognition");
     ("42", PStr "Toggle Audio Output");
     ("43", PStr "Move to Next Display")]).

Definition default_knob_mappings : PyVal :=
  PDict (list_to_map
    [("16", knob_record (PStr "System Volume") 1 127);
     ("17", knob_record (PStr "Spotify Volume") 1 127);
     ("18", knob_record (PStr "Firefox Volume") 1 127);
     ("19", knob_record (PStr "Screen Brightness") 1 127)]).

Definition create_default_config : M unit :=
  modify (set_pad_mappings default_pad_mappings) ;;
  modify (set_knob_mappings default_knob_mappings) ;;
  save_config.

Definition load_config : M unit :=
  try_except
    (present <- gets (fun w => match config_file w with Absent => false | _ => true end) ;;
     if present then
       config <- json_load ;;
       pm <- py_get config "pad_mappings" (PDict ∅) ;;
       modify (set_pad_mappings pm) ;;
       km <- py_get config "knob_mappings" (PDict ∅) ;;
       modify (set_knob_mappings km) ;;
       log INFO "Configuration loaded successfully" []
     else
       log WARNING "Config file {} not found, using defaults" [AStr config_file_name] ;;
       create_default_config)
    (fun e =>
       log ERROR "Failed to load config: {}" [AExn e] ;;
       create_default_config).

(** [Config.__init__]. *)
Definition Config_init : M unit :=
  modify (set_pad_mappings (PDict ∅)) ;;
  modify (set_knob_mappings (PDict ∅)) ;;
  load_config.

(** The [note] and [cc] arguments are the keys after [str(...)]: the
    callers in controller.py pass [str(note)], and [str] is the identity on
    a [str]. *)
Definition update_pad_mapping (note : string) (action : string) : M unit :=
  pm <- gets pad_mappings ;;
  pm' <- py_setitem pm note (PStr action) ;;
  modify (set_pad_mappings pm') ;;
  save_config.

Definition update_knob_mapping (cc : string) (action : string)
    (min_val max_val : Z) : M unit :=
  km <- gets knob_mappings ;;
  km' <- py_setitem km cc (knob_record (PStr action) min_val max_val) ;;
  modify (set_knob_mappings km') ;;
  save_config.

Definition get_pad_action (note : string) : M PyVal :=
  pm <- gets pad_mappings ;;
  py_get pm note PNone.

Definition get_knob_action (cc : string) : M PyVal :=
  try_except
    (km <- gets knob_mappings ;;
     mapping <- py_get km cc PNone ;;
     if truthy mapping && isinstance_dict mapping then
       py_get mapping "action" PNone
     else if truthy mapping && isinstance_str mapping then
       ret mapping
     else ret PNone)
    (fun e =>
       log ERROR "Error getting knob action for CC {}: {}" [AStr cc; AExn e] ;;
       ret PNone).

(** * utils/window_utils.py: class WindowUtils *)

Definition SW_MAXIMIZE : Z := 3.
Definition SW_MINIMIZE : Z := 6.
Definition SW_RESTORE : Z := 9.

(** The callback [EnumWindows] runs on every top-level window. *)
Fixpoint enum_callback (title : string) (hwnds windows : list Z) : M (list Z) :=
  match hwnds with
  | [] => ret windows
  | hwnd :: r =>
      visible <- call (IsWindowVisible hwnd) ;;
      windows' <-
        (if visible then
           window_title <- call (GetWindowText hwnd) ;;
           ret (if contains (lower title) (lower window_title)
                then windows ++ [hwnd] else windows)
         else ret windows) ;;
      enum_callback title r windows'
  end.

Definition find_window_by_title (title : string) : M (option Z) :=
  hwnds <- call EnumWindows ;;
  windows <- enum_callback title hwnds [] ;;
  ret (match windows with [] => None | hwnd :: _ => Some hwnd end).

Definition focus_window (hwnd : Z) : M bool :=
  try_except
    (iconic <- call (IsIconic hwnd) ;;
     when iconic (call (ShowWindow hwnd SW_RESTORE)) ;;
     call (SetForegroundWindow hwnd) ;;
     ret true)
    (fun e => log ERROR "Failed to focus window: {}" [AExn e] ;; ret false).

Definition WindowUtils_minimize_window (hwnd : Z) : M bool :=
  try_except
    (window_title <- call (GetWindowText hwnd) ;;
     log INFO "Minimizing window: {}" [AStr window_title] ;;
     call (ShowWindow hwnd SW_MINIMIZE) ;;
     ret true)
    (fun e => log ERROR "Failed to minimize window: {}" [AExn e] ;; ret false).

Definition WindowUtils_maximize_window (hwnd : Z) : M bool :=
  try_except
    (window_title <- call (GetWindowText hwnd) ;;
     log INFO "Maximizing window: {}" [AStr window_title] ;;
     call (ShowWindow hwnd SW_MAXIMIZE) ;;
     ret true)
    (fun e => log ERROR "Failed to maximize window: {}" [AExn e] ;; ret false).

(** * utils/process_utils.py: class ProcessUtils *)

(** [proc.info['name']] is [None] when psutil cannot read the name; then
    [.lower()] raises [AttributeError], which the handler for psutil's own
    exceptions does not catch. *)
Definition is_process_running (process_name : string) : M bool :=
  procs <- call psutil_process_iter ;;
  r <- for_first procs (fun name =>
         match name with
         | None => raise (Exc "AttributeError")
         | Some n =>
             ret (if String.eqb (lower n) (lower process_name)
                  then Some true else None)
         end) ;;
  ret (match r with Some b => b | None => false end).

Definition find_spotify_path : M (option string) :=
  p1 <- call (os_path_expandvars "%APPDATA%\Spotify\Spotify.exe") ;;
  p2 <- call (os_path_expandvars "%LOCALAPPDATA%\Microsoft\WindowsApps\Spotify.exe") ;;
  p4 <- call (os_path_expandvars "%USERPROFILE%\AppData\Local\Microsoft\WindowsApps\spotify.exe") ;;
  let possible_paths :=
    [p1; p2; "C:\Program Files\WindowsApps\SpotifyAB.SpotifyMusic_*\Spotify.exe"; p4] in
  direct <- for_first possible_paths (fun path =>
              if negb (contains "*" path) then
                e <- call (os_path_exists path) ;;
                ret (if e then Some path else None)
              else ret None) ;;
  match direct with
  | Some path => ret (Some path)
  | None =>
      wild <- for_first possible_paths (fun path =>
                if contains "*" path then
                  matches <- call (glob_glob path) ;;
                  ret (List.last (map Some matches) None)
                else ret None) ;;
      match wild with
      | Some path => ret (Some path)
      | None =>
          s1 <- call (os_path_expandvars
                  "%PROGRAMDATA%\Microsoft\Windows\Start Menu\Programs\Spotify.lnk") ;;
          s2 <- call (os_path_expandvars
                  "%APPDATA%\Microsoft\Windows\Start Menu\Programs\Spotify.lnk") ;;
          for_first [s1; s2] (fun shortcut_path =>
            e <- call (os_path_exists shortcut_path) ;;
            if e then
              try_except
                (target <- call (shortcut_Targetpath shortcut_path) ;;
                 ret (Some target))
                (fun e =>
                   log DEBUG "Failed to resolve shortcut {}: {}"
                     [AStr shortcut_path; AExn e] ;;
                   ret None)
            else ret None)
      end
  end.

Definition launch_spotify : M bool :=
  spotify_path <- find_spotify_path ;;
  match spotify_path with
  | Some path =>
      if negb (String.eqb path "") then
        try_except
          (call (subprocess_Popen [path]) ;;
           log INFO "Launching Spotify from: {}" [AStr path] ;;
           ret true)
          (fun e =>
             log ERROR "Failed to launch Spotify from {}: {}" [AStr path; AExn e] ;;
             ret false)
      else log ERROR "Could not find Spotify installation" [] ;; ret false
  | None => log ERROR "Could not find Spotify installation" [] ;; ret false
  end.

Definition is_spotify_running : M bool := is_process_running "Spotify.exe".

(** * actions/pad_actions.py: class PadActions *)

(** [PadActions.__init__(logger)]: it keeps [logger], or the module's
    logger when [logger] is [None], and builds a [WindowUtils] and a
    [ProcessUtils] from the same argument. *)
Definition PadActions_init (logger : option logger) : M unit :=
  modify (set_pad_logger (match logger with
                          | Some l => l
                          | None => module_logger
                          end)).

Definition previous_track : M unit :=
  enter previous_track_ ;;
  call (pyautogui_press "prevtrack") ;;
  log INFO "Previous track command sent" [].

Definition play_pause_spotify : M unit :=
  enter play_pause_spotify_ ;;
  running <- is_spotify_running ;;
  proceed <-
    (if negb running then
       log INFO "Spotify not found, launching..." [] ;;
       launch_spotify
     else ret true) ;;
  if proceed then
    call (pyautogui_press "playpause") ;;
    log INFO "Play/Pause command sent to Spotify" []
  else ret tt.

Definition next_track : M unit :=
  enter next_track_ ;;
  call (pyautogui_press "nexttrack") ;;
  log INFO "Next track command sent" [].

(** [if window:] on the result of [find_window_by_title]: [None] and the
    handle [0] are false. *)
Definition hwnd_truthy (o : option Z) : option Z :=
  match o with
  | Some hwnd => if hwnd =? 0 then None else Some hwnd
  | None => None
  end.

Definition launch_focus_slack : M unit :=
  enter launch_focus_slack_ ;;
  slack_window <- find_window_by_title "Slack" ;;
  match hwnd_truthy slack_window with
  | Some hwnd =>
      focused <- focus_window hwnd ;;
      if focused then log INFO "Focused Slack window" []
      else log WARNING "Failed to focus Slack window" []
  | None =>
      log INFO "Slack not found, launching..." [] ;;
      try_except
        (path <- call (os_path_expandvars "%LOCALAPPDATA%\slack\slack.exe") ;;
         call (subprocess_Popen [path]))
        (fun e => log ERROR "Failed to launch Slack: {}" [AExn e])
  end.

Definition windsurf_path : string := "C:\Program Files\Windsurf\Windsurf.exe".

Definition launch_focus_windsurf : M unit :=
  enter launch_focus_windsurf_ ;;
  windsurf_window <- find_window_by_title "Windsurf" ;;
  match hwnd_truthy windsurf_window with
  | Some hwnd =>
      focused <- focus_window hwnd ;;
      if focused then log INFO "Focused Windsurf window" []
      else log WARNING "Failed to focus Windsurf window" []
  | None =>
      log INFO "Windsurf not found, launching..." [] ;;
      try_except
        (e <- call (os_path_exists windsurf_path) ;;
         if e then call (subprocess_Popen [windsurf_path])
         else log ERROR "Windsurf not found at: {}" [AStr windsurf_path])
        (fun e => log ERROR "Failed to launch Windsurf: {}" [AExn e])
  end.

Definition voice_recognition : M unit :=
  enter voice_recognition_ ;;
  call (pyautogui_hotkey ["win"; "h"]) ;;
  log INFO "Triggered voice recognition" [].

Definition toggle_audio_output : M unit :=
  enter toggle_audio_output_ ;;
  call (pyautogui_hotkey ["win"; "ctrl"; "v"]) ;;
  log INFO "Opened audio output selection" [].

Definition in_rect (x y : Z) (r : rect) : bool :=
  let '(x0, y0, x1, y1) := r in
  (x0 <=? x) && (x <? x1) && (y0 <=? y) && (y <? y1).

(** [enumerate(l)]. *)
Definition enumerate {A} (l : list A) : list (Z * A) :=
  combine (range (Z.of_nat (length l))) l.

(** [monitors[i]]. *)
Definition monitor_at (monitors : list monitor) (i : Z) : M monitor :=
  match monitors !! Z.to_nat i with
  | Some m => ret m
  | None => raise (Exc "IndexError")
  end.

(** An element of [EnumDisplayMonitors] is [(hMonitor, hdcMonitor, rect)];
    the source subscripts component 1, the device-context handle, and the
    oracle decides what that yields. *)
Definition move_to_next_display : M unit :=
  enter move_to_next_display_ ;;
  active_window <- call GetForegroundWindow ;;
  if negb (active_window =? 0) then
    try_except
      (r <- call (GetWindowRect active_window) ;;
       let '(r0, r1, r2, r3) := r in
       let x := r0 in
       let y := r1 in
       let w := r2 - r0 in
       let h := r3 - r1 in
       monitors <- call EnumDisplayMonitors ;;
       current_monitor <- for_first (enumerate monitors) (fun im =>
           monitor_rect <- call (GetMonitorInfo (hMonitor (snd im))) ;;
           ret (if in_rect x y monitor_rect then Some (fst im) else None)) ;;
       match current_monitor with
       | Some cm =>
           let next_monitor := (cm + 1) mod Z.of_nat (length monitors) in
           nm <- monitor_at monitors next_monitor ;;
           next_rect <- call (GetMonitorInfo (hMonitor nm)) ;;
           let '(n0, n1, _, _) := next_rect in
           m <- monitor_at monitors cm ;;
           mx <- call (PyHANDLE_getitem (hdcMonitor m) 0) ;;
           let new_x := n0 + (x - mx) in
           my <- call (PyHANDLE_getitem (hdcMonitor m) 1) ;;
           let new_y := n1 + (y - my) in
           call (MoveWindow active_window new_x new_y w h) ;;
           log INFO "Moved window to next display" []
       | None => log WARNING "Could not determine current monitor" []
       end)
      (fun e => log ERROR "Failed to move window: {}" [AExn e])
  else log WARNING "No active window found" [].

Definition minimize_window : M unit :=
  enter minimize_window_ ;;
  active_window <- call GetForegroundWindow ;;
  if negb (active_window =? 0) then
    window_title <- call (GetWindowText active_window) ;;
    log INFO "Attempting to minimize window: {}" [AStr window_title] ;;
    ok <- WindowUtils_minimize_window active_window ;;
    if ok then log INFO "Successfully minimized window: {}" [AStr window_title]
    else log WARNING "Failed to minimize window: {}" [AStr window_title]
  else log WARNING "No active window found to minimize" [].

Definition maximize_window : M unit :=
  enter maximize_window_ ;;
  active_window <- call GetForegroundWindow ;;
  if negb (active_window =? 0) then
    window_title <- call (GetWindowText active_window) ;;
    log INFO "Attempting to maximize window: {}" [AStr window_title] ;;
    ok <- WindowUtils_maximize_window active_window ;;
    if ok then log INFO "Successfully maximized window: {}" [AStr window_title]
    else log WARNING "Failed to maximize window: {}" [AStr window_title]
  else log WARNING "No active window found to maximize" [].

Definition switch_window : M unit :=
  enter switch_window_ ;;
  try_except
    (log INFO "Switching to next window using Alt+Tab" [] ;;
     call (pyautogui_hotkey ["alt"; "tab"]) ;;
     log INFO "Successfully switched to next window" [])
    (fun e => log ERROR "Failed to switch window: {}" [AExn e]).

Definition open_file_explorer : M unit :=
  enter open_file_explorer_ ;;
  try_except
    (log INFO "Opening File Explorer" [] ;;
     call (subprocess_Popen ["explorer"]) ;;
     log INFO "Successfully opened File Explorer" [])
    (fun e => log ERROR "Failed to open File Explorer: {}" [AExn e]).

Definition show_desktop : M unit :=
  enter show_desktop_ ;;
  try_except
    (log INFO "Showing desktop using Win+D" [] ;;
     call (pyautogui_hotkey ["win"; "d"]) ;;
     log INFO "Successfully showed desktop" [])
    (fun e => log ERROR "Failed to show desktop: {}" [AExn e]).

(** * actions/knob_actions.py: class KnobActions *)

(** [KnobActions.__init__]. *)
Definition KnobActions_init : M unit :=
  try_except
    (call CoInitialize ;;
     call wmi_WMI ;;
     modify (set_wmi true) ;;
     log INFO "WMI initialized successfully" [])
    (fun e =>
       log ERROR "Failed to initialize WMI: {}" [AExn e] ;;
       modify (set_wmi false)).

Definition _get_relative_change (normalized_value sensitivity : float) : float :=
  let relative := ((normalized_value - 0.5) * 2)%float in
  (relative * sensitivity)%float.

Definition set_system_volume (normalized_value : float) : M unit :=
  enter (set_system_volume_ normalized_value) ;;
  try_except
    (call AudioUtilities_GetSpeakers ;;
     call IAudioEndpointVolume_Activate ;;
     call (SetMasterVolumeLevelScalar normalized_value) ;;
     log INFO "System volume set to {:.0%}" [AFloat normalized_value])
    (fun e => log ERROR "Failed to set system volume: {}" [AExn e]).

Definition set_application_volume (app_name : string) (normalized_value : float)
    : M bool :=
  enter (set_application_volume_ app_name normalized_value) ;;
  try_except
    (sessions <- call AudioUtilities_GetAllSessions ;;
     r <- for_first sessions (fun session =>
            if sess_has_process session then
              name <- call (Process_name (sess_id session)) ;;
              if String.eqb (lower name) (lower app_name) then
                call (ISimpleAudioVolume_QueryInterface (sess_id session)) ;;
                call (SetMasterVolume (sess_id session) normalized_value) ;;
                log INFO "{} volume set to {:.0%}"
                  [AStr app_name; AFloat normalized_value] ;;
                ret (Some true)
              else ret None
            else ret None) ;;
     match r with
     | Some b => ret b
     | None => log WARNING "{} not found" [AStr app_name] ;; ret false
     end)
    (fun e =>
       log ERROR "Failed to set {} volume: {}" [AStr app_name; AExn e] ;;
       ret false).

(** The loop over the monitors: [success] records whether one call went
    through. *)
Fixpoint set_brightness_all (brightness : Z) (methods : list Z) (success : bool)
    : M bool :=
  match methods with
  | [] => ret success
  | method :: r =>
      success' <-
        try_except
          (call (WmiSetBrightness method brightness) ;;
           log INFO "Successfully set brightness to {}%" [AInt brightness] ;;
           ret true)
          (fun e =>
             log ERROR "Failed to set brightness for a monitor: {}" [AExn e] ;;
             ret success) ;;
      set_brightness_all brightness r success'
  end.

Definition set_screen_brightness (normalized_value : float) : M unit :=
  enter (set_screen_brightness_ normalized_value) ;;
  has_wmi <- gets wmi ;;
  if negb has_wmi then
    log ERROR "WMI not initialized, cannot control brightness" []
  else
    try_finally
      (try_except
         (b <- py_int (normalized_value * 100)%float ;;
          let brightness := Z.max 0 (Z.min 100 b) in
          log INFO "Setting brightness to {}%" [AInt brightness] ;;
          call CoInitialize ;;
          brightness_methods <- call WmiMonitorBrightnessMethods ;;
          match brightness_methods with
          | [] => log WARNING "No brightness control methods found" []
          | _ =>
              success <- set_brightness_all brightness brightness_methods false ;;
              if negb success then
                log ERROR "Failed to set brightness for any monitor" []
              else ret tt
          end)
         (fun e =>
            log ERROR "Failed to set brightness: {}" [AExn e] ;;
            log ERROR "{}" [AExn e]))
      (try_except_all (call CoUninitialize) (ret tt)).

Definition relative_zoom (normalized_value : float) : M unit :=
  enter (relative_zoom_ normalized_value) ;;
  try_except
    (let change := _get_relative_change normalized_value 1 in
     if (PrimFloat.abs change <? 0.1)%float then ret tt
     else
       log INFO "Applying zoom change: {:+.2f}" [AFloat change] ;;
       if (0 <? change)%float then
         n <- py_int (change * 5)%float ;;
         for_each (range n) (fun _ => call (pyautogui_hotkey ["ctrl"; "+"]))
       else
         n <- py_int (PrimFloat.abs change * 5)%float ;;
         for_each (range n) (fun _ => call (pyautogui_hotkey ["ctrl"; "-"])))
    (fun e => log ERROR "Failed to apply zoom: {}" [AExn e]).

Definition horizontal_scroll (normalized_value : float) : M unit :=
  enter (horizontal_scroll_ normalized_value) ;;
  try_except
    (let change := _get_relative_change normalized_value 2 in
     if (PrimFloat.abs change <? 0.1)%float then ret tt
     else
       scroll_amount <- py_int (change * 50)%float ;;
       log INFO "Horizontal scroll: {}" [AInt scroll_amount] ;;
       call (pyautogui_hscroll scroll_amount))
    (fun e => log ERROR "Failed to horizontal scroll: {}" [AExn e]).

Definition vertical_scroll (normalized_value : float) : M unit :=
  enter (vertical_scroll_ normalized_value) ;;
  try_except
    (let change := _get_relative_change normalized_value 2 in
     if (PrimFloat.abs change <? 0.1)%float then ret tt
     else
       scroll_amount <- py_int (change * 50)%float ;;
       log INFO "Vertical scroll: {}" [AInt scroll_amount] ;;
       call (pyautogui_vscroll scroll_amount))
    (fun e => log ERROR "Failed to vertical scroll: {}" [AExn e]).

(** [KnobActions.handle_action]. *)
Definition handle_action (action : PyVal) (normalized_value : float) : M unit :=
  try_except
    (if py_eq_str action "System Volume" then
       set_system_volume normalized_value
     else if py_eq_str action "Spotify Volume" then
       set_application_volume "spotify.exe" normalized_value ;; ret tt
     else if py_eq_str action "Firefox Volume" then
       set_application_volume "firefox.exe" normalized_value ;; ret tt
     else if py_eq_str action "Screen Brightness" then
       set_screen_brightness normalized_value
     else if py_eq_str action "Relative Zoom" then
       relative_zoom normalized_value
     else if py_eq_str action "Horizontal Scroll" then
       horizontal_scroll normalized_value
     else if py_eq_str action "Vertical Scroll" then
       vertical_scroll normalized_value
     else log WARNING "Unknown knob action: {}" [AVal action])
    (fun e => log ERROR "Error executing knob action {}: {}" [AVal action; AExn e]).

(** * controller.py: class AkaiMPKMiniAutomation *)

Definition setup_logging : M unit :=
  e <- call (os_path_exists "logs") ;;
  when (negb e) (call (os_makedirs "logs")) ;;
  call logging_FileHandler.

Definition max_retries : Z := 3.

(** The body of the second [for] loop of [initialize_midi]: [Some] when
    the device is the controller and has been opened (the [return]). *)
Definition connect_if_mpk_mini (i : Z) : M (option unit) :=
  info <- call (midi_get_device_info i) ;;
  let device_name := lower (dev_name info) in
  if contains "mpk mini" device_name && (dev_input info =? 1) then
    h <- call (midi_Input i) ;;
    modify (set_midi_input (Some h)) ;;
    log INFO "Connected to MIDI device: {}" [AStr (dev_name info)] ;;
    ret (Some tt)
  else ret None.

(** The body of the [try] in [initialize_midi]; each of its paths ends in
    [return], so a normal outcome leaves the function. *)
Definition setup_attempt : M unit :=
  mi <- gets midi_input ;;
  match mi with Some h => call (Input_close h) | None => ret tt end ;;
  call midi_quit ;;
  call midi_init ;;
  n <- call midi_get_count ;;
  log INFO "Found {} MIDI devices:" [AInt n] ;;
  n1 <- call midi_get_count ;;
  for_each (range n1) (fun i =>
    info <- call (midi_get_device_info i) ;;
    log INFO "Device {}: {} (Input: {}, Output: {})"
      [AInt i; AStr (dev_name info);
       ABool (dev_input info =? 1); ABool (dev_output info =? 1)]) ;;
  n2 <- call midi_get_count ;;
  found <- for_first (range n2) connect_if_mpk_mini ;;
  match found with
  | Some _ => ret tt
  | None => log ERROR "Akai MPK Mini not found" []
  end.

(** The [except Exception as e] block of [initialize_midi]; it leaves the
    new [retry_count]. *)
Definition retry_handler (retry_count : Z) (e : string) : M (option Z) :=
  let retry_count := retry_count + 1 in
  log WARNING "Failed to initialize MIDI (attempt {}/{}): {}"
    [AInt retry_count; AInt max_retries; AExn e] ;;
  (if retry_count <? max_retries then
     log INFO "Retrying in 1 second..." [] ;;
     sleep 1
   else
     log ERROR "Failed to initialize MIDI after multiple attempts" []) ;;
  ret (Some retry_count).

(** [while retry_count < max_retries: try: ... except Exception: ...].
    The result of the protected block tells whether the function returned
    ([None]) or the handler ran and left the new [retry_count]. *)
Fixpoint initialize_midi_loop (fuel : nat) (retry_count : Z) : M unit :=
  if retry_count <? max_retries then
    match fuel with
    | O => fun w => (OutOfFuel, w)
    | S fuel' =>
        handled <- try_except (setup_attempt ;; ret None) (retry_handler retry_count) ;;
        match handled with
        | None => ret tt
        | Some retry_count' => initialize_midi_loop fuel' retry_count'
        end
    end
  else ret tt.

Definition initialize_midi : M unit :=
  initialize_midi_loop (Z.to_nat max_retries) 0.

(** The attributes of the [PadActions] instance.  [Initializer] is the
    bound [__init__], whose [logger] argument is optional; [Data] are the
    instance attributes, which are not callable; [Inherited] is an
    attribute of [object]. *)
Inductive attribute :=
| Method (m : M unit)
| Initializer
| Data
| Inherited (name : string).

Definition PadActions_methods : list (string * M unit) :=
  [("previous_track", previous_track);
   ("play_pause_spotify", play_pause_spotify);
   ("next_track", next_track);
   ("launch_focus_slack", launch_focus_slack);
   ("launch_focus_windsurf", launch_focus_windsurf);
   ("voice_recognition", voice_recognition);
   ("toggle_audio_output", toggle_audio_output);
   ("move_to_next_display", move_to_next_display);
   ("minimize_window", minimize_window);
   ("maximize_window", maximize_window);
   ("switch_window", switch_window);
   ("open_file_explorer", open_file_explorer);
   ("show_desktop", show_desktop)].

Fixpoint assoc {A} (name : string) (l : list (string * A)) : option A :=
  match l with
  | [] => None
  | (k, a) :: r => if String.eqb name k then Some a else assoc name r
  end.

(** [getattr(self.pad_actions, name)]; [None] when [hasattr] is false. *)
Definition PadActions_getattr (e : Env) (name : string) : option attribute :=
  match assoc name PadActions_methods with
  | Some m => Some (Method m)
  | None =>
      if String.eqb name "__init__" then Some Initializer
      else if String.eqb name "logger" || String.eqb name "window_utils"
              || String.eqb name "process_utils" then Some Data
      else if object_attr e name then Some (Inherited name)
      else None
  end.

(** [method()]. *)
Definition call_attribute (a : attribute) : M unit :=
  match a with
  | Method m => m
  | Initializer => PadActions_init None
  | Data => raise (Exc "TypeError")
  | Inherited name => call (object_attr_call name)
  end.

(** [action.lower().replace('/', '_').replace(' ', '_')]. *)
Definition method_name (action : PyVal) : M string :=
  match action with
  | PStr s => ret (replace " " "_" (replace "/" "_" (lower s)))
  | _ => raise (Exc "AttributeError")
  end.

Definition handle_pad_action (note : Z) : M unit :=
  action <- get_pad_action (str_of_Z note) ;;
  if truthy action then
    try_except
      (name <- method_name action ;;
       attr <- gets (fun w => PadActions_getattr (env w) name) ;;
       match attr with
       | Some method => call_attribute method
       | None => log WARNING "No handler found for pad action: {}" [AVal action]
       end)
      (fun e => log ERROR "Error executing pad action {}: {}" [AVal action; AExn e])
  else ret tt.

(** [value / 127.0] for an [int] [value]. *)
Definition normalize (value : Z) : M float :=
  match float_of_Z value with
  | Some f => ret (f / 127)%float
  | None => raise (Exc "OverflowError")
  end.

Definition handle_knob_action (cc value : Z) : M unit :=
  action <- get_knob_action (str_of_Z cc) ;;
  if truthy action then
    try_except
      (log INFO "Received knob CC: {}, value: {}" [AInt cc; AInt value] ;;
       normalized_value <- normalize value ;;
       log INFO "Normalized value: {:.2f}" [AFloat normalized_value] ;;
       handle_action action normalized_value)
      (fun e => log ERROR "Error executing knob action {}: {}" [AVal action; AExn e])
  else ret tt.

(** The body of [for event in events]. *)
Definition process_event (event : midi_event) : M unit :=
  let status := status event in
  let data1 := data1 event in
  let data2 := data2 event in
  if (status =? 144) && (0 <? data2) then handle_pad_action data1
  else if status =? 176 then handle_knob_action data1 data2
  else ret tt.

(** [while True: ...], observed for [fuel] iterations. *)
Fixpoint monitor_loop (fuel : nat) : M unit :=
  match fuel with
  | O => fun w => (OutOfFuel, w)
  | S fuel' =>
      mi <- gets midi_input ;;
      match mi with
      | None => raise (Exc "AttributeError")
      | Some h =>
          pending <- call (Input_poll h) ;;
          (if pending then
             events <- call (Input_read h 10) ;;
             for_each events process_event
           else ret tt) ;;
          sleep 0.001 ;;
          monitor_loop fuel'
      end
  end.

(** What the [finally] of [start_monitoring] and [cleanup] both do. *)
Definition release_midi : M unit :=
  mi <- gets midi_input ;;
  match mi with Some h => call (Input_close h) | None => ret tt end ;;
  call midi_quit.

Definition start_monitoring (fuel : nat) : M unit :=
  mi <- gets midi_input ;;
  match mi with
  | None => log ERROR "No MIDI input device available" []
  | Some _ =>
      log INFO "Started monitoring MIDI input" [] ;;
      try_finally
        (try_except2 (monitor_loop fuel)
           (log INFO "Stopping MIDI monitoring" [])
           (fun e => log ERROR "Error in MIDI monitoring: {}" [AExn e]))
        release_midi
  end.

Definition cleanup : M unit :=
  release_midi ;;
  log INFO "Cleaned up resources" [].

(** [AkaiMPKMiniAutomation.__init__]. *)
Definition AkaiMPKMiniAutomation_init : M unit :=
  setup_logging ;;
  Config_init ;;
  PadActions_init (Some controller_logger) ;;
  KnobActions_init ;;
  modify (set_midi_input None) ;;
  initialize_midi.

(** A use of the local variable that the constructor call binds: the name
    is bound only if the constructor returned. *)
Definition local_cleanup (bound : bool) : M unit :=
  if bound then cleanup else raise (Exc "UnboundLocalError").

(** [main] of controller.py. *)
Definition main (fuel : nat) : M unit :=
  fun w =>
    match AkaiMPKMiniAutomation_init w with
    | (Ok _, w1) =>
        try_finally
          (try_except (start_monitoring fuel)
             (fun e => emit (RootLog ERROR "Application error: {}" [AExn e])))
          (local_cleanup true) w1
    | (r, w1) =>
        try_finally
          (try_except (fun w' => (r, w'))
             (fun e => emit (RootLog ERROR "Application error: {}" [AExn e])))
          (local_cleanup false) w1
    end.

(** * main.py *)

Definition main_py (fuel : nat) : M unit :=
  fun w =>
    match AkaiMPKMiniAutomation_init w with
    | (Ok _, w1) =>
        try_finally
          (try_except2
             (emit (Print "MIDI Controller started. Press Ctrl+C to exit." []) ;;
              start_monitoring fuel)
             (emit (Print (String "010" "Shutting down...") []))
             (fun e => emit (Print "Error: {}" [AExn e])))
          (local_cleanup true) w1
    | (r, w1) =>
        try_finally
          (try_except2 (fun w' => (r, w'))
             (emit (Print (String "010" "Shutting down...") []))
             (fun e => emit (Print "Error: {}" [AExn e])))
          (local_cleanup false) w1
    end.

(** * Observations on traces *)

(** The capability methods entered, in order. *)
Definition dispatched (t : list event) : list capability :=
  omap (fun e => match e with Enter c => Some c | _ => None end) t.

(** The events a run added to the trace. *)
Definition added (w w' : world) : list event :=
  drop (length (trace w)) (trace w').

Definition is_Enter (e : event) : bool :=
  match e with Enter _ => true | _ => false end.
Definition is_Sleep (e : event) : bool :=
  match e with Sleep _ => true | _ => false end.
Definition is_Call (e : event) : bool :=
  match e with Call _ => true | _ => false end.
Definition is_Log (e : event) : bool :=
  match e with Log _ _ _ => true | _ => false end.
Definition is_midi_quit (e : event) : bool :=
  match e with
  | Call c => match c with midi_quit => true | _ => false end
  | _ => false
  end.
Definition is_midi_init (e : event) : bool :=
  match e with
  | Call c => match c with midi_init => true | _ => false end
  | _ => false
  end.
Definition is_Input_poll (e : event) : bool :=
  match e with
  | Call c => match c with Input_poll _ => true | _ => false end
  | _ => false
  end.
Definition is_one_second (e : event) : bool :=
  match e with Sleep s => PrimFloat.eqb s 1 | _ => true end.

Definition count (p : event -> bool) (t : list event) : nat :=
  length (filter (fun e => p e = true) t).

(** The configuration is persisted: the file holds the document of the
    mappings in memory. *)
Definition persisted (w : world) : Prop :=
  config_file w = Document (config_document w).

(** Both library calls of [save_config] go through, from world [w] on. *)
Definition write_succeeds (w : world) : Prop :=
  oracle (env w) unit (trace w) (open_write config_file_name) = Returns tt /\
  oracle (env w) unit (trace w ++ [Call (open_write config_file_name)])
    (json_dump config_file_name) = Returns tt.

(** The action names of the two handler classes: the docstrings of
    [PadActions] ("Handle <name> action") and the literals compared in
    [KnobActions.handle_action]. *)
Definition pad_action_names : list string :=
  ["Previous Track"; "Play/Pause Spotify"; "Next Track"; "Launch/Focus Slack";
   "Launch/Focus Windsurf"; "Voice Recognition"; "Toggle Audio Output";
   "Move to Next Display"; "Minimize Window"; "Maximize Window";
   "Switch Window"; "Open File Explorer"; "Show Desktop"].

Definition knob_action_names : list string :=
  ["System Volume"; "Spotify Volume"; "Firefox Volume"; "Screen Brightness";
   "Relative Zoom"; "Horizontal Scroll"; "Vertical Scroll"].

(** The attribute name [handle_pad_action] derives from an action name. *)
Definition attribute_name (s : string) : string :=
  replace " " "_" (replace "/" "_" (lower s)).

(** [r / 127.0] in the words of the specification: the raw value as a
    double, divided by 127. *)
Definition normalize_spec (r : Z) : float :=
  (PrimFloat.of_uint63 (Uint63.of_Z r) / 127)%float.

(** * Concrete environments *)

(** Every library call returns, with an empty or neutral result. *)
Definition default_answer {T} (c : ext T) : T :=
  match c in ext T return T with
  | os_path_exists _ => false
  | os_makedirs _ => tt
  | os_path_expandvars p => p
  | glob_glob _ => []
  | logging_FileHandler => tt
  | subprocess_Popen _ => tt
  | shortcut_Targetpath _ => ""
  | psutil_process_iter => []
  | open_write _ => tt
  | json_dump _ => tt
  | midi_quit => tt
  | midi_init => tt
  | midi_get_count => 0
  | midi_get_device_info _ => {| dev_name := ""; dev_input := 0; dev_output := 0 |}
  | midi_Input i => i
  | Input_close _ => tt
  | Input_poll _ => false
  | Input_read _ _ => []
  | AudioUtilities_GetSpeakers => tt
  | IAudioEndpointVolume_Activate => tt
  | SetMasterVolumeLevelScalar _ => tt
  | AudioUtilities_GetAllSessions => []
  | Process_name _ => ""
  | ISimpleAudioVolume_QueryInterface _ => tt
  | SetMasterVolume _ _ => tt
  | CoInitialize => tt
  | CoUninitialize => tt
  | wmi_WMI => tt
  | WmiMonitorBrightnessMethods => []
  | WmiSetBrightness _ _ => tt
  | pyautogui_press _ => tt
  | pyautogui_hotkey _ => tt
  | pyautogui_hscroll _ => tt
  | pyautogui_vscroll _ => tt
  | EnumWindows => []
  | IsWindowVisible _ => false
  | GetWindowText _ => ""
  | IsIconic _ => false
  | ShowWindow _ _ => tt
  | SetForegroundWindow _ => tt
  | GetForegroundWindow => 0
  | GetWindowRect _ => (0, 0, 0, 0)
  | EnumDisplayMonitors => []
  | GetMonitorInfo _ => (0, 0, 0, 0)
  | PyHANDLE_getitem _ _ => 0
  | MoveWindow _ _ _ _ _ => tt
  | object_attr_call _ => tt
  end.

(** An environment from the answers that differ from the default ones. *)
Definition make_env
    (special : forall T, list event -> ext T -> option (response T))
    (intr : list event -> bool) : Env :=
  {| oracle := fun T hist c =>
       match special T hist c with
       | Some r => r
       | None => Returns (default_answer c)
       end;
     interrupt := intr;
     object_attr := fun _ => false |}.

Definition quiet_env : Env :=
  make_env (fun _ _ _ => None) (fun _ => false).

(** The configuration file cannot be opened for writing. *)
Definition read_only_env : Env :=
  make_env
    (fun T _ c =>
       match c in ext T return option (response T) with
       | open_write _ => Some (Throws "PermissionError")
       | _ => None
       end)
    (fun _ => false).

(** The logs directory cannot be created. *)
Definition no_logs_env : Env :=
  make_env
    (fun T _ c =>
       match c in ext T return option (response T) with
       | os_makedirs _ => Some (Throws "PermissionError")
       | _ => None
       end)
    (fun _ => false).

Definition mpk_devices (i : Z) : device_info :=
  if i =? 1 then {| dev_name := "MPK mini"; dev_input := 1; dev_output := 0 |}
  else {| dev_name := "Microsoft GS Wavetable Synth"; dev_input := 0; dev_output := 1 |}.

(** Device enumeration fails during the first [failures] attempts; then
    two devices are listed, the second one the controller. *)
Definition flaky_env (failures : nat) : Env :=
  make_env
    (fun T hist c =>
       match c in ext T return option (response T) with
       | midi_get_count =>
           if Nat.leb (count is_midi_init hist) failures
           then Some (Throws "MidiException") else Some (Returns 2)
       | midi_get_device_info i => Some (Returns (mpk_devices i))
       | midi_Input _ => Some (Returns 7)
       | _ => None
       end)
    (fun _ => false).

(** pygame.midi keeps a module-level flag: [init] sets it, [quit] clears
    it, and every other entry point, [Input.close] included, starts with a
    check that raises [RuntimeError] while the flag is clear. *)
Definition midi_initialised (hist : list event) : bool :=
  match filter (fun e => is_midi_init e || is_midi_quit e = true) hist with
  | [] => false
  | l => is_midi_init (List.last l (Sleep 0))
  end.

Definition checked {T} (hist : list event) (r : response T) : option (response T) :=
  Some (if midi_initialised hist then r else Throws "RuntimeError").

(** A controller is attached, no event is pending, and Ctrl+C arrives
    during the first sleep of the polling loop. *)
Definition pygame_env : Env :=
  make_env
    (fun T hist c =>
       match c in ext T return option (response T) with
       | midi_get_count => checked hist (Returns 2)
       | midi_get_device_info i => checked hist (Returns (mpk_devices i))
       | midi_Input _ => checked hist (Returns 7)
       | Input_close _ => checked hist (Returns tt)
       | _ => None
       end)
    (fun hist => existsb is_Input_poll hist).

(** The state before the controller is constructed: the fields of the
    objects hold placeholders, which the constructors overwrite. *)
Definition initial_world (e : Env) (f : file_state) : world :=
  {| env := e; trace := []; config_file := f;
     pad_mappings := PNone; knob_mappings := PNone;
     pad_logger := module_logger; wmi := false; midi_input := None |}.

(** A constructed controller with the default mappings in memory. *)
Definition default_world (e : Env) : world :=
  {| env := e; trace := []; config_file := Absent;
     pad_mappings := default_pad_mappings;
     knob_mappings := default_knob_mappings;
     pad_logger := controller_logger; wmi := true; midi_input := None |}.

(** The event stream of the scenario in the specification. *)
Definition scenario_events : list midi_event :=
  [{| status := 144; data1 := 40; data2 := 100 |};
   {| status := 176; data1 := 16; data2 := 64 |};
   {| status := 176; data1 := 17; data2 := 0 |};
   {| status := 144; data1 := 36; data2 := 0 |}].

(** * Predicates of the proofs *)

Definition lookup_or (d : gmap string PyVal) (k : string) (default : PyVal) : PyVal :=
  match d !! k with Some x => x | None => default end.

Definition pad_error (action : PyVal) (e : string) : M unit :=
  log ERROR "Error executing pad action {}: {}" [AVal action; AExn e].

Definition knob_error (action : PyVal) (e : string) : M unit :=
  log ERROR "Error executing knob action {}: {}" [AVal action; AExn e].

Definition action_error (action : PyVal) (e : string) : M unit :=
  log ERROR "Error executing knob action {}: {}" [AVal action; AExn e].

Definition mild {A} (r : outcome A) : Prop :=
  match r with Ok _ | Raise (Exc _) => True | _ => False end.

Definition framed (P : event -> bool) {A} (m : M A) : Prop :=
  forall w, mild (fst (m w)) /\
            exists t, forallb P t = true /\ snd (m w) = set_trace (trace w ++ t) w.

(** Effects of the operating system and log lines, but no dispatch. *)
Definition no_dispatch (e : event) : bool := negb (is_Enter e).

(** A capability method: its entry, then effects only. *)
Definition runs_capability (c : capability) {A} (m : M A) : Prop :=
  forall w, mild (fst (m w)) /\
            exists t, forallb no_dispatch t = true /\
                      snd (m w) = set_trace (trace w ++ Enter c :: t) w.

Definition default_mappings (w : world) : Prop :=
  pad_mappings w = default_pad_mappings /\ knob_mappings w = default_knob_mappings.

(** [w'] extends the trace of [w] by events that satisfy [P]. *)
Definition emits (P : event -> bool) (w w' : world) : Prop :=
  exists t, trace w' = trace w ++ t /\ forallb P t = true.

(** [m] only adds events that satisfy [P]; when [strict], it also ends
    normally or with an [Exception]. *)
Definition behaves (strict : bool) (P : event -> bool) {A} (m : M A) : Prop :=
  forall w, emits P w (snd (m w)) /\ (strict = true -> mild (fst (m w))).

(** Every event. *)
Definition any_event (e : event) : bool := true.

(** [m] adds at most [n] events that satisfy [p]. *)
Definition at_most (p : event -> bool) (n : nat) {A} (m : M A) : Prop :=
  forall w, exists t, trace (snd (m w)) = trace w ++ t /\ (count p t <= n)%nat.

(** Not [pygame.midi.init]. *)
Definition not_init (e : event) : bool := negb (is_midi_init e).

(** Not a sleep. *)
Definition not_sleep (e : event) : bool := negb (is_Sleep e).

(** [m] changes nothing but the trace unless it returns. *)
Definition rolls_back {A} (m : M A) : Prop :=
  forall w, match fst (m w) with
            | Ok _ => True
            | _ => snd (m w) = set_trace (trace (snd (m w))) w
            end.

(** [m] changes nothing but the trace unless it returns [Some]. *)
Definition rolls_back_unless_found {A} (m : M (option A)) : Prop :=
  forall w, match fst (m w) with
            | Ok (Some _) => True
            | _ => snd (m w) = set_trace (trace (snd (m w))) w
            end.

(** What a run of the retry loop adds to the trace: at most [n] calls of
    [pygame.midi.init], at most [s] sleeps, each of one second. *)
Definition retry_events (n s : nat) (t : list event) : Prop :=
  (count is_midi_init t <= n)%nat /\ (count is_Sleep t <= s)%nat /\
  forallb is_one_second t = true.

(** What each entry point reports before its [finally] runs. *)
Definition main_py_report (e : exn) : list event :=
  match e with
  | KeyboardInterrupt => [Print (String "010" "Shutting down...") []]
  | Exc cls => [Print "Error: {}" [AExn cls]]
  end.

Definition main_report (e : exn) : list event :=
  match e with
  | KeyboardInterrupt => []
  | Exc cls => [RootLog ERROR "Application error: {}" [AExn cls]]
  end.

(** * Further predicates and environments *)

(** A relation between the world before and after a computation that
    every event added to the trace respects. *)
Record invariant := {
  rel :> world -> world -> Prop;
  rel_refl : forall w, rel w w;
  rel_trans : forall w1 w2 w3, rel w1 w2 -> rel w2 w3 -> rel w1 w3;
  rel_event : forall w e, rel w (set_trace (trace w ++ [e]) w)
}.

(** An invariant that a change of the pad actions' logger respects. *)
Definition logger_free (I : invariant) : Prop :=
  forall w l, I w (set_pad_logger l w).

(** [m] keeps [I], whatever its outcome. *)
Definition keeps (I : invariant) {A} (m : M A) : Prop :=
  forall w, I w (snd (m w)).

(** Nothing but the trace changes. *)
Definition only_trace (w w' : world) : Prop := w' = set_trace (trace w') w.

(** Nothing but the trace and the device handle changes. *)
Definition only_trace_and_input (w w' : world) : Prop :=
  w' = set_midi_input (midi_input w') (set_trace (trace w') w).

(** The environment stays. *)
Definition same_env (w w' : world) : Prop := env w' = env w.

Definition Only_trace : invariant :=
  {| rel := only_trace;
     rel_refl := ltac:(intros []; reflexivity);
     rel_trans := ltac:(unfold only_trace; intros w1 w2 w3 H1 H2;
                        rewrite H2, H1; reflexivity);
     rel_event := ltac:(reflexivity) |}.

Definition Only_trace_and_input : invariant :=
  {| rel := only_trace_and_input;
     rel_refl := ltac:(intros []; reflexivity);
     rel_trans := ltac:(unfold only_trace_and_input; intros w1 w2 w3 H1 H2;
                        rewrite H2, H1; reflexivity);
     rel_event := ltac:(intros [] e; reflexivity) |}.

Definition Same_env : invariant :=
  {| rel := same_env;
     rel_refl := ltac:(reflexivity);
     rel_trans := ltac:(unfold same_env; congruence);
     rel_event := ltac:(reflexivity) |}.

(** Nothing but the trace and the pad actions' logger changes. *)
Definition only_trace_and_logger (w w' : world) : Prop :=
  w' = set_pad_logger (pad_logger w') (set_trace (trace w') w).

Definition Only_trace_and_logger : invariant :=
  {| rel := only_trace_and_logger;
     rel_refl := ltac:(intros []; reflexivity);
     rel_trans := ltac:(unfold only_trace_and_logger; intros w1 w2 w3 H1 H2;
                        rewrite H2, H1; reflexivity);
     rel_event := ltac:(intros [] e; reflexivity) |}.

(** No pad is mapped to an action whose name resolves to [__init__]. *)
Definition no_initializer_mapped (w : world) : Prop :=
  forall (m : gmap string PyVal) (k s : string),
    pad_mappings w = PDict m -> m !! k = Some (PStr s) ->
    attribute_name s <> "__init__".

(** Nothing but the trace and the pad actions' logger changes, and the
    logger only when a pad is mapped to [__init__]. *)
Definition only_trace_unless_reset (w w' : world) : Prop :=
  only_trace_and_logger w w' /\
  (no_initializer_mapped w -> pad_logger w' = pad_logger w).

Definition Only_trace_unless_reset : invariant :=
  {| rel := only_trace_unless_reset;
     rel_refl := ltac:(intros w; split; [destruct w; reflexivity|reflexivity]);
     rel_trans := ltac:(unfold only_trace_unless_reset, only_trace_and_logger;
                        intros w1 w2 w3 [H1 L1] [H2 L2]; split;
                        [rewrite H2, H1; reflexivity|];
                        intros Hn; rewrite L2, L1;
                        [reflexivity|exact Hn|];
                        unfold no_initializer_mapped in *;
                        rewrite H1; exact Hn);
     rel_event := ltac:(intros w e; split; [destruct w; reflexivity|reflexivity]) |}.

(** Ctrl+C never arrives. *)
Definition uninterrupted (w : world) : Prop :=
  forall hist, interrupt (env w) hist = false.

(** A brightness that reaches WMI is a percentage. *)
Definition brightness_in_range (e : event) : bool :=
  match e with
  | Call c =>
      match c with
      | WmiSetBrightness _ b => (0 <=? b) && (b <=? 100)
      | _ => true
      end
  | _ => true
  end.

(** The session volume is set. *)
Definition is_SetMasterVolume (e : event) : bool :=
  match e with
  | Call c => match c with SetMasterVolume _ _ => true | _ => false end
  | _ => false
  end.

Definition not_SetMasterVolume (e : event) : bool := negb (is_SetMasterVolume e).

(** A key combination is pressed. *)
Definition is_hotkey (e : event) : bool :=
  match e with
  | Call c => match c with pyautogui_hotkey _ => true | _ => false end
  | _ => false
  end.

Definition not_hotkey (e : event) : bool := negb (is_hotkey e).

(** A scroll that reaches pyautogui is of at most 100 clicks. *)
Definition scroll_in_range (e : event) : bool :=
  match e with
  | Call c =>
      match c with
      | pyautogui_hscroll k | pyautogui_vscroll k => (-100 <=? k) && (k <=? 100)
      | _ => true
      end
  | _ => true
  end.

(** [m] sets the volume of at most one session, and of none when it
    returns [None]. *)
Definition sets_once {B} (m : M (option B)) : Prop :=
  forall w, exists t,
    trace (snd (m w)) = trace w ++ t /\
    (count is_SetMasterVolume t <= 1)%nat /\
    (fst (m w) = Ok None -> count is_SetMasterVolume t = 0%nat).

(** [m] always returns. *)
Definition returns {A} (m : M A) : Prop := forall w, exists a, fst (m w) = Ok a.

(** A process whose name psutil can read and that is not the one looked
    for. *)
Definition other_process (process_name : string) (p : option string) : Prop :=
  exists n, p = Some n /\ lower n <> lower process_name.

(** [close] on an input and [pygame.midi.quit] always return. *)
Definition releases (e : Env) : Prop :=
  (forall hist h, oracle e unit hist (Input_close h) = Returns tt) /\
  (forall hist, oracle e unit hist midi_quit = Returns tt).

(** psutil lists a process whose name it cannot read before Spotify. *)
Definition locked_process_env : Env :=
  make_env
    (fun T _ c =>
       match c in ext T return option (response T) with
       | psutil_process_iter =>
           Some (Returns [Some "explorer.exe"; None; Some "Spotify.exe"])
       | _ => None
       end)
    (fun _ => false).

(** The pad action names and the method of [PadActions] each one stands
    for. *)
Definition pad_table : list (string * capability) :=
  [("Previous Track", previous_track_);
   ("Play/Pause Spotify", play_pause_spotify_);
   ("Next Track", next_track_);
   ("Launch/Focus Slack", launch_focus_slack_);
   ("Launch/Focus Windsurf", launch_focus_windsurf_);
   ("Voice Recognition", voice_recognition_);
   ("Toggle Audio Output", toggle_audio_output_);
   ("Move to Next Display", move_to_next_display_);
   ("Minimize Window", minimize_window_);
   ("Maximize Window", maximize_window_);
   ("Switch Window", switch_window_);
   ("Open File Explorer", open_file_explorer_);
   ("Show Desktop", show_desktop_)].

(** The knob action names and the method of [KnobActions] each one
    stands for, as a function of the normalised value. *)
Definition knob_table : list (string * (float -> capability)) :=
  [("System Volume", set_system_volume_);
   ("Spotify Volume", set_application_volume_ "spotify.exe");
   ("Firefox Volume", set_application_volume_ "firefox.exe");
   ("Screen Brightness", set_screen_brightness_);
   ("Relative Zoom", relative_zoom_);
   ("Horizontal Scroll", horizontal_scroll_);
   ("Vertical Scroll", vertical_scroll_)].

(** * Predicates of the retry loop and of the polling loop *)

(** The warning that the handler of [initialize_midi] logs for a failed
    attempt. *)
Definition is_failure_warning (e : event) : bool :=
  match e with
  | Log WARNING fmt _ => String.eqb fmt "Failed to initialize MIDI (attempt {}/{}): {}"
  | _ => false
  end.

(** Neither a sleep nor the warning of a failed attempt. *)
Definition attempt_event (e : event) : bool :=
  negb (is_Sleep e) && negb (is_failure_warning e).

(** Not [pygame.midi.quit]. *)
Definition not_quit (e : event) : bool := negb (is_midi_quit e).

(** What follows failed attempt number [k] when another attempt is left:
    the warning, the announcement and the sleep of one second. *)
Definition retry_report (k : Z) (e : string) : list event :=
  [Log WARNING "Failed to initialize MIDI (attempt {}/{}): {}"
     [AInt k; AInt max_retries; AExn e];
   Log INFO "Retrying in 1 second..." [];
   Sleep 1].

(** What follows the last failed attempt. *)
Definition final_report (e : string) : list event :=
  [Log WARNING "Failed to initialize MIDI (attempt {}/{}): {}"
     [AInt max_retries; AInt max_retries; AExn e];
   Log ERROR "Failed to initialize MIDI after multiple attempts" []].

(** The test of the second loop of [initialize_midi] on a device. *)
Definition is_mpk_mini_input (d : device_info) : bool :=
  contains "mpk mini" (lower (dev_name d)) && (dev_input d =? 1).

(** What pygame.midi answers to a setup attempt that starts in [w]:
    [quit] and [init] return, and from then on [get_count] gives [n],
    [get_device_info j] gives [devs j] and [Input i] gives the handle
    [h], where [i] is the first input device among the [n] whose name
    contains "mpk mini". *)
Definition controller_listed (w : world) (n : Z) (devs : Z -> device_info)
    (i h : Z) : Prop :=
  let started := trace w ++ [Call midi_quit; Call midi_init] in
  oracle (env w) unit (trace w) midi_quit = Returns tt /\
  oracle (env w) unit (trace w ++ [Call midi_quit]) midi_init = Returns tt /\
  (forall t, oracle (env w) Z (started ++ t) midi_get_count = Returns n) /\
  (forall t j, oracle (env w) device_info (started ++ t) (midi_get_device_info j)
               = Returns (devs j)) /\
  (forall t, oracle (env w) Z (started ++ t) (midi_Input i) = Returns h) /\
  0 <= i < n /\
  is_mpk_mini_input (devs i) = true /\
  (forall j, 0 <= j < i -> is_mpk_mini_input (devs j) = false).

(** [w'] is a world of the setup attempt that started in [w], after
    the library has been initialised. *)
Definition attempting (w w' : world) : Prop :=
  env w' = env w /\ midi_input w' = midi_input w /\
  exists t, trace w' = (trace w ++ [Call midi_quit; Call midi_init]) ++ t.

(** Device enumeration fails and Ctrl+C is pending: it arrives during
    the first sleep. *)
Definition impatient_env : Env :=
  {| oracle := fun T hist c =>
       match c in ext T return response T with
       | midi_get_count => Throws "MidiException"
       | c => Returns (default_answer c)
       end;
     interrupt := fun _ => true;
     object_attr := fun _ => false |}.

(** [m] first adds the event [first] to the trace. *)
Definition begins (first : event) {A} (m : M A) : Prop :=
  forall w, exists t, trace (snd (m w)) = trace w ++ first :: t.

(** A capability method: its entry, then the event [first], then effects
    only. *)
Definition runs_from (c : capability) (first : event) {A} (m : M A) : Prop :=
  forall w, mild (fst (m w)) /\
            exists t, forallb no_dispatch t = true /\
                      snd (m w) = set_trace (trace w ++ Enter c :: first :: t) w.

(** The two lines [handle_knob_action] logs before it dispatches. *)
Definition knob_lines (cc value : Z) : list event :=
  [Log INFO "Received knob CC: {}, value: {}" [AInt cc; AInt value];
   Log INFO "Normalized value: {:.2f}" [AFloat (normalize_spec value)]].

(** A controller is attached whose first poll delivers the events of the
    scenario; no Windsurf window is open and the executable exists; of
    the two audio sessions the second belongs to Spotify. *)
Definition scenario_env : Env :=
  make_env
    (fun T hist c =>
       match c in ext T return option (response T) with
       | Input_poll _ => Some (Returns (negb (existsb is_Input_poll hist)))
       | Input_read _ _ => Some (Returns scenario_events)
       | os_path_exists _ => Some (Returns true)
       | AudioUtilities_GetAllSessions =>
           Some (Returns [{| sess_id := 3; sess_has_process := false |};
                          {| sess_id := 5; sess_has_process := true |}])
       | Process_name _ => Some (Returns "Spotify.exe")
       | _ => None
       end)
    (fun _ => false).

(** The configuration file can be opened for writing, but [json.dump]
    fails. *)
Definition failing_dump_env : Env :=
  make_env
    (fun T _ c =>
       match c in ext T return option (response T) with
       | json_dump _ => Some (Throws "OSError")
       | _ => None
       end)
    (fun _ => false).

Local Open Scope py_scope.

(** * The configuration store *)

Lemma save_config_run (w : world) :
  save_config w =
  match oracle (env w) unit (trace w) (open_write config_file_name) with
  | Throws cls =>
      (Ok tt,
       set_trace (trace w ++ [Call (open_write config_file_name);
                              Log ERROR "Failed to save config: {}" [AExn cls]]) w)
  | Returns _ =>
      match oracle (env w) unit (trace w ++ [Call (open_write config_file_name)])
              (json_dump config_file_name) with
      | Throws cls =>
          (Ok tt,
           set_config_file (Unreadable "JSONDecodeError")
             (set_trace (trace w ++ [Call (open_write config_file_name);
                                     Call (json_dump config_file_name);
                                     Log ERROR "Failed to save config: {}" [AExn cls]]) w))
      | Returns _ =>
          (Ok tt,
           set_config_file (Document (config_document w))
             (set_trace (trace w ++ [Call (open_write config_file_name);
                                     Call (json_dump config_file_name);
                                     Log INFO "Configuration saved successfully" []]) w))
      end
  end.
Proof.
  destruct w as [e t f pm km lg wm mi].
  unfold save_config, try_except, bind, gets, call, modify, log, emit; simpl.
  destruct (oracle e unit t (open_write config_file_name)); simpl;
    [destruct (oracle e unit (t ++ [Call (open_write config_file_name)])
                 (json_dump config_file_name)); simpl|];
    unfold set_trace, set_config_file; simpl; rewrite <- ?app_assoc; reflexivity.
Qed.

Lemma save_config_returns (w : world) : fst (save_config w) = Ok tt.
Proof. rewrite save_config_run. repeat destruct (oracle _ _ _ _); reflexivity. Qed.

Lemma save_config_memory (w : world) :
  pad_mappings (snd (save_config w)) = pad_mappings w /\
  knob_mappings (snd (save_config w)) = knob_mappings w /\
  env (snd (save_config w)) = env w /\
  midi_input (snd (save_config w)) = midi_input w /\
  wmi (snd (save_config w)) = wmi w.
Proof. rewrite save_config_run. repeat destruct (oracle _ _ _ _); simpl; auto. Qed.

Lemma save_config_persists (w : world) :
  write_succeeds w -> persisted (snd (save_config w)).
Proof.
  intros [H1 H2]. rewrite save_config_run, H1, H2. reflexivity.
Qed.

Lemma save_config_outcome (w : world) :
  persisted (snd (save_config w)) \/
  exists cls, last (trace (snd (save_config w)))
              = Some (Log ERROR "Failed to save config: {}" [AExn cls]).
Proof.
  rewrite save_config_run. repeat destruct (oracle _ _ _ _); simpl.
  - left; reflexivity.
  - right; eexists; rewrite last_app; reflexivity.
  - right; eexists; rewrite last_app; reflexivity.
Qed.

Lemma try_except_pass {A} (m : M A) (h : string -> M A) (w : world)
    (r : outcome A * world) (a : A) :
  m w = r -> fst r = Ok a -> try_except m h w = r.
Proof.
  intros E H. unfold try_except. rewrite E.
  destruct r as [[x|x|] w']; simpl in H; try discriminate; reflexivity.
Qed.

Lemma create_default_config_run (w : world) :
  create_default_config w =
  save_config (set_knob_mappings default_knob_mappings
                 (set_pad_mappings default_pad_mappings w)).
Proof. reflexivity. Qed.

Lemma load_config_run (w : world) :
  load_config w =
  match config_file w with
  | Absent =>
      create_default_config
        (set_trace (trace w ++ [Log WARNING "Config file {} not found, using defaults"
                                  [AStr config_file_name]]) w)
  | Unreadable cls =>
      create_default_config
        (set_trace (trace w ++ [Log ERROR "Failed to load config: {}" [AExn cls]]) w)
  | Document (PDict d) =>
      (Ok tt,
       set_trace (trace w ++ [Log INFO "Configuration loaded successfully" []])
         (set_knob_mappings (lookup_or d "knob_mappings" (PDict ∅))
            (set_pad_mappings (lookup_or d "pad_mappings" (PDict ∅)) w)))
  | Document _ =>
      create_default_config
        (set_trace (trace w ++ [Log ERROR "Failed to load config: {}"
                                  [AExn "AttributeError"]]) w)
  end.
Proof.
  destruct w as [e t f pm km lg wm mi]; simpl.
  destruct f as [|cls|doc]; [|reflexivity|destruct doc; reflexivity].
  unfold load_config. apply try_except_pass with (a := tt); [reflexivity|].
  rewrite create_default_config_run. apply save_config_returns.
Qed.

Lemma load_config_returns (w : world) : fst (load_config w) = Ok tt.
Proof.
  rewrite load_config_run.
  destruct (config_file w) as [|cls|doc];
    rewrite ?create_default_config_run, ?save_config_returns; trivial.
  destruct doc; rewrite ?create_default_config_run, ?save_config_returns; trivial.
Qed.

Lemma load_config_reads (w w0 : world) :
  config_file w = Document (config_document w0) ->
  load_config w =
  (Ok tt,
   set_trace (trace w ++ [Log INFO "Configuration loaded successfully" []])
     (set_knob_mappings (knob_mappings w0) (set_pad_mappings (pad_mappings w0) w))).
Proof.
  intros H. rewrite load_config_run, H. unfold config_document, lookup_or.
  rewrite lookup_insert_eq.
  rewrite lookup_insert_ne by discriminate. rewrite lookup_insert_eq. reflexivity.
Qed.

Lemma Config_init_run (w : world) :
  Config_init w = load_config (set_knob_mappings (PDict ∅) (set_pad_mappings (PDict ∅) w)).
Proof. reflexivity. Qed.

Lemma get_pad_action_run (w : world) (m : gmap string PyVal) (k : string) :
  pad_mappings w = PDict m ->
  get_pad_action k w = (Ok (lookup_or m k PNone), w).
Proof.
  intros H. unfold get_pad_action, bind, gets. rewrite H. reflexivity.
Qed.

Lemma update_pad_mapping_run (w : world) (m : gmap string PyVal) (k A : string) :
  pad_mappings w = PDict m ->
  update_pad_mapping k A w =
  save_config (set_pad_mappings (PDict (<[k := PStr A]> m)) w).
Proof.
  intros H. unfold update_pad_mapping, bind, gets. rewrite H. reflexivity.
Qed.




Lemma truthy_PStr (s : string) : s <> "" -> truthy (PStr s) = true.
Proof.
  intros H. simpl. destruct (String.eqb_spec s ""); [contradiction|reflexivity].
Qed.

Lemma truthy_knob_record (a : PyVal) (lo hi : Z) : truthy (knob_record a lo hi) = true.
Proof. reflexivity. Qed.

Lemma get_knob_action_run (w : world) (m : gmap string PyVal) (k : string) :
  knob_mappings w = PDict m ->
  get_knob_action k w =
  (Ok (let mapping := lookup_or m k PNone in
       match mapping with
       | PDict d => if truthy mapping then lookup_or d "action" PNone else PNone
       | PStr _ => if truthy mapping then mapping else PNone
       | _ => PNone
       end), w).
Proof.
  intros H. unfold get_knob_action, try_except, bind, gets. rewrite H. simpl.
  unfold lookup_or. destruct (m !! k) as [v|]; [|reflexivity].
  destruct v; simpl; try reflexivity.
  - destruct b; reflexivity.
  - destruct (negb (z =? 0)); reflexivity.
  - destruct (negb (PrimFloat.eqb f 0)); reflexivity.
  - destruct (negb (String.eqb s "")); reflexivity.
  - destruct l; reflexivity.
  - destruct (negb (Nat.eqb (size m0) 0)); reflexivity.
Qed.

(** C7 (amended): for every control number [c] and every non-empty
    action name [s], [get_knob_action c] gives [s] both when the stored
    mapping is the bare string [s] and when it is the record
    [{action: s, min, max}]; with no stored mapping it gives [None]
    without raising. *)
Theorem knob_action_forms_agree (w : world) (m : gmap string PyVal)
    (c : Z) (s : string) (lo hi : Z) :
  s <> "" ->
  knob_mappings w = PDict m ->
  (m !! str_of_Z c = Some (PStr s) ->
   get_knob_action (str_of_Z c) w = (Ok (PStr s), w)) /\
  (m !! str_of_Z c = Some (knob_record (PStr s) lo hi) ->
   get_knob_action (str_of_Z c) w = (Ok (PStr s), w)) /\
  (m !! str_of_Z c = None ->
   get_knob_action (str_of_Z c) w = (Ok PNone, w)).
Proof.
  intros Hs Hm. rewrite (get_knob_action_run _ _ _ Hm). unfold lookup_or.
  repeat split; intros ->.
  - rewrite (truthy_PStr _ Hs). reflexivity.
  - reflexivity.
  - reflexivity.
Qed.

Lemma knob_action_forms_agree_witness :
  let legacy := set_knob_mappings (PDict {["16" := PStr "System Volume"]})
                  (default_world quiet_env) in
  get_knob_action (str_of_Z 16) legacy = (Ok (PStr "System Volume"), legacy) /\
  get_knob_action (str_of_Z 16) (default_world quiet_env)
  = (Ok (PStr "System Volume"), default_world quiet_env) /\
  get_knob_action (str_of_Z 20) (default_world quiet_env)
  = (Ok PNone, default_world quiet_env).
Proof.
  assert (Hs : "System Volume" <> "") by discriminate.
  split; [|split].
  - exact (proj1 (knob_action_forms_agree
                    (set_knob_mappings (PDict {["16" := PStr "System Volume"]})
                       (default_world quiet_env))
                    {["16" := PStr "System Volume"]} 16 "System Volume" 1 127 Hs eq_refl)
             eq_refl).
  - exact (proj1 (proj2 (knob_action_forms_agree (default_world quiet_env)
                           (list_to_map
                              [("16", knob_record (PStr "System Volume") 1 127);
                               ("17", knob_record (PStr "Spotify Volume") 1 127);
                               ("18", knob_record (PStr "Firefox Volume") 1 127);
                               ("19", knob_record (PStr "Screen Brightness") 1 127)])
                           16 "System Volume" 1 127 Hs eq_refl))
             eq_refl).
  - exact (proj2 (proj2 (knob_action_forms_agree (default_world quiet_env)
                           (list_to_map
                              [("16", knob_record (PStr "System Volume") 1 127);
                               ("17", knob_record (PStr "Spotify Volume") 1 127);
                               ("18", knob_record (PStr "Firefox Volume") 1 127);
                               ("19", knob_record (PStr "Screen Brightness") 1 127)])
                           20 "System Volume" 1 127 Hs eq_refl))
             eq_refl).
Defined.

(** C7 as stated fails for the empty name: the bare string [""] is
    falsy and resolves to [None], the record [{action: ""}] to [""]. *)
Lemma empty_action_name_forms_differ :
  fst (get_knob_action (str_of_Z 16)
         (set_knob_mappings (PDict {["16" := PStr ""]}) (default_world quiet_env)))
  = Ok PNone /\
  fst (get_knob_action (str_of_Z 16)
         (set_knob_mappings (PDict {["16" := knob_record (PStr "") 1 127]})
            (default_world quiet_env)))
  = Ok (PStr "").
Proof. split; reflexivity. Qed.

Lemma save_config_file (w : world) :
  match oracle (env w) unit (trace w) (open_write config_file_name) with
  | Throws cls =>
      config_file (snd (save_config w)) = config_file w /\
      last (trace (snd (save_config w)))
      = Some (Log ERROR "Failed to save config: {}" [AExn cls])
  | Returns _ =>
      match oracle (env w) unit (trace w ++ [Call (open_write config_file_name)])
              (json_dump config_file_name) with
      | Throws cls =>
          config_file (snd (save_config w)) = Unreadable "JSONDecodeError" /\
          last (trace (snd (save_config w)))
          = Some (Log ERROR "Failed to save config: {}" [AExn cls])
      | Returns _ => persisted (snd (save_config w))
      end
  end.
Proof.
  rewrite save_config_run. repeat destruct (oracle _ _ _ _); simpl.
  - reflexivity.
  - split; [reflexivity|]. rewrite last_app. reflexivity.
  - split; [reflexivity|]. rewrite last_app. reflexivity.
Qed.




(** * Raw values *)

Lemma byte_cases (P : Z -> bool) :
  forallb P (range 128) = true -> forall r, 0 <= r <= 127 -> P r = true.
Proof.
  intros H r Hr. rewrite forallb_forall in H. apply H.
  unfold range. apply in_map_iff. exists (Z.to_nat r). split; [lia|].
  apply in_seq. lia.
Qed.

Lemma float_of_byte (r : Z) :
  0 <= r <= 127 -> float_of_Z r = Some (PrimFloat.of_uint63 (Uint63.of_Z r)).
Proof.
  intros Hr.
  assert (H : In r (range 128)).
  { unfold range. apply in_map_iff. exists (Z.to_nat r). split; [lia|]. apply in_seq. lia. }
  vm_compute in H.
  repeat (destruct H as [<-|H]; [vm_compute; reflexivity|]). destruct H.
Qed.

Lemma normalize_byte (r : Z) : 0 <= r <= 127 -> normalize r = ret (normalize_spec r).
Proof. intros Hr. unfold normalize. rewrite (float_of_byte r Hr). reflexivity. Qed.

(** * The dispatcher *)

Lemma handle_pad_action_run (w : world) (m : gmap string PyVal) (note : Z) (s : string) :
  pad_mappings w = PDict m ->
  m !! str_of_Z note = Some (PStr s) ->
  handle_pad_action note w =
  if String.eqb s "" then (Ok tt, w)
  else
    try_except
      (match PadActions_getattr (env w) (attribute_name s) with
       | Some method => call_attribute method
       | None => log WARNING "No handler found for pad action: {}" [AVal (PStr s)]
       end)
      (pad_error (PStr s)) w.
Proof.
  intros Hm Hs. unfold handle_pad_action, bind at 1.
  rewrite (get_pad_action_run _ _ _ Hm). unfold lookup_or. rewrite Hs. simpl.
  destruct (String.eqb s ""); reflexivity.
Qed.

Lemma handle_knob_action_run (w : world) (cc value : Z) (a : PyVal) :
  0 <= value <= 127 ->
  get_knob_action (str_of_Z cc) w = (Ok a, w) ->
  handle_knob_action cc value w =
  if truthy a then
    try_except
      (log INFO "Received knob CC: {}, value: {}" [AInt cc; AInt value] ;;
       log INFO "Normalized value: {:.2f}" [AFloat (normalize_spec value)] ;;
       handle_action a (normalize_spec value))
      (knob_error a) w
  else (Ok tt, w).
Proof.
  intros Hv Hg. unfold handle_knob_action, bind at 1. rewrite Hg.
  destruct (truthy a); [|reflexivity].
  rewrite (normalize_byte _ Hv). reflexivity.
Qed.

(** C4 (amended): a pad whose action name, lower-cased and with [/] and
    spaces replaced by [_], names no attribute of the pad actions object
    is handled without raising, and the only effect is one warning (no
    effect at all for the empty name); a knob whose action name is none
    of the seven literals of [handle_action] is handled without raising,
    and the only effects are the two information lines and one warning
    (nothing for the empty name). *)
Theorem unresolved_action_is_a_logged_noop (w : world) :
  (forall (m : gmap string PyVal) (note : Z) (s : string),
     pad_mappings w = PDict m ->
     m !! str_of_Z note = Some (PStr s) ->
     PadActions_getattr (env w) (attribute_name s) = None ->
     handle_pad_action note w =
     (Ok tt,
      if String.eqb s "" then w
      else set_trace (trace w ++ [Log WARNING "No handler found for pad action: {}"
                                    [AVal (PStr s)]]) w)) /\
  (forall (cc value : Z) (s : string),
     0 <= value <= 127 ->
     get_knob_action (str_of_Z cc) w = (Ok (PStr s), w) ->
     ~ In s knob_action_names ->
     handle_knob_action cc value w =
     (Ok tt,
      if String.eqb s "" then w
      else set_trace (trace w ++
                      [Log INFO "Received knob CC: {}, value: {}" [AInt cc; AInt value];
                       Log INFO "Normalized value: {:.2f}" [AFloat (normalize_spec value)];
                       Log WARNING "Unknown knob action: {}" [AVal (PStr s)]]) w)).
Proof.
  split.
  - intros m note s Hm Hs Hattr.
    rewrite (handle_pad_action_run _ _ _ _ Hm Hs), Hattr.
    destruct (String.eqb s ""); reflexivity.
  - intros cc value s Hv Hg Hn.
    rewrite (handle_knob_action_run _ _ _ _ Hv Hg). simpl truthy.
    destruct (String.eqb s ""); [reflexivity|]. simpl negb. cbv iota.
    assert (E : forall k, In k knob_action_names -> String.eqb s k = false).
    { intros k Hk. destruct (String.eqb_spec s k); [subst; contradiction|reflexivity]. }
    unfold handle_action, py_eq_str.
    rewrite !E by (simpl; tauto).
    destruct w as [e t f pm km lg wm mi].
    unfold try_except, bind, log, emit, set_trace; simpl.
    rewrite <- !app_assoc. reflexivity.
Qed.

Lemma unresolved_action_is_a_logged_noop_witness :
  let w := set_knob_mappings (PDict {["16" := PStr "Mute"]})
             (set_pad_mappings (PDict {["36" := PStr "Open Calculator"]})
                (default_world quiet_env)) in
  handle_pad_action 36 w =
  (Ok tt, set_trace [Log WARNING "No handler found for pad action: {}"
                       [AVal (PStr "Open Calculator")]] w) /\
  handle_knob_action 16 64 w =
  (Ok tt, set_trace [Log INFO "Received knob CC: {}, value: {}" [AInt 16; AInt 64];
                     Log INFO "Normalized value: {:.2f}" [AFloat (normalize_spec 64)];
                     Log WARNING "Unknown knob action: {}" [AVal (PStr "Mute")]] w).
Proof.
  pose (w := set_knob_mappings (PDict {["16" := PStr "Mute"]})
               (set_pad_mappings (PDict {["36" := PStr "Open Calculator"]})
                  (default_world quiet_env))).
  destruct (unresolved_action_is_a_logged_noop w) as [Hp Hk].
  split.
  - exact (Hp {["36" := PStr "Open Calculator"]} 36 "Open Calculator"
              eq_refl eq_refl eq_refl).
  - refine (Hk 16 64 "Mute" _ eq_refl _); [lia|].
    simpl. intros H. repeat (destruct H as [H|H]; [discriminate|]). exact H.
Defined.

(** C4 as stated fails for a name outside the closed set that the
    attribute lookup still resolves: ["previous track"] is no recognised
    action name, and the pad handler runs [previous_track]. *)
Lemma near_miss_name_invokes_capability :
  ~ In "previous track" pad_action_names /\
  handle_pad_action 36
    (set_pad_mappings (PDict {["36" := PStr "previous track"]}) (default_world quiet_env))
  = (Ok tt,
     set_trace [Enter previous_track_; Call (pyautogui_press "prevtrack");
                Log INFO "Previous track command sent" []]
       (set_pad_mappings (PDict {["36" := PStr "previous track"]})
          (default_world quiet_env))).
Proof.
  split; [|reflexivity].
  simpl. intros H. repeat (destruct H as [H|H]; [discriminate|]). exact H.
Qed.

Lemma handle_action_zoom (v : float) :
  handle_action (PStr "Relative Zoom") v
  = try_except (relative_zoom v) (action_error (PStr "Relative Zoom")).
Proof. reflexivity. Qed.
Lemma handle_action_hscroll (v : float) :
  handle_action (PStr "Horizontal Scroll") v
  = try_except (horizontal_scroll v) (action_error (PStr "Horizontal Scroll")).
Proof. reflexivity. Qed.
Lemma handle_action_vscroll (v : float) :
  handle_action (PStr "Vertical Scroll") v
  = try_except (vertical_scroll v) (action_error (PStr "Vertical Scroll")).
Proof. reflexivity. Qed.

(** C2: when the relative change of a normalised value has magnitude
    below 0.1 (sensitivity 1 for the zoom, 2 for the scrolls), the zoom
    and scroll handlers, called directly or through [handle_action],
    return normally and add nothing to the trace but the record of their
    own entry: no keystroke, no scroll, no log line. *)
Theorem deadzone_suppresses_every_effect (v : float) (w : world) :
  ((PrimFloat.abs (_get_relative_change v 1) <? 0.1)%float = true ->
   relative_zoom v w = (Ok tt, set_trace (trace w ++ [Enter (relative_zoom_ v)]) w) /\
   handle_action (PStr "Relative Zoom") v w
   = (Ok tt, set_trace (trace w ++ [Enter (relative_zoom_ v)]) w)) /\
  ((PrimFloat.abs (_get_relative_change v 2) <? 0.1)%float = true ->
   horizontal_scroll v w = (Ok tt, set_trace (trace w ++ [Enter (horizontal_scroll_ v)]) w) /\
   handle_action (PStr "Horizontal Scroll") v w
   = (Ok tt, set_trace (trace w ++ [Enter (horizontal_scroll_ v)]) w) /\
   vertical_scroll v w = (Ok tt, set_trace (trace w ++ [Enter (vertical_scroll_ v)]) w) /\
   handle_action (PStr "Vertical Scroll") v w
   = (Ok tt, set_trace (trace w ++ [Enter (vertical_scroll_ v)]) w)).
Proof.
  destruct w as [e t f pm km lg wm mi].
  split; intros H.
  - assert (E : relative_zoom v {| env := e; trace := t; config_file := f;
                  pad_mappings := pm; knob_mappings := km; pad_logger := lg;
                  wmi := wm; midi_input := mi |}
                = (Ok tt, set_trace (t ++ [Enter (relative_zoom_ v)])
                     {| env := e; trace := t; config_file := f;
                        pad_mappings := pm; knob_mappings := km;
                        pad_logger := lg; wmi := wm; midi_input := mi |})).
    { unfold relative_zoom, try_except, bind, enter, emit. simpl. rewrite H. reflexivity. }
    split; [exact E|].
    rewrite handle_action_zoom. unfold try_except. rewrite E. reflexivity.
  - assert (E1 : horizontal_scroll v {| env := e; trace := t; config_file := f;
                  pad_mappings := pm; knob_mappings := km; pad_logger := lg;
                  wmi := wm; midi_input := mi |}
                = (Ok tt, set_trace (t ++ [Enter (horizontal_scroll_ v)])
                     {| env := e; trace := t; config_file := f;
                        pad_mappings := pm; knob_mappings := km;
                        pad_logger := lg; wmi := wm; midi_input := mi |})).
    { unfold horizontal_scroll, try_except, bind, enter, emit. simpl. rewrite H. reflexivity. }
    assert (E2 : vertical_scroll v {| env := e; trace := t; config_file := f;
                  pad_mappings := pm; knob_mappings := km; pad_logger := lg;
                  wmi := wm; midi_input := mi |}
                = (Ok tt, set_trace (t ++ [Enter (vertical_scroll_ v)])
                     {| env := e; trace := t; config_file := f;
                        pad_mappings := pm; knob_mappings := km;
                        pad_logger := lg; wmi := wm; midi_input := mi |})).
    { unfold vertical_scroll, try_except, bind, enter, emit. simpl. rewrite H. reflexivity. }
    split; [exact E1|]. split; [|split; [exact E2|]].
    + rewrite handle_action_hscroll. unfold try_except. rewrite E1. reflexivity.
    + rewrite handle_action_vscroll. unfold try_except. rewrite E2. reflexivity.
Qed.

Lemma deadzone_suppresses_every_effect_witness :
  let w := default_world quiet_env in
  handle_action (PStr "Relative Zoom") (normalize_spec 64) w
  = (Ok tt, set_trace [Enter (relative_zoom_ (normalize_spec 64))] w) /\
  handle_action (PStr "Vertical Scroll") (normalize_spec 64) w
  = (Ok tt, set_trace [Enter (vertical_scroll_ (normalize_spec 64))] w).
Proof.
  destruct (deadzone_suppresses_every_effect (normalize_spec 64) (default_world quiet_env))
    as [Hz Hs].
  split.
  - exact (proj2 (Hz eq_refl)).
  - exact (proj2 (proj2 (proj2 (Hs eq_refl)))).
Defined.

(** C6: for every raw value [r] in 0..127 the knob handler passes
    [r / 127.0] to [handle_action]; that value is monotone in [r], is 0.0
    at 0 and 1.0 at 127. *)
Theorem normalization_divides_by_127 :
  (forall (w : world) (cc r : Z) (a : PyVal),
     0 <= r <= 127 ->
     get_knob_action (str_of_Z cc) w = (Ok a, w) ->
     truthy a = true ->
     normalize r = ret (normalize_spec r) /\
     handle_knob_action cc r w =
     try_except
       (log INFO "Received knob CC: {}, value: {}" [AInt cc; AInt r] ;;
        log INFO "Normalized value: {:.2f}" [AFloat (normalize_spec r)] ;;
        handle_action a (normalize_spec r))
       (knob_error a) w) /\
  (forall r1 r2 : Z,
     0 <= r1 -> r1 <= r2 -> r2 <= 127 ->
     (normalize_spec r1 <=? normalize_spec r2)%float = true) /\
  normalize_spec 0 = 0%float /\
  normalize_spec 127 = 1%float.
Proof.
  split; [|split; [|split; reflexivity]].
  - intros w cc r a Hr Hg Ht. split; [apply normalize_byte, Hr|].
    rewrite (handle_knob_action_run _ _ _ _ Hr Hg), Ht. reflexivity.
  - intros r1 r2 H0 H12 H127.
    pose (P := fun r1 => forallb (fun r2 =>
                 (r2 <? r1) || (normalize_spec r1 <=? normalize_spec r2)%float) (range 128)).
    assert (HP : P r1 = true).
    { apply byte_cases; [vm_compute; reflexivity|lia]. }
    unfold P in HP.
    pose proof (byte_cases _ HP r2 ltac:(lia)) as H. simpl in H.
    apply orb_true_iff in H. destruct H as [H|H]; [|exact H].
    apply Z.ltb_lt in H. lia.
Qed.

Lemma normalization_divides_by_127_witness :
  handle_knob_action 16 64 (default_world quiet_env) =
  try_except
    (log INFO "Received knob CC: {}, value: {}" [AInt 16; AInt 64] ;;
     log INFO "Normalized value: {:.2f}" [AFloat (normalize_spec 64)] ;;
     handle_action (PStr "System Volume") (normalize_spec 64))
    (knob_error (PStr "System Volume")) (default_world quiet_env) /\
  (normalize_spec 3 <=? normalize_spec 64)%float = true.
Proof.
  destruct normalization_divides_by_127 as (H1 & H2 & _).
  split.
  - refine (proj2 (H1 (default_world quiet_env) 16 64 (PStr "System Volume") _ eq_refl eq_refl)).
    lia.
  - apply H2; lia.
Defined.

(** * Frames: computations that only add events *)

Lemma set_trace_set_trace (a b : list event) (w : world) :
  set_trace b (set_trace a w) = set_trace b w.
Proof. reflexivity. Qed.

Lemma set_trace_same (w : world) : set_trace (trace w ++ []) w = w.
Proof. destruct w; unfold set_trace; simpl. rewrite app_nil_r. reflexivity. Qed.

Section Framed.
Variable P : event -> bool.

Lemma framed_ret {A} (a : A) : framed P (ret a).
Proof. intros w. split; [exact I|]. exists []. split; [reflexivity|]. symmetry. apply set_trace_same. Qed.

Lemma framed_raise {A} (cls : string) : framed P (@raise A (Exc cls)).
Proof. intros w. split; [exact I|]. exists []. split; [reflexivity|]. symmetry. apply set_trace_same. Qed.

Lemma framed_gets {A} (f : world -> A) : framed P (gets f).
Proof. intros w. split; [exact I|]. exists []. split; [reflexivity|]. symmetry. apply set_trace_same. Qed.

Lemma framed_emit (e : event) : P e = true -> framed P (emit e).
Proof.
  intros H w. split; [exact I|]. exists [e]. simpl. rewrite H. split; reflexivity.
Qed.

Lemma framed_log lvl fmt args : P (Log lvl fmt args) = true -> framed P (log lvl fmt args).
Proof. apply framed_emit. Qed.

Lemma framed_call {T} (c : ext T) : P (Call c) = true -> framed P (call c).
Proof.
  intros H w. unfold call. destruct (oracle (env w) T (trace w) c); simpl;
    (split; [exact I|]); exists [Call c]; simpl; rewrite H; split; reflexivity.
Qed.

Lemma framed_bind {A B} (m : M A) (k : A -> M B) :
  framed P m -> (forall a, framed P (k a)) -> framed P (bind m k).
Proof.
  intros Hm Hk w. unfold bind. destruct (Hm w) as (Hmild & t & Ht & Hw).
  destruct (m w) as [[a|e|] w']; simpl in *; subst w'.
  - destruct (Hk a (set_trace (trace w ++ t) w)) as (Hmild' & t' & Ht' & Hw').
    split; [exact Hmild'|]. exists (t ++ t')%list. rewrite forallb_app, Ht, Ht'.
    split; [reflexivity|]. rewrite Hw'. simpl. rewrite app_assoc. reflexivity.
  - split; [exact Hmild|]. exists t. split; [exact Ht|reflexivity].
  - destruct Hmild.
Qed.

Lemma framed_try_except {A} (m : M A) (h : string -> M A) :
  framed P m -> (forall cls, framed P (h cls)) -> framed P (try_except m h).
Proof.
  intros Hm Hh w. unfold try_except. destruct (Hm w) as (Hmild & t & Ht & Hw).
  destruct (m w) as [[a|[|cls]|] w']; simpl in *; subst w'; try destruct Hmild.
  - split; [exact I|]. exists t. split; [exact Ht|reflexivity].
  - destruct (Hh cls (set_trace (trace w ++ t) w)) as (Hmild' & t' & Ht' & Hw').
    split; [exact Hmild'|]. exists (t ++ t')%list. rewrite forallb_app, Ht, Ht'.
    split; [reflexivity|]. rewrite Hw'. simpl. rewrite app_assoc. reflexivity.
Qed.

Lemma framed_try_except_all {A} (m h : M A) :
  framed P m -> framed P h -> framed P (try_except_all m h).
Proof.
  intros Hm Hh w. unfold try_except_all. destruct (Hm w) as (Hmild & t & Ht & Hw).
  destruct (m w) as [[a|[|cls]|] w']; simpl in *; subst w'; try destruct Hmild.
  - split; [exact I|]. exists t. split; [exact Ht|reflexivity].
  - destruct (Hh (set_trace (trace w ++ t) w)) as (Hmild' & t' & Ht' & Hw').
    split; [exact Hmild'|]. exists (t ++ t')%list. rewrite forallb_app, Ht, Ht'.
    split; [reflexivity|]. rewrite Hw'. simpl. rewrite app_assoc. reflexivity.
Qed.

Lemma framed_try_finally {A} (m : M A) (f : M unit) :
  framed P m -> framed P f -> framed P (try_finally m f).
Proof.
  intros Hm Hf w. unfold try_finally. destruct (Hm w) as (Hmild & t & Ht & Hw).
  destruct (Hf (set_trace (trace w ++ t) w)) as (Hmild' & t' & Ht' & Hw').
  destruct (m w) as [[a|[|cls]|] w']; simpl in *; subst w'; try destruct Hmild;
    destruct (f (set_trace (trace w ++ t) w)) as [[u|[|cls']|] w'']; simpl in *;
    subst w''; try destruct Hmild'; (split; [exact I|]);
    exists (t ++ t')%list; rewrite forallb_app, Ht, Ht';
    (split; [reflexivity|]); rewrite app_assoc; reflexivity.
Qed.

Lemma framed_when (b : bool) (m : M unit) : framed P m -> framed P (when b m).
Proof. intros H. destruct b; [exact H|apply framed_ret]. Qed.

Lemma framed_for_each {A} (l : list A) (f : A -> M unit) :
  (forall x, framed P (f x)) -> framed P (for_each l f).
Proof.
  intros H. induction l as [|x r IH]; simpl; [apply framed_ret|].
  apply framed_bind; [apply H|intros _; exact IH].
Qed.

Lemma framed_for_first {A B} (l : list A) (f : A -> M (option B)) :
  (forall x, framed P (f x)) -> framed P (for_first l f).
Proof.
  intros H. induction l as [|x r IH]; simpl; [apply framed_ret|].
  apply framed_bind; [apply H|intros [b|]; [apply framed_ret|exact IH]].
Qed.

Lemma framed_py_int (f : float) : framed P (py_int f).
Proof. unfold py_int. destruct (int_of_float f); [apply framed_raise|apply framed_ret]. Qed.
End Framed.

Ltac framed_step :=
  lazymatch goal with
  | |- framed _ (ret _) => apply framed_ret
  | |- framed _ (raise _) => apply framed_raise
  | |- framed _ (gets _) => apply framed_gets
  | |- framed _ (py_int _) => apply framed_py_int
  | |- framed _ (log _ _ _) => apply framed_log; reflexivity
  | |- framed _ (call _) => apply framed_call; reflexivity
  | |- framed _ (when _ _) => apply framed_when
  | |- framed _ (for_each _ _) => apply framed_for_each; intros
  | |- framed _ (for_first _ _) => apply framed_for_first; intros
  | |- framed _ (try_except _ _) => apply framed_try_except; [|intros]
  | |- framed _ (try_except_all _ _) => apply framed_try_except_all
  | |- framed _ (try_finally _ _) => apply framed_try_finally
  | |- framed _ (bind _ _) => apply framed_bind; [|intros]
  | |- framed _ (match ?x with _ => _ end) => destruct x
  end.
Ltac framed := repeat framed_step.

Lemma framed_enum_callback P (title : string) (hwnds windows : list Z) :
  (forall T (c : ext T), P (Call c) = true) ->
  framed P (enum_callback title hwnds windows).
Proof.
  intros HP. revert windows. induction hwnds as [|hwnd r IH]; intros windows; simpl.
  - apply framed_ret.
  - apply framed_bind; [apply framed_call, HP|intros visible].
    apply framed_bind; [|intros; apply IH].
    destruct visible; [|apply framed_ret].
    apply framed_bind; [apply framed_call, HP|intros; apply framed_ret].
Qed.

Lemma framed_find_window_by_title (title : string) :
  framed no_dispatch (find_window_by_title title).
Proof.
  unfold find_window_by_title. framed. apply framed_enum_callback. reflexivity.
Qed.

Lemma framed_focus_window (hwnd : Z) : framed no_dispatch (focus_window hwnd).
Proof. unfold focus_window. framed. Qed.

Lemma runs_capability_intro (c : capability) {A} (body : M A) :
  framed no_dispatch body -> runs_capability c (enter c ;; body).
Proof.
  intros H w. unfold bind, enter, emit.
  destruct (H (set_trace (trace w ++ [Enter c]) w)) as (Hm & t & Ht & Hw).
  destruct (body (set_trace (trace w ++ [Enter c]) w)) as [[a|e|] w']; simpl in *; subst w';
    (split; [exact Hm|]); exists t; (split; [exact Ht|]);
    rewrite <- app_assoc; reflexivity.
Qed.

Lemma set_system_volume_runs (v : float) :
  runs_capability (set_system_volume_ v) (set_system_volume v).
Proof. apply runs_capability_intro. framed. Qed.

Lemma set_application_volume_runs (app : string) (v : float) :
  runs_capability (set_application_volume_ app v) (set_application_volume app v).
Proof. apply runs_capability_intro. framed. Qed.

Lemma dispatched_app (t1 t2 : list event) :
  dispatched (t1 ++ t2) = (dispatched t1 ++ dispatched t2)%list.
Proof. unfold dispatched. apply omap_app. Qed.

Lemma dispatched_no_dispatch (t : list event) :
  forallb no_dispatch t = true -> dispatched t = [].
Proof.
  induction t as [|e t IH]; simpl; [reflexivity|].
  intros H. apply andb_true_iff in H. destruct H as [He Ht].
  destruct e; try discriminate; simpl; apply IH, Ht.
Qed.

(** A handler that logs what a unit-valued capability method raises. *)
Lemma guarded_capability (c : capability) (m : M unit) (fmt : string)
    (args : string -> list logarg) :
  runs_capability c m ->
  forall w, exists t,
    try_except m (fun cls => log ERROR fmt (args cls)) w
    = (Ok tt, set_trace (trace w ++ t) w) /\ dispatched t = [c].
Proof.
  intros Hm w. unfold try_except.
  destruct (Hm w) as (Hmild & t & Ht & Hw).
  destruct (m w) as [[[]|[|cls]|] w']; simpl in *; subst w'; try destruct Hmild.
  - exists (Enter c :: t). split; [reflexivity|].
    simpl. rewrite (dispatched_no_dispatch _ Ht). reflexivity.
  - exists ((Enter c :: t) ++ [Log ERROR fmt (args cls)])%list.
    unfold log, emit; simpl. rewrite <- app_assoc. split; [reflexivity|].
    rewrite dispatched_app. simpl. rewrite (dispatched_no_dispatch _ Ht). reflexivity.
Qed.

Lemma knob_dispatch (c : capability) (m : M unit) (a : PyVal) (cc value : Z) (w : world) :
  0 <= value <= 127 ->
  get_knob_action (str_of_Z cc) w = (Ok a, w) ->
  truthy a = true ->
  handle_action a (normalize_spec value) = try_except m (knob_error a) ->
  runs_capability c m ->
  exists t, handle_knob_action cc value w = (Ok tt, set_trace (trace w ++ t) w) /\
            dispatched t = [c].
Proof.
  intros Hv Hg Ht Ha Hm.
  rewrite (handle_knob_action_run _ _ _ _ Hv Hg), Ht, Ha.
  unfold try_except at 1, bind, log, emit. simpl.
  match goal with |- context [try_except m _ ?w1] =>
    destruct (guarded_capability c m "Error executing knob action {}: {}"
                (fun cls => [AVal a; AExn cls]) Hm w1) as (t & E & D)
  end.
  unfold knob_error. rewrite E. simpl.
  eexists. rewrite <- !app_assoc. split; [reflexivity|].
  simpl. exact D.
Qed.

Lemma runs_capability_discard (c : capability) {A} (m : M A) :
  runs_capability c m -> runs_capability c (m ;; ret tt).
Proof.
  intros H w. unfold bind, ret. destruct (H w) as (Hmild & t & Ht & Hw).
  destruct (m w) as [[a|e|] w']; simpl in *; (split; [exact Hmild|]);
    exists t; (split; [exact Ht|exact Hw]).
Qed.

(** * Append-only traces *)

Lemma emits_refl P w : emits P w w.
Proof. exists []. rewrite app_nil_r. split; reflexivity. Qed.

Lemma emits_trans P w1 w2 w3 : emits P w1 w2 -> emits P w2 w3 -> emits P w1 w3.
Proof.
  intros (t1 & E1 & H1) (t2 & E2 & H2). exists (t1 ++ t2)%list.
  rewrite E2, E1, <- app_assoc, forallb_app, H1, H2. split; reflexivity.
Qed.

Lemma emits_one P (e : event) (w w' : world) :
  P e = true -> trace w' = trace w ++ [e] -> emits P w w'.
Proof. intros H E. exists [e]. simpl. rewrite H. split; [exact E|reflexivity]. Qed.

Section Behaves.
Variable strict : bool.
Variable P : event -> bool.

Lemma behaves_ret {A} (a : A) : behaves strict P (ret a).
Proof. intros w. split; [apply emits_refl|intros _; exact I]. Qed.

Lemma behaves_raise {A} (cls : string) : behaves strict P (@raise A (Exc cls)).
Proof. intros w. split; [apply emits_refl|intros _; exact I]. Qed.

Lemma behaves_gets {A} (f : world -> A) : behaves strict P (gets f).
Proof. intros w. split; [apply emits_refl|intros _; exact I]. Qed.

Lemma behaves_modify (f : world -> world) :
  (forall w, trace (f w) = trace w) -> behaves strict P (modify f).
Proof.
  intros H w. split; [|intros _; exact I].
  exists []. simpl. rewrite H, app_nil_r. split; reflexivity.
Qed.

Lemma behaves_emit (e : event) : P e = true -> behaves strict P (emit e).
Proof.
  intros H w. split; [|intros _; exact I]. apply (emits_one P e); [exact H|reflexivity].
Qed.

Lemma behaves_log lvl fmt args :
  P (Log lvl fmt args) = true -> behaves strict P (log lvl fmt args).
Proof. apply behaves_emit. Qed.

Lemma behaves_enter c : P (Enter c) = true -> behaves strict P (enter c).
Proof. apply behaves_emit. Qed.

Lemma behaves_call {T} (c : ext T) : P (Call c) = true -> behaves strict P (call c).
Proof.
  intros H w. unfold call.
  destruct (oracle (env w) T (trace w) c); simpl;
    (split; [apply (emits_one P (Call c)); [exact H|reflexivity]|intros _; exact I]).
Qed.

Lemma behaves_bind {A B} (m : M A) (k : A -> M B) :
  behaves strict P m -> (forall a, behaves strict P (k a)) -> behaves strict P (bind m k).
Proof.
  intros Hm Hk w. unfold bind. destruct (Hm w) as [He Hs].
  destruct (m w) as [[a|e|] w']; simpl in *.
  - destruct (Hk a w') as [He' Hs']. split; [exact (emits_trans _ _ _ _ He He')|exact Hs'].
  - split; assumption.
  - split; assumption.
Qed.

Lemma behaves_try_except {A} (m : M A) (h : string -> M A) :
  behaves strict P m -> (forall cls, behaves strict P (h cls)) ->
  behaves strict P (try_except m h).
Proof.
  intros Hm Hh w. unfold try_except. destruct (Hm w) as [He Hs].
  destruct (m w) as [[a|[|cls]|] w']; simpl in *; try (split; assumption).
  destruct (Hh cls w') as [He' Hs']. split; [exact (emits_trans _ _ _ _ He He')|exact Hs'].
Qed.

Lemma behaves_try_except_all {A} (m h : M A) :
  behaves strict P m -> behaves strict P h -> behaves strict P (try_except_all m h).
Proof.
  intros Hm Hh w. unfold try_except_all. destruct (Hm w) as [He Hs].
  destruct (m w) as [[a|e|] w']; simpl in *; try (split; assumption).
  destruct (Hh w') as [He' Hs']. split; [exact (emits_trans _ _ _ _ He He')|exact Hs'].
Qed.

Lemma behaves_try_finally {A} (m : M A) (f : M unit) :
  behaves strict P m -> behaves strict P f -> behaves strict P (try_finally m f).
Proof.
  intros Hm Hf w. unfold try_finally. destruct (Hm w) as [He Hs].
  destruct (m w) as [[a|e|] w']; simpl in *; try (split; assumption);
    destruct (Hf w') as [He' Hs'];
    destruct (f w') as [[u|e'|] w'']; simpl in *;
    (split; [exact (emits_trans _ _ _ _ He He')|auto]).
Qed.

Lemma behaves_when (b : bool) (m : M unit) :
  behaves strict P m -> behaves strict P (when b m).
Proof. intros H. destruct b; [exact H|apply behaves_ret]. Qed.

Lemma behaves_for_each {A} (l : list A) (f : A -> M unit) :
  (forall x, behaves strict P (f x)) -> behaves strict P (for_each l f).
Proof.
  intros H. induction l as [|x r IH]; simpl; [apply behaves_ret|].
  apply behaves_bind; [apply H|intros _; exact IH].
Qed.

Lemma behaves_for_first {A B} (l : list A) (f : A -> M (option B)) :
  (forall x, behaves strict P (f x)) -> behaves strict P (for_first l f).
Proof.
  intros H. induction l as [|x r IH]; simpl; [apply behaves_ret|].
  apply behaves_bind; [apply H|intros [b|]; [apply behaves_ret|exact IH]].
Qed.

Lemma behaves_py_int (f : float) : behaves strict P (py_int f).
Proof. unfold py_int. destruct (int_of_float f); [apply behaves_raise|apply behaves_ret]. Qed.

Lemma behaves_py_get v k d : behaves strict P (py_get v k d).
Proof. destruct v; simpl; first [apply behaves_raise|apply behaves_ret]. Qed.

Lemma behaves_py_setitem v k x : behaves strict P (py_setitem v k x).
Proof. destruct v; simpl; first [apply behaves_raise|apply behaves_ret]. Qed.
End Behaves.

Section Loose.
Variable P : event -> bool.

Lemma behaves_raise_any {A} (e : exn) : behaves false P (@raise A e).
Proof. intros w. split; [apply emits_refl|discriminate]. Qed.

Lemma behaves_sleep (s : float) : P (Sleep s) = true -> behaves false P (sleep s).
Proof.
  intros H w. unfold sleep. destruct (interrupt (env w) (trace w)); simpl;
    (split; [apply (emits_one P (Sleep s)); [exact H|reflexivity]|discriminate]).
Qed.

Lemma behaves_out_of_fuel {A} : behaves false P (fun w => (@OutOfFuel A, w)).
Proof. intros w. split; [apply emits_refl|discriminate]. Qed.

Lemma behaves_try_except2 {A} (m h1 : M A) (h2 : string -> M A) :
  behaves false P m -> behaves false P h1 -> (forall cls, behaves false P (h2 cls)) ->
  behaves false P (try_except2 m h1 h2).
Proof.
  intros Hm H1 H2 w. unfold try_except2. destruct (Hm w) as [He _].
  split; [|discriminate].
  destruct (m w) as [[a|[|cls]|] w']; simpl in *; try assumption.
  - exact (emits_trans _ _ _ _ He (proj1 (H1 w'))).
  - exact (emits_trans _ _ _ _ He (proj1 (H2 cls w'))).
Qed.
End Loose.

Lemma behaves_loosen (P : event -> bool) {A} (m : M A) :
  behaves true P m -> behaves false P m.
Proof. intros H w. split; [apply H|discriminate]. Qed.

Create HintDb behaves.

Ltac behaves_step :=
  lazymatch goal with
  | |- behaves _ _ (ret _) => apply behaves_ret
  | |- behaves _ _ (raise (Exc _)) => apply behaves_raise
  | |- behaves _ _ (raise _) => apply behaves_raise_any
  | |- behaves _ _ (gets _) => apply behaves_gets
  | |- behaves _ _ (modify _) => apply behaves_modify; reflexivity
  | |- behaves _ _ (py_int _) => apply behaves_py_int
  | |- behaves _ _ (py_get _ _ _) => apply behaves_py_get
  | |- behaves _ _ (py_setitem _ _ _) => apply behaves_py_setitem
  | |- behaves _ _ (log _ _ _) => apply behaves_log; reflexivity
  | |- behaves _ _ (enter _) => apply behaves_enter; reflexivity
  | |- behaves _ _ (emit _) => apply behaves_emit; reflexivity
  | |- behaves _ _ (call _) => apply behaves_call; reflexivity
  | |- behaves _ _ (sleep _) => apply behaves_sleep; reflexivity
  | |- behaves _ _ (when _ _) => apply behaves_when
  | |- behaves _ _ (for_each _ _) => apply behaves_for_each; intros
  | |- behaves _ _ (for_first _ _) => apply behaves_for_first; intros
  | |- behaves _ _ (try_except _ _) => apply behaves_try_except; [|intros]
  | |- behaves _ _ (try_except2 _ _ _) => apply behaves_try_except2; [| |intros]
  | |- behaves _ _ (try_except_all _ _) => apply behaves_try_except_all
  | |- behaves _ _ (try_finally _ _) => apply behaves_try_finally
  | |- behaves _ _ (bind _ _) => apply behaves_bind; [|intros]
  | |- behaves _ _ (match ?x with _ => _ end) => destruct x
  | |- behaves _ _ _ => solve [auto with behaves]
  end.
Ltac behaves := repeat behaves_step.

Ltac head_of t := lazymatch t with ?f _ => head_of f | _ => t end.
Ltac unfold_head :=
  lazymatch goal with |- behaves _ _ ?m => let h := head_of m in unfold h end.

Section Reachable.
Variable strict : bool.

Lemma behaves_enum_callback title hwnds windows :
  behaves strict any_event (enum_callback title hwnds windows).
Proof.
  revert windows. induction hwnds as [|hwnd r IH]; intros windows; simpl; behaves.
Qed.
Hint Resolve behaves_enum_callback : behaves.

Lemma behaves_find_window_by_title title :
  behaves strict any_event (find_window_by_title title).
Proof. unfold find_window_by_title. behaves. Qed.

Lemma behaves_focus_window hwnd : behaves strict any_event (focus_window hwnd).
Proof. unfold focus_window. behaves. Qed.

Lemma behaves_WindowUtils_minimize_window hwnd :
  behaves strict any_event (WindowUtils_minimize_window hwnd).
Proof. unfold WindowUtils_minimize_window. behaves. Qed.

Lemma behaves_WindowUtils_maximize_window hwnd :
  behaves strict any_event (WindowUtils_maximize_window hwnd).
Proof. unfold WindowUtils_maximize_window. behaves. Qed.

Lemma behaves_is_process_running name :
  behaves strict any_event (is_process_running name).
Proof. unfold is_process_running. behaves. Qed.
Hint Resolve behaves_find_window_by_title behaves_focus_window
  behaves_WindowUtils_minimize_window behaves_WindowUtils_maximize_window
  behaves_is_process_running : behaves.

Lemma behaves_find_spotify_path : behaves strict any_event find_spotify_path.
Proof. unfold find_spotify_path. behaves. Qed.
Hint Resolve behaves_find_spotify_path : behaves.

Lemma behaves_launch_spotify : behaves strict any_event launch_spotify.
Proof. unfold launch_spotify. behaves. Qed.
Hint Resolve behaves_launch_spotify : behaves.

Lemma behaves_monitor_at l i : behaves strict any_event (monitor_at l i).
Proof. unfold monitor_at. behaves. Qed.
Hint Resolve behaves_monitor_at : behaves.

Lemma behaves_set_brightness_all b l s :
  behaves strict any_event (set_brightness_all b l s).
Proof. revert s. induction l as [|m r IH]; intros s; simpl; behaves. Qed.
Hint Resolve behaves_set_brightness_all : behaves.

Lemma behaves_pad_method name m :
  assoc name PadActions_methods = Some m -> behaves strict any_event m.
Proof.
  unfold PadActions_methods. simpl.
  repeat (destruct (String.eqb name _);
          [intros [= <-]; unfold_head; unfold is_spotify_running; behaves|]).
  discriminate.
Qed.

Lemma behaves_handle_action a v : behaves strict any_event (handle_action a v).
Proof.
  unfold handle_action, set_system_volume, set_application_volume,
    set_screen_brightness, relative_zoom, horizontal_scroll, vertical_scroll.
  behaves.
Qed.
End Reachable.

Lemma behaves_dispatch strict (name : string) (fallback : M unit) :
  behaves strict any_event fallback ->
  behaves strict any_event
    (attr <- gets (fun w => PadActions_getattr (env w) name) ;;
     match attr with
     | Some method => call_attribute method
     | None => fallback
     end).
Proof.
  intros Hf w. unfold bind, gets.
  destruct (PadActions_getattr (env w) name) as [a|] eqn:E; [|apply Hf].
  unfold PadActions_getattr in E.
  destruct (assoc name PadActions_methods) as [m|] eqn:Em.
  - injection E as <-. simpl. exact (behaves_pad_method strict name m Em w).
  - destruct a.
    + destruct (String.eqb name "__init__"); [discriminate|].
      destruct (_ || _); [discriminate|].
      destruct (object_attr (env w) name); discriminate.
    + exact (behaves_modify strict any_event _ (fun _ => eq_refl) w).
    + exact (behaves_raise strict any_event "TypeError" w).
    + exact (behaves_call strict any_event (object_attr_call name0) eq_refl w).
Qed.

Lemma behaves_handle_pad_action strict note :
  behaves strict any_event (handle_pad_action note).
Proof.
  unfold handle_pad_action, get_pad_action.
  apply behaves_bind; [behaves|intros action].
  destruct (truthy action); [|behaves].
  apply behaves_try_except; [|intros; behaves].
  apply behaves_bind; [unfold method_name; behaves|intros name].
  apply behaves_dispatch. behaves.
Qed.

Lemma behaves_handle_knob_action strict cc value :
  behaves strict any_event (handle_knob_action cc value).
Proof.
  pose proof (behaves_handle_action strict) as H.
  unfold handle_knob_action, get_knob_action, normalize. behaves.
Qed.

Lemma behaves_process_event strict ev : behaves strict any_event (process_event ev).
Proof.
  unfold process_event.
  destruct (_ && _); [apply behaves_handle_pad_action|].
  destruct (_ =? _); [apply behaves_handle_knob_action|apply behaves_ret].
Qed.

Lemma behaves_monitor_loop fuel : behaves false any_event (monitor_loop fuel).
Proof.
  pose proof (behaves_process_event false) as H.
  induction fuel as [|fuel IH]; simpl; [apply behaves_out_of_fuel|].
  behaves.
Qed.

Lemma behaves_release_midi strict : behaves strict any_event release_midi.
Proof. unfold release_midi. behaves. Qed.

Lemma behaves_start_monitoring fuel : behaves false any_event (start_monitoring fuel).
Proof.
  pose proof (behaves_monitor_loop fuel) as H.
  pose proof (behaves_release_midi false) as H'.
  unfold start_monitoring. behaves.
Qed.

(** * Device initialisation *)

Lemma count_app (p : event -> bool) (t1 t2 : list event) :
  count p (t1 ++ t2) = (count p t1 + count p t2)%nat.
Proof. unfold count. rewrite filter_app, length_app. reflexivity. Qed.

Lemma count_none (p P : event -> bool) (t : list event) :
  (forall e, P e = true -> p e = false) -> forallb P t = true -> count p t = 0%nat.
Proof.
  intros HP. induction t as [|e t IH]; simpl; [reflexivity|].
  intros H. apply andb_true_iff in H. destruct H as [He Ht].
  unfold count in *. rewrite filter_cons. rewrite (HP e He).
  destruct (decide (false = true)); [discriminate|]. apply IH, Ht.
Qed.

Lemma at_most_bind p n1 n2 {A B} (m : M A) (k : A -> M B) :
  at_most p n1 m -> (forall a, at_most p n2 (k a)) -> at_most p (n1 + n2) (bind m k).
Proof.
  intros Hm Hk w. unfold bind. destruct (Hm w) as (t1 & E1 & C1).
  destruct (m w) as [[a|e|] w']; simpl in *.
  - destruct (Hk a w') as (t2 & E2 & C2). exists (t1 ++ t2).
    rewrite E2, E1, <- app_assoc, count_app. split; [reflexivity|lia].
  - exists t1. split; [exact E1|lia].
  - exists t1. split; [exact E1|lia].
Qed.

Lemma at_most_call p {T} (c : ext T) :
  at_most p (if p (Call c) then 1 else 0) (call c).
Proof.
  intros w. exists [Call c]. split.
  - unfold call. destruct (oracle _ _ _ _); reflexivity.
  - unfold count. rewrite filter_cons, filter_nil.
    destruct (p (Call c)); destruct (decide _); simpl; try lia; congruence.
Qed.

Lemma at_most_behaves p P strict {A} (m : M A) :
  (forall e, P e = true -> p e = false) -> behaves strict P m -> at_most p 0 m.
Proof.
  intros HP Hm w. destruct (Hm w) as [(t & E & Ht) _].
  exists t. split; [exact E|]. rewrite (count_none p P t HP Ht). lia.
Qed.

Lemma setup_attempt_one_init : at_most is_midi_init 1 setup_attempt.
Proof.
  assert (HP : forall e, not_init e = true -> is_midi_init e = false).
  { intros e. unfold not_init. destruct (is_midi_init e); [discriminate|reflexivity]. }
  unfold setup_attempt.
  apply (at_most_bind _ 0 1); [apply (at_most_behaves _ not_init true _ HP); behaves|intros mi].
  apply (at_most_bind _ 0 1); [apply (at_most_behaves _ not_init true _ HP); behaves|intros _].
  apply (at_most_bind _ 0 1); [apply (at_most_behaves _ not_init true _ HP); behaves|intros _].
  apply (at_most_bind _ 1 0); [apply (at_most_call is_midi_init midi_init)|intros _].
  apply (at_most_behaves _ not_init true _ HP). unfold connect_if_mpk_mini. behaves.
Qed.

Lemma setup_attempt_no_sleep : behaves true not_sleep setup_attempt.
Proof. unfold setup_attempt, connect_if_mpk_mini. behaves. Qed.

Lemma rolls_back_bind {A B} (m : M A) (k : A -> M B) :
  framed any_event m -> (forall a, rolls_back (k a)) -> rolls_back (bind m k).
Proof.
  intros Hm Hk w. unfold bind. destruct (Hm w) as (_ & t & _ & Hw).
  destruct (m w) as [[a|e|] w']; simpl in *; subst w'.
  - specialize (Hk a (set_trace (trace w ++ t) w)).
    destruct (k a _) as [[b|e|] w'']; simpl in *; trivial.
  - reflexivity.
  - reflexivity.
Qed.

Lemma rolls_back_framed {A} (m : M A) : framed any_event m -> rolls_back m.
Proof.
  intros Hm w. destruct (Hm w) as (_ & t & _ & Hw).
  destruct (m w) as [[a|e|] w']; simpl in *; trivial; subst w'; reflexivity.
Qed.

Lemma for_first_rolls_back {A B} (l : list A) (f : A -> M (option B)) :
  (forall x, rolls_back_unless_found (f x)) -> rolls_back_unless_found (for_first l f).
Proof.
  intros H. induction l as [|x l IH]; intros w; simpl.
  - destruct w; reflexivity.
  - unfold bind. specialize (H x w).
    destruct (f x w) as [[[b|]|e|] w']; simpl in *; trivial.
    specialize (IH w').
    destruct (for_first l f w') as [[[b|]|e|] w'']; simpl in *; trivial;
      rewrite IH, H; reflexivity.
Qed.

Lemma connect_if_mpk_mini_rolls_back (i : Z) :
  rolls_back_unless_found (connect_if_mpk_mini i).
Proof.
  intros w. unfold connect_if_mpk_mini, bind, call.
  destruct (oracle (env w) device_info (trace w) (midi_get_device_info i)) as [info|cls];
    simpl; [|reflexivity].
  destruct (contains "mpk mini" (lower (dev_name info)) && (dev_input info =? 1)).
  - destruct (oracle _ _ _ (midi_Input i)); simpl; [exact I|reflexivity].
  - reflexivity.
Qed.

Lemma setup_attempt_rolls_back : rolls_back setup_attempt.
Proof.
  unfold setup_attempt.
  apply rolls_back_bind; [framed|intros mi].
  apply rolls_back_bind; [framed|intros _].
  apply rolls_back_bind; [framed|intros _].
  apply rolls_back_bind; [framed|intros _].
  apply rolls_back_bind; [framed|intros n].
  apply rolls_back_bind; [framed|intros _].
  apply rolls_back_bind; [framed|intros n1].
  apply rolls_back_bind; [framed|intros _].
  apply rolls_back_bind; [framed|intros n2].
  intros w. unfold bind.
  pose proof (for_first_rolls_back (range n2) _ connect_if_mpk_mini_rolls_back w) as H.
  destruct (for_first (range n2) connect_if_mpk_mini w) as [[[u|]|e|] w'];
    simpl in *; trivial.
Qed.

Lemma retry_handler_run (rc : Z) (e : string) (w : world) :
  retry_handler rc e w =
  let warning := Log WARNING "Failed to initialize MIDI (attempt {}/{}): {}"
                   [AInt (rc + 1); AInt max_retries; AExn e] in
  if rc + 1 <? max_retries then
    let t := [warning; Log INFO "Retrying in 1 second..." []] in
    (if interrupt (env w) (trace w ++ t) then Raise KeyboardInterrupt
     else Ok (Some (rc + 1)),
     set_trace (trace w ++ t ++ [Sleep 1]) w)
  else
    (Ok (Some (rc + 1)),
     set_trace (trace w ++ [warning;
                            Log ERROR "Failed to initialize MIDI after multiple attempts" []]) w).
Proof.
  destruct w as [en t f pm km lg wm mi].
  unfold retry_handler, bind, log, emit, sleep, ret. cbv zeta. simpl.
  destruct (rc + 1 <? max_retries); simpl; rewrite <- ?app_assoc; simpl.
  - destruct (interrupt en _); reflexivity.
  - reflexivity.
Qed.

Lemma loop_returns (fuel : nat) (rc : Z) (w w1 : world) :
  rc < max_retries ->
  setup_attempt w = (Ok tt, w1) ->
  initialize_midi_loop (S fuel) rc w = (Ok tt, w1).
Proof.
  intros Hrc H. apply Z.ltb_lt in Hrc. simpl. rewrite Hrc.
  unfold bind, try_except. rewrite H. reflexivity.
Qed.

Lemma loop_retries (fuel : nat) (rc rc' : Z) (e : string) (w w1 w1' : world) :
  rc < max_retries ->
  setup_attempt w = (Raise (Exc e), w1) ->
  retry_handler rc e w1 = (Ok (Some rc'), w1') ->
  initialize_midi_loop (S fuel) rc w = initialize_midi_loop fuel rc' w1'.
Proof.
  intros Hrc H H'. apply Z.ltb_lt in Hrc. simpl. rewrite Hrc.
  unfold bind, try_except. rewrite H. rewrite H'. reflexivity.
Qed.

Lemma loop_interrupted (fuel : nat) (rc : Z) (e : string) (w w1 w1' : world) :
  rc < max_retries ->
  setup_attempt w = (Raise (Exc e), w1) ->
  retry_handler rc e w1 = (Raise KeyboardInterrupt, w1') ->
  initialize_midi_loop (S fuel) rc w = (Raise KeyboardInterrupt, w1').
Proof.
  intros Hrc H H'. apply Z.ltb_lt in Hrc. simpl. rewrite Hrc.
  unfold bind, try_except. rewrite H. rewrite H'. reflexivity.
Qed.

Lemma loop_done (fuel : nat) (rc : Z) (w : world) :
  max_retries <= rc -> initialize_midi_loop fuel rc w = (Ok tt, w).
Proof.
  intros Hrc. apply Z.ltb_ge in Hrc. destruct fuel; simpl; rewrite Hrc; reflexivity.
Qed.

Lemma setup_attempt_events (w : world) :
  mild (fst (setup_attempt w)) /\
  exists t, trace (snd (setup_attempt w)) = trace w ++ t /\ retry_events 1 0 t.
Proof.
  destruct (setup_attempt_no_sleep w) as [(t & E & Ht) Hm].
  split; [apply Hm; reflexivity|].
  exists t. split; [exact E|].
  destruct (setup_attempt_one_init w) as (t' & E' & Hc).
  rewrite E in E'. apply app_inv_head in E'. subst t'.
  split; [exact Hc|]. split.
  - rewrite (count_none is_Sleep not_sleep t); [lia| |exact Ht].
    intros e. unfold not_sleep. destruct (is_Sleep e); [discriminate|reflexivity].
  - clear -Ht. induction t as [|e t IH]; [reflexivity|]. simpl in *.
    apply andb_true_iff in Ht. destruct Ht as [He Ht]. rewrite (IH Ht), andb_true_r.
    destruct e; try reflexivity. discriminate.
Qed.

Lemma retry_events_app (n1 s1 n2 s2 : nat) (t1 t2 : list event) :
  retry_events n1 s1 t1 -> retry_events n2 s2 t2 ->
  retry_events (n1 + n2) (s1 + s2) (t1 ++ t2).
Proof.
  intros (A1 & B1 & C1) (A2 & B2 & C2). unfold retry_events.
  rewrite !count_app, forallb_app, C1, C2. repeat split; lia.
Qed.

Lemma retry_events_weaken (n s n' s' : nat) (t : list event) :
  retry_events n s t -> (n <= n')%nat -> (s <= s')%nat -> retry_events n' s' t.
Proof. intros (A & B & C) Hn Hs. repeat split; [lia|lia|exact C]. Qed.

Lemma retry_events_nil (n s : nat) : retry_events n s [].
Proof. repeat split; [apply Nat.le_0_l|apply Nat.le_0_l]. Qed.

Lemma initialize_midi_loop_spec (fuel : nat) :
  forall (rc : Z) (w : world),
    0 <= rc <= max_retries ->
    (Z.to_nat (max_retries - rc) <= fuel)%nat ->
    (fst (initialize_midi_loop fuel rc w) = Ok tt \/
     fst (initialize_midi_loop fuel rc w) = Raise KeyboardInterrupt) /\
    exists t,
      trace (snd (initialize_midi_loop fuel rc w)) = trace w ++ t /\
      retry_events (Z.to_nat (max_retries - rc)) (Z.to_nat (max_retries - 1 - rc)) t.
Proof.
  unfold max_retries.
  induction fuel as [|fuel IH]; intros rc w Hrc Hf.
  - rewrite loop_done by (unfold max_retries; lia).
    split; [left; reflexivity|]. exists []. rewrite app_nil_r.
    split; [reflexivity|]. apply retry_events_nil.
  - destruct (Z_lt_ge_dec rc 3) as [Hlt|Hge].
    2:{ rewrite loop_done by (unfold max_retries; lia).
        split; [left; reflexivity|]. exists []. rewrite app_nil_r.
        split; [reflexivity|]. apply retry_events_nil. }
    destruct (setup_attempt_events w) as (Hm & t1 & E1 & Ht1).
    destruct (setup_attempt w) as [[[]|[|cls]|] w1] eqn:Ea; simpl in Hm, E1;
      try destruct Hm.
    + rewrite (loop_returns fuel rc w w1 Hlt Ea). simpl.
      split; [left; reflexivity|]. exists t1. split; [exact E1|].
      apply (retry_events_weaken _ _ _ _ _ Ht1); lia.
    + pose proof (retry_handler_run rc cls w1) as Hh. cbv zeta in Hh.
      unfold max_retries in Hh.
      destruct (rc + 1 <? 3) eqn:Hnext.
      * apply Z.ltb_lt in Hnext.
        destruct (interrupt (env w1) _).
        -- rewrite (loop_interrupted fuel rc cls w w1 _ Hlt Ea Hh). simpl.
           split; [right; reflexivity|]. eexists. rewrite E1, <- app_assoc.
           split; [reflexivity|].
           apply (retry_events_weaken (1 + 0) (0 + 1)); [|lia|lia].
           apply retry_events_app; [exact Ht1|].
           repeat split; vm_compute; first [reflexivity|lia].
        -- rewrite (loop_retries fuel rc (rc + 1) cls w w1 _ Hlt Ea Hh).
           match goal with |- context [initialize_midi_loop fuel (rc + 1) ?w2] =>
             destruct (IH (rc + 1) w2 ltac:(lia) ltac:(lia)) as (Ho & t2 & E2 & Ht2)
           end.
           split; [exact Ho|]. eexists. rewrite E2. simpl trace.
           rewrite E1, <- !app_assoc. split; [reflexivity|].
           apply (retry_events_weaken (1 + (0 + Z.to_nat (3 - (rc + 1))))
                    (0 + (1 + Z.to_nat (3 - 1 - (rc + 1))))); [|lia|lia].
           apply retry_events_app; [exact Ht1|].
           apply retry_events_app; [|exact Ht2].
           repeat split; vm_compute; first [reflexivity|lia].
      * apply Z.ltb_ge in Hnext.
        rewrite (loop_retries fuel rc (rc + 1) cls w w1 _ Hlt Ea Hh).
        rewrite loop_done by (unfold max_retries; lia). simpl.
        split; [left; reflexivity|]. eexists. rewrite E1, <- app_assoc.
        split; [reflexivity|].
        apply (retry_events_weaken (1 + 0) (0 + 0)); [|lia|lia].
        apply retry_events_app; [exact Ht1|].
        repeat split; vm_compute; first [reflexivity|lia].
Qed.

Lemma try_except2_extends P {A} (m h1 : M A) (h2 : string -> M A) (w w0 : world) :
  emits P w0 (snd (m w)) ->
  behaves false P h1 -> (forall cls, behaves false P (h2 cls)) ->
  emits P w0 (snd (try_except2 m h1 h2 w)).
Proof.
  intros He H1 H2. unfold try_except2.
  destruct (m w) as [[a|[|cls]|] w']; simpl in *; trivial.
  - exact (emits_trans _ _ _ _ He (proj1 (H1 w'))).
  - exact (emits_trans _ _ _ _ He (proj1 (H2 cls w'))).
Qed.

Lemma try_finally_extends P {A} (m : M A) (f : M unit) (w w0 : world) :
  emits P w0 (snd (m w)) -> behaves false P f ->
  emits P w0 (snd (try_finally m f w)).
Proof.
  intros He Hf. unfold try_finally.
  destruct (m w) as [[a|e|] w']; simpl in *; trivial;
    pose proof (proj1 (Hf w')) as He';
    destruct (f w') as [[u|e'|] w'']; simpl in *;
    exact (emits_trans _ _ _ _ He He').
Qed.

Lemma monitor_loop_polls (fuel : nat) (w : world) (h : Z) :
  midi_input w = Some h ->
  emits any_event (set_trace (trace w ++ [Call (Input_poll h)]) w)
    (snd (monitor_loop (S fuel) w)).
Proof.
  intros H. simpl. unfold bind at 1, gets. rewrite H.
  unfold bind at 1, call at 1.
  destruct (oracle (env w) bool (trace w) (Input_poll h)) as [pending|cls]; simpl.
  - match goal with |- emits _ ?w1 (snd (?k ?w1')) =>
      assert (Hk : behaves false any_event k)
    end.
    { pose proof (behaves_process_event false) as Hp.
      pose proof (behaves_monitor_loop fuel) as Hl. behaves. }
    apply Hk.
  - apply emits_refl.
Qed.

Lemma start_monitoring_polls (fuel : nat) (w : world) (h : Z) :
  midi_input w = Some h ->
  exists t, trace (snd (start_monitoring (S fuel) w))
            = trace w ++ Log INFO "Started monitoring MIDI input" []
                      :: Call (Input_poll h) :: t.
Proof.
  intros H.
  set (w1 := set_trace (trace w ++ [Log INFO "Started monitoring MIDI input" []]) w).
  assert (E0 : start_monitoring (S fuel) w =
               try_finally
                 (try_except2 (monitor_loop (S fuel))
                    (log INFO "Stopping MIDI monitoring" [])
                    (fun e => log ERROR "Error in MIDI monitoring: {}" [AExn e]))
                 release_midi w1).
  { unfold start_monitoring. unfold bind at 1, gets. rewrite H. reflexivity. }
  assert (H1 : midi_input w1 = Some h) by exact H.
  pose proof (monitor_loop_polls fuel w1 h H1) as He.
  apply (try_except2_extends any_event _
           (log INFO "Stopping MIDI monitoring" [])
           (fun e => log ERROR "Error in MIDI monitoring: {}" [AExn e])) in He;
    [|behaves|intros; behaves].
  apply (try_finally_extends any_event _ release_midi) in He;
    [|apply behaves_release_midi].
  destruct He as (t & E & _). exists t. rewrite E0, E. simpl.
  rewrite <- !app_assoc. reflexivity.
Qed.

Lemma start_monitoring_idle (fuel : nat) (w : world) :
  midi_input w = None ->
  start_monitoring fuel w =
  (Ok tt, set_trace (trace w ++ [Log ERROR "No MIDI input device available" []]) w).
Proof. intros H. unfold start_monitoring, bind, gets. rewrite H. reflexivity. Qed.

Lemma setup_attempt_failed_input (w w1 : world) (e : exn) :
  setup_attempt w = (Raise e, w1) -> midi_input w1 = midi_input w.
Proof.
  intros H. pose proof (setup_attempt_rolls_back w) as Hr. rewrite H in Hr.
  simpl in Hr. rewrite Hr. reflexivity.
Qed.

(** * Shutdown *)

(** C9 (the code at the failing input): with a library whose [close]
    raises once the library has been shut down, a controller that is
    connected and then interrupted while polling leaves
    [start_monitoring] normally, and the [cleanup] that follows raises
    [RuntimeError]; so does a second [cleanup] after a first one, and so
    do both entry points. *)
Theorem cleanup_after_shutdown_raises :
  let w0 := initial_world pygame_env Absent in
  let w1 := snd (AkaiMPKMiniAutomation_init w0) in
  let w2 := snd (start_monitoring 5 w1) in
  fst (AkaiMPKMiniAutomation_init w0) = Ok tt /\
  midi_input w1 = Some 7 /\
  fst (start_monitoring 5 w1) = Ok tt /\
  fst (cleanup w2) = Raise (Exc "RuntimeError") /\
  fst (cleanup w1) = Ok tt /\
  fst (cleanup (snd (cleanup w1))) = Raise (Exc "RuntimeError") /\
  fst (main_py 5 w0) = Raise (Exc "RuntimeError") /\
  fst (main 5 w0) = Raise (Exc "RuntimeError").
Proof. repeat split; vm_compute; reflexivity. Qed.

(** * Entry points *)

(** C10: when constructing the controller raises [e], both entry
    points report [e] as their handlers do and then raise
    [UnboundLocalError] (a [NameError]) from their [finally]; nothing
    else is added to the trace, so [cleanup] never runs. *)
Theorem failed_construction_leaves_local_unbound
    (fuel : nat) (w w1 : world) (e : exn) :
  AkaiMPKMiniAutomation_init w = (Raise e, w1) ->
  main_py fuel w =
  (Raise (Exc "UnboundLocalError"), set_trace (trace w1 ++ main_py_report e) w1) /\
  main fuel w =
  (Raise (Exc "UnboundLocalError"), set_trace (trace w1 ++ main_report e) w1).
Proof.
  intros H. unfold main_py, main. rewrite H.
  destruct w1 as [en t f pm km lg wm mi].
  destruct e as [|cls]; unfold try_finally, try_except2, try_except, local_cleanup,
    raise, emit, set_trace; simpl; rewrite ?app_nil_r; split; reflexivity.
Qed.

Lemma failed_construction_leaves_local_unbound_witness :
  let w := initial_world no_logs_env Absent in
  fst (AkaiMPKMiniAutomation_init w) = Raise (Exc "PermissionError") /\
  fst (main_py 5 w) = Raise (Exc "UnboundLocalError") /\
  trace (snd (main_py 5 w)) =
  [Call (os_path_exists "logs"); Call (os_makedirs "logs");
   Print "Error: {}" [AExn "PermissionError"]] /\
  fst (main 5 w) = Raise (Exc "UnboundLocalError").
Proof.
  pose (w := initial_world no_logs_env Absent).
  destruct (failed_construction_leaves_local_unbound 5 w
              (snd (AkaiMPKMiniAutomation_init w)) (Exc "PermissionError"))
    as [E1 E2]; [vm_compute; reflexivity|].
  cbv zeta. fold w. rewrite E1, E2.
  repeat split; vm_compute; reflexivity.
Defined.

(** * Invariants of the controller object *)

Section Keeps.
Variable I : invariant.

Lemma keeps_ret {A} (a : A) : keeps I (ret a).
Proof. intros w. apply rel_refl. Qed.

Lemma keeps_raise {A} (e : exn) : keeps I (@raise A e).
Proof. intros w. apply rel_refl. Qed.

Lemma keeps_out_of_fuel {A} : keeps I (fun w => (@OutOfFuel A, w)).
Proof. intros w. apply rel_refl. Qed.

Lemma keeps_gets {A} (f : world -> A) : keeps I (gets f).
Proof. intros w. apply rel_refl. Qed.

Lemma keeps_modify (f : world -> world) : (forall w, I w (f w)) -> keeps I (modify f).
Proof. intros H w. apply H. Qed.

Lemma keeps_emit (e : event) : keeps I (emit e).
Proof. intros w. apply rel_event. Qed.

Lemma keeps_log lvl fmt args : keeps I (log lvl fmt args).
Proof. apply keeps_emit. Qed.

Lemma keeps_enter c : keeps I (enter c).
Proof. apply keeps_emit. Qed.

Lemma keeps_call {T} (c : ext T) : keeps I (call c).
Proof.
  intros w. unfold call. destruct (oracle (env w) T (trace w) c); apply rel_event.
Qed.

Lemma keeps_sleep (s : float) : keeps I (sleep s).
Proof.
  intros w. unfold sleep. destruct (interrupt (env w) (trace w)); apply rel_event.
Qed.

Lemma keeps_bind {A B} (m : M A) (k : A -> M B) :
  keeps I m -> (forall a, keeps I (k a)) -> keeps I (bind m k).
Proof.
  intros Hm Hk w. unfold bind. specialize (Hm w).
  destruct (m w) as [[a|e|] w']; simpl in *; try exact Hm.
  exact (rel_trans I _ _ _ Hm (Hk a w')).
Qed.

Lemma keeps_try_except {A} (m : M A) (h : string -> M A) :
  keeps I m -> (forall cls, keeps I (h cls)) -> keeps I (try_except m h).
Proof.
  intros Hm Hh w. unfold try_except. specialize (Hm w).
  destruct (m w) as [[a|[|cls]|] w']; simpl in *; try exact Hm.
  exact (rel_trans I _ _ _ Hm (Hh cls w')).
Qed.

Lemma keeps_try_except2 {A} (m h1 : M A) (h2 : string -> M A) :
  keeps I m -> keeps I h1 -> (forall cls, keeps I (h2 cls)) ->
  keeps I (try_except2 m h1 h2).
Proof.
  intros Hm H1 H2 w. unfold try_except2. specialize (Hm w).
  destruct (m w) as [[a|[|cls]|] w']; simpl in *; try exact Hm.
  - exact (rel_trans I _ _ _ Hm (H1 w')).
  - exact (rel_trans I _ _ _ Hm (H2 cls w')).
Qed.

Lemma keeps_try_except_all {A} (m h : M A) :
  keeps I m -> keeps I h -> keeps I (try_except_all m h).
Proof.
  intros Hm Hh w. unfold try_except_all. specialize (Hm w).
  destruct (m w) as [[a|e|] w']; simpl in *; try exact Hm.
  exact (rel_trans I _ _ _ Hm (Hh w')).
Qed.

Lemma keeps_try_finally {A} (m : M A) (f : M unit) :
  keeps I m -> keeps I f -> keeps I (try_finally m f).
Proof.
  intros Hm Hf w. unfold try_finally. specialize (Hm w).
  destruct (m w) as [[a|e|] w']; simpl in *; try exact Hm;
    specialize (Hf w'); destruct (f w') as [[u|e'|] w'']; simpl in *;
    exact (rel_trans I _ _ _ Hm Hf).
Qed.

Lemma keeps_when (b : bool) (m : M unit) : keeps I m -> keeps I (when b m).
Proof. intros H. destruct b; [exact H|apply keeps_ret]. Qed.

Lemma keeps_for_each {A} (l : list A) (f : A -> M unit) :
  (forall x, keeps I (f x)) -> keeps I (for_each l f).
Proof.
  intros H. induction l as [|x r IH]; simpl; [apply keeps_ret|].
  apply keeps_bind; [apply H|intros _; exact IH].
Qed.

Lemma keeps_for_first {A B} (l : list A) (f : A -> M (option B)) :
  (forall x, keeps I (f x)) -> keeps I (for_first l f).
Proof.
  intros H. induction l as [|x r IH]; simpl; [apply keeps_ret|].
  apply keeps_bind; [apply H|intros [b|]; [apply keeps_ret|exact IH]].
Qed.

Lemma keeps_py_int (f : float) : keeps I (py_int f).
Proof. unfold py_int. destruct (int_of_float f); [apply keeps_raise|apply keeps_ret]. Qed.

Lemma keeps_py_get v k d : keeps I (py_get v k d).
Proof. destruct v; simpl; first [apply keeps_raise|apply keeps_ret]. Qed.

Lemma keeps_py_setitem v k x : keeps I (py_setitem v k x).
Proof. destruct v; simpl; first [apply keeps_raise|apply keeps_ret]. Qed.
End Keeps.

Create HintDb keeps.

Ltac keeps_step :=
  lazymatch goal with
  | |- keeps _ (ret _) => apply keeps_ret
  | |- keeps _ (raise _) => apply keeps_raise
  | |- keeps _ (gets _) => apply keeps_gets
  | |- keeps _ (modify _) =>
      apply keeps_modify; let w := fresh "w" in intros w; destruct w; reflexivity
  | |- keeps _ (py_int _) => apply keeps_py_int
  | |- keeps _ (py_get _ _ _) => apply keeps_py_get
  | |- keeps _ (py_setitem _ _ _) => apply keeps_py_setitem
  | |- keeps _ (log _ _ _) => apply keeps_log
  | |- keeps _ (enter _) => apply keeps_enter
  | |- keeps _ (emit _) => apply keeps_emit
  | |- keeps _ (call _) => apply keeps_call
  | |- keeps _ (sleep _) => apply keeps_sleep
  | |- keeps _ (when _ _) => apply keeps_when
  | |- keeps _ (for_each _ _) => apply keeps_for_each; intros
  | |- keeps _ (for_first _ _) => apply keeps_for_first; intros
  | |- keeps _ (try_except _ _) => apply keeps_try_except; [|intros]
  | |- keeps _ (try_except2 _ _ _) => apply keeps_try_except2; [| |intros]
  | |- keeps _ (try_except_all _ _) => apply keeps_try_except_all
  | |- keeps _ (try_finally _ _) => apply keeps_try_finally
  | |- keeps _ (bind _ _) => apply keeps_bind; [|intros]
  | |- keeps _ (match ?x with _ => _ end) => destruct x
  | |- keeps _ _ => solve [auto with keeps]
  end.
Ltac keeps := repeat keeps_step.

Ltac unfold_kept :=
  lazymatch goal with |- keeps _ ?m => let h := head_of m in unfold h end.

Section Kept.
Variable I : invariant.

Lemma keeps_enum_callback title hwnds windows :
  keeps I (enum_callback title hwnds windows).
Proof.
  revert windows. induction hwnds as [|hwnd r IH]; intros windows; simpl; keeps.
Qed.
Hint Resolve keeps_enum_callback : keeps.

Lemma keeps_find_window_by_title title : keeps I (find_window_by_title title).
Proof. unfold find_window_by_title. keeps. Qed.

Lemma keeps_focus_window hwnd : keeps I (focus_window hwnd).
Proof. unfold focus_window. keeps. Qed.

Lemma keeps_WindowUtils_minimize_window hwnd : keeps I (WindowUtils_minimize_window hwnd).
Proof. unfold WindowUtils_minimize_window. keeps. Qed.

Lemma keeps_WindowUtils_maximize_window hwnd : keeps I (WindowUtils_maximize_window hwnd).
Proof. unfold WindowUtils_maximize_window. keeps. Qed.

Lemma keeps_is_process_running name : keeps I (is_process_running name).
Proof. unfold is_process_running. keeps. Qed.
Hint Resolve keeps_find_window_by_title keeps_focus_window
  keeps_WindowUtils_minimize_window keeps_WindowUtils_maximize_window
  keeps_is_process_running : keeps.

Lemma keeps_find_spotify_path : keeps I find_spotify_path.
Proof. unfold find_spotify_path. keeps. Qed.
Hint Resolve keeps_find_spotify_path : keeps.

Lemma keeps_launch_spotify : keeps I launch_spotify.
Proof. unfold launch_spotify. keeps. Qed.
Hint Resolve keeps_launch_spotify : keeps.

Lemma keeps_monitor_at l i : keeps I (monitor_at l i).
Proof. unfold monitor_at. keeps. Qed.
Hint Resolve keeps_monitor_at : keeps.

Lemma keeps_set_brightness_all b l s : keeps I (set_brightness_all b l s).
Proof. revert s. induction l as [|m r IH]; intros s; simpl; keeps. Qed.
Hint Resolve keeps_set_brightness_all : keeps.

Lemma keeps_pad_method name m :
  assoc name PadActions_methods = Some m -> keeps I m.
Proof.
  unfold PadActions_methods. simpl.
  repeat (destruct (String.eqb name _);
          [intros [= <-]; unfold_kept; unfold is_spotify_running; keeps|]).
  discriminate.
Qed.

Lemma keeps_handle_action a v : keeps I (handle_action a v).
Proof.
  unfold handle_action, set_system_volume, set_application_volume,
    set_screen_brightness, relative_zoom, horizontal_scroll, vertical_scroll.
  keeps.
Qed.

Lemma keeps_call_attribute_other e name a :
  name <> "__init__" ->
  PadActions_getattr e name = Some a -> keeps I (call_attribute a).
Proof.
  intros Hn. unfold PadActions_getattr.
  destruct (assoc name PadActions_methods) as [m|] eqn:Em.
  - intros [= <-]. exact (keeps_pad_method name m Em).
  - destruct (String.eqb_spec name "__init__"); [contradiction|].
    destruct (_ || _); [intros [= <-]; simpl; keeps|].
    destruct (object_attr e name); [intros [= <-]; simpl; keeps|discriminate].
Qed.

Lemma get_pad_action_world (k : string) (w : world) : snd (get_pad_action k w) = w.
Proof. unfold get_pad_action, bind, gets. destruct (pad_mappings w); reflexivity. Qed.

Lemma keeps_handle_pad_action_other (note : Z) (w : world) :
  (forall s, fst (get_pad_action (str_of_Z note) w) = Ok (PStr s) ->
             attribute_name s <> "__init__") ->
  I w (snd (handle_pad_action note w)).
Proof.
  intros Hn. unfold handle_pad_action, bind at 1.
  pose proof (get_pad_action_world (str_of_Z note) w) as Hw.
  destruct (get_pad_action (str_of_Z note) w) as [[action|e|] w1]; simpl in Hw, Hn;
    subst w1; try apply rel_refl.
  destruct (truthy action); [|apply rel_refl].
  destruct action as [|b|z|f|s|l|d];
    try (unfold try_except, method_name, bind, raise; simpl; apply rel_event).
  specialize (Hn s eq_refl).
  unfold try_except, method_name, bind, ret, gets.
  change (replace " " "_" (replace "/" "_" (lower s))) with (attribute_name s).
  destruct (PadActions_getattr (env w) (attribute_name s)) as [a|] eqn:E.
  - pose proof (keeps_call_attribute_other _ _ _ Hn E w) as Hk.
    destruct (call_attribute a w) as [[u|[|cls]|] w1]; simpl in *; try exact Hk.
    exact (rel_trans I _ _ _ Hk (rel_event I w1 _)).
  - apply rel_event.
Qed.

Lemma keeps_handle_knob_action cc value : keeps I (handle_knob_action cc value).
Proof.
  pose proof keeps_handle_action as H.
  unfold handle_knob_action, get_knob_action, normalize. keeps.
Qed.

Lemma keeps_release_midi : keeps I release_midi.
Proof. unfold release_midi. keeps. Qed.

Lemma keeps_cleanup : keeps I cleanup.
Proof. pose proof keeps_release_midi as H. unfold cleanup. keeps. Qed.

Section Pads.
Hypothesis keeps_pads : forall note, keeps I (handle_pad_action note).

Lemma keeps_process_event_if ev : keeps I (process_event ev).
Proof.
  unfold process_event.
  destruct (_ && _); [apply keeps_pads|].
  destruct (_ =? _); [apply keeps_handle_knob_action|apply keeps_ret].
Qed.

Lemma keeps_monitor_loop_if fuel : keeps I (monitor_loop fuel).
Proof.
  pose proof keeps_process_event_if as H.
  induction fuel as [|fuel IH]; simpl; [apply keeps_out_of_fuel|].
  keeps.
Qed.

Lemma keeps_start_monitoring_if fuel : keeps I (start_monitoring fuel).
Proof.
  pose proof (keeps_monitor_loop_if fuel) as H.
  pose proof keeps_release_midi as H'.
  unfold start_monitoring. keeps.
Qed.
End Pads.

Section Free.
Hypothesis logger_free_I : logger_free I.

Lemma keeps_call_attribute e name a :
  PadActions_getattr e name = Some a -> keeps I (call_attribute a).
Proof.
  unfold PadActions_getattr.
  destruct (assoc name PadActions_methods) as [m|] eqn:Em.
  - intros [= <-]. exact (keeps_pad_method name m Em).
  - destruct a as [m| | |attr]; simpl;
      [|intros _; apply keeps_modify; intros w; apply logger_free_I
       |intros _; keeps..].
    destruct (String.eqb name "__init__"); [discriminate|].
    destruct (_ || _); [discriminate|].
    destruct (object_attr e name); discriminate.
Qed.

Lemma keeps_handle_pad_action note : keeps I (handle_pad_action note).
Proof.
  unfold handle_pad_action, get_pad_action.
  apply keeps_bind; [keeps|intros action].
  destruct (truthy action); [|keeps].
  apply keeps_try_except; [|intros; keeps].
  apply keeps_bind; [unfold method_name; keeps|intros name].
  intros w. unfold bind, gets.
  destruct (PadActions_getattr (env w) name) as [a|] eqn:E.
  - exact (keeps_call_attribute _ _ _ E w).
  - apply keeps_log.
Qed.

Lemma keeps_process_event ev : keeps I (process_event ev).
Proof. apply keeps_process_event_if, keeps_handle_pad_action. Qed.

Lemma keeps_monitor_loop fuel : keeps I (monitor_loop fuel).
Proof. apply keeps_monitor_loop_if, keeps_handle_pad_action. Qed.

Lemma keeps_start_monitoring fuel : keeps I (start_monitoring fuel).
Proof. apply keeps_start_monitoring_if, keeps_handle_pad_action. Qed.
End Free.
End Kept.

Lemma keeps_pads_unless_reset (note : Z) :
  keeps Only_trace_unless_reset (handle_pad_action note).
Proof.
  intros w. split.
  - apply (keeps_handle_pad_action Only_trace_and_logger). intros [] l. reflexivity.
  - intros Hn.
    assert (Ho : only_trace w (snd (handle_pad_action note w))).
    { apply (keeps_handle_pad_action_other Only_trace). intros s0 Hs.
      unfold get_pad_action, bind, gets in Hs.
      destruct (pad_mappings w) as [| | | | | |m] eqn:Em; try discriminate.
      simpl in Hs. destruct (m !! str_of_Z note) as [v|] eqn:Ek; [|discriminate].
      injection Hs as ->. exact (Hn m _ s0 Em Ek). }
    unfold only_trace in Ho. rewrite Ho. reflexivity.
Qed.

Lemma default_pads_no_initializer (w : world) :
  pad_mappings w = default_pad_mappings -> no_initializer_mapped w.
Proof.
  intros Hd m k s Hm Hk. rewrite Hd in Hm. injection Hm as <-.
  apply elem_of_map_to_list in Hk.
  revert Hk.
  match goal with |- (_ ∈ ?l) -> _ => let l' := eval vm_compute in l in change l with l' end.
  intros Hk.
  repeat (apply elem_of_cons in Hk; destruct Hk as [[= -> ->]|Hk]; [vm_compute; discriminate|]).
  apply elem_of_nil in Hk. destruct Hk.
Qed.

Lemma logger_free_Same_env : logger_free Same_env.
Proof. intros w l. reflexivity. Qed.

Lemma logger_free_Only_trace_and_logger : logger_free Only_trace_and_logger.
Proof. intros [] l. reflexivity. Qed.

Lemma keeps_save_config : keeps Same_env save_config.
Proof. unfold save_config. keeps. Qed.

Lemma keeps_load_config : keeps Same_env load_config.
Proof.
  pose proof keeps_save_config as H.
  unfold load_config, create_default_config, json_load. keeps.
  intros w. destruct (config_file w); reflexivity.
Qed.

Lemma keeps_Config_init : keeps Same_env Config_init.
Proof. pose proof keeps_load_config as H. unfold Config_init. keeps. Qed.

Lemma keeps_KnobActions_init : keeps Same_env KnobActions_init.
Proof. unfold KnobActions_init. keeps. Qed.

Lemma keeps_setup_logging (I : invariant) : keeps I setup_logging.
Proof. unfold setup_logging. keeps. Qed.

Lemma keeps_setup_attempt : keeps Only_trace_and_input setup_attempt.
Proof. unfold setup_attempt, connect_if_mpk_mini. keeps. Qed.

Lemma keeps_retry_handler rc e : keeps Only_trace_and_input (retry_handler rc e).
Proof. unfold retry_handler. keeps. Qed.

Lemma keeps_initialize_midi_loop fuel :
  forall rc, keeps Only_trace_and_input (initialize_midi_loop fuel rc).
Proof.
  pose proof keeps_setup_attempt as Ha. pose proof keeps_retry_handler as Hh.
  induction fuel as [|fuel IH]; intros rc; simpl.
  - destruct (_ <? _); [apply keeps_out_of_fuel|apply keeps_ret].
  - destruct (_ <? _); [|apply keeps_ret]. keeps.
Qed.

Lemma keeps_initialize_midi : keeps Only_trace_and_input initialize_midi.
Proof. apply keeps_initialize_midi_loop. Qed.

(** * More on the configuration store *)

Lemma to_int_nonnil (z : Z) :
  Z.to_int z <> Decimal.Pos Decimal.Nil /\ Z.to_int z <> Decimal.Neg Decimal.Nil.
Proof.
  destruct z as [|p|p]; simpl; split; try discriminate;
    intros [= H]; exact (DecimalPos.Unsigned.to_uint_nonnil p H).
Qed.

(** [str] is injective on [int]. *)
Lemma str_of_Z_inj (a b : Z) : str_of_Z a = str_of_Z b -> a = b.
Proof.
  unfold str_of_Z. intros H.
  apply (f_equal NilZero.int_of_string) in H.
  rewrite !NilZero.isi in H by apply to_int_nonnil.
  injection H as H. exact (DecimalZ.to_int_inj _ _ H).
Qed.

Lemma update_knob_mapping_run (w : world) (m : gmap string PyVal) (k A : string)
    (lo hi : Z) :
  knob_mappings w = PDict m ->
  update_knob_mapping k A lo hi w =
  save_config (set_knob_mappings (PDict (<[k := knob_record (PStr A) lo hi]> m)) w).
Proof.
  intros H. unfold update_knob_mapping, bind, gets. rewrite H. reflexivity.
Qed.

Lemma knob_record_action (a : PyVal) (lo hi : Z) (m : gmap string PyVal) :
  knob_record a lo hi = PDict m -> lookup_or m "action" PNone = a.
Proof.
  unfold knob_record. intros [= <-]. unfold lookup_or.
  rewrite lookup_insert_eq. reflexivity.
Qed.

Lemma get_knob_action_record (w : world) (m : gmap string PyVal) (k : string)
    (a : PyVal) (lo hi : Z) :
  knob_mappings w = PDict m ->
  m !! k = Some (knob_record a lo hi) ->
  get_knob_action k w = (Ok a, w).
Proof.
  intros Hm Hk. rewrite (get_knob_action_run _ _ _ Hm). unfold lookup_or.
  rewrite Hk. cbv zeta. unfold knob_record at 1.
  change (truthy (knob_record a lo hi)) with true. cbv iota.
  rewrite lookup_insert_eq. reflexivity.
Qed.

(** X1: once [update_knob_mapping c A lo hi] has run on a dictionary of
    knob mappings it returns normally and [get_knob_action c] gives [A]
    (the empty name included); the pad mappings are untouched; and when
    the file can be written the record has reached the file: whatever the
    two tables hold in memory when [load_config] runs, the lookup gives
    [A] after the load. *)
Theorem knob_mapping_round_trip (w : world) (m : gmap string PyVal) (c : Z)
    (A : string) (lo hi : Z) :
  knob_mappings w = PDict m ->
  let key := str_of_Z c in
  let w1 := snd (update_knob_mapping key A lo hi w) in
  fst (update_knob_mapping key A lo hi w) = Ok tt /\
  get_knob_action key w1 = (Ok (PStr A), w1) /\
  pad_mappings w1 = pad_mappings w /\
  (write_succeeds w ->
   forall pm km : PyVal,
     let w2 := snd (load_config (set_knob_mappings km (set_pad_mappings pm w1))) in
     fst (load_config (set_knob_mappings km (set_pad_mappings pm w1))) = Ok tt /\
     get_knob_action key w2 = (Ok (PStr A), w2)).
Proof.
  intros Hm key w1.
  pose proof (update_knob_mapping_run w m key A lo hi Hm) as Hrun.
  set (wu := set_knob_mappings (PDict (<[key := knob_record (PStr A) lo hi]> m)) w) in *.
  destruct (save_config_memory wu) as (Hp & Hk & _).
  assert (Hkm1 : knob_mappings w1 = PDict (<[key := knob_record (PStr A) lo hi]> m)).
  { subst w1. rewrite Hrun, Hk. reflexivity. }
  assert (Hget : forall w', knob_mappings w' = PDict (<[key := knob_record (PStr A) lo hi]> m) ->
                            get_knob_action key w' = (Ok (PStr A), w')).
  { intros w' H'. apply (get_knob_action_record w' _ key (PStr A) lo hi H').
    apply lookup_insert_eq. }
  split; [rewrite Hrun; apply save_config_returns|].
  split; [apply Hget, Hkm1|].
  split; [subst w1; rewrite Hrun, Hp; reflexivity|].
  intros Hw pm km. cbv zeta.
  assert (Hpers : persisted w1).
  { subst w1. rewrite Hrun. apply save_config_persists. exact Hw. }
  assert (Hf : config_file (set_knob_mappings km (set_pad_mappings pm w1))
               = Document (config_document w1)) by exact Hpers.
  rewrite (load_config_reads _ w1 Hf). split; [reflexivity|].
  apply Hget. exact Hkm1.
Qed.

Lemma knob_mapping_round_trip_witness :
  let w := default_world quiet_env in
  let w1 := snd (update_knob_mapping (str_of_Z 20) "Relative Zoom" 1 127 w) in
  let w2 := snd (load_config (set_knob_mappings PNone (set_pad_mappings PNone w1))) in
  get_knob_action (str_of_Z 20) w = (Ok PNone, w) /\
  get_knob_action (str_of_Z 20) w1 = (Ok (PStr "Relative Zoom"), w1) /\
  get_knob_action (str_of_Z 20) w2 = (Ok (PStr "Relative Zoom"), w2).
Proof.
  destruct (knob_mapping_round_trip (default_world quiet_env) _ 20
              "Relative Zoom" 1 127 eq_refl) as (_ & H1 & _ & H2).
  split; [reflexivity|]. split; [exact H1|].
  apply (H2 ltac:(split; reflexivity) PNone PNone).
Defined.

(** X2: an update is local: [update_pad_mapping n A] changes what
    [get_pad_action] gives for no other note, and [update_knob_mapping c
    A lo hi] what [get_knob_action] gives for no other control number;
    neither touches the other table or the device handle. *)
Theorem mapping_updates_are_local (w : world) (pm km : gmap string PyVal) :
  pad_mappings w = PDict pm ->
  knob_mappings w = PDict km ->
  (forall (n n' : Z) (A : string),
     n' <> n ->
     let w1 := snd (update_pad_mapping (str_of_Z n) A w) in
     fst (get_pad_action (str_of_Z n') w1) = fst (get_pad_action (str_of_Z n') w) /\
     knob_mappings w1 = knob_mappings w /\ midi_input w1 = midi_input w) /\
  (forall (c c' : Z) (A : string) (lo hi : Z),
     c' <> c ->
     let w1 := snd (update_knob_mapping (str_of_Z c) A lo hi w) in
     fst (get_knob_action (str_of_Z c') w1) = fst (get_knob_action (str_of_Z c') w) /\
     pad_mappings w1 = pad_mappings w /\ midi_input w1 = midi_input w).
Proof.
  intros Hpm Hkm. split.
  - intros n n' A Hn w1. subst w1.
    rewrite (update_pad_mapping_run w pm _ A Hpm).
    set (wu := set_pad_mappings (PDict (<[str_of_Z n := PStr A]> pm)) w).
    destruct (save_config_memory wu) as (Hp & Hk & _ & Hmi & _).
    rewrite Hk, Hmi. split; [|split; reflexivity].
    rewrite (get_pad_action_run _ _ _ Hp), (get_pad_action_run _ _ _ Hpm).
    unfold lookup_or. rewrite lookup_insert_ne; [reflexivity|].
    intros E. apply Hn. symmetry. exact (str_of_Z_inj _ _ E).
  - intros c c' A lo hi Hc w1. subst w1.
    rewrite (update_knob_mapping_run w km _ A lo hi Hkm).
    set (wu := set_knob_mappings (PDict (<[str_of_Z c := knob_record (PStr A) lo hi]> km)) w).
    destruct (save_config_memory wu) as (Hp & Hk & _ & Hmi & _).
    rewrite Hp, Hmi. split; [|split; reflexivity].
    rewrite (get_knob_action_run _ _ _ Hk), (get_knob_action_run _ _ _ Hkm).
    unfold lookup_or. rewrite lookup_insert_ne; [reflexivity|].
    intros E. apply Hc. symmetry. exact (str_of_Z_inj _ _ E).
Qed.

Lemma mapping_updates_are_local_witness :
  let w := default_world quiet_env in
  fst (get_pad_action (str_of_Z 37)
         (snd (update_pad_mapping (str_of_Z 36) "Show Desktop" w)))
  = Ok (PStr "Play/Pause Spotify") /\
  fst (get_knob_action (str_of_Z 17)
         (snd (update_knob_mapping (str_of_Z 16) "Relative Zoom" 1 127 w)))
  = Ok (PStr "Spotify Volume").
Proof.
  destruct (mapping_updates_are_local (default_world quiet_env) _ _ eq_refl eq_refl)
    as [Hp Hk].
  split.
  - rewrite (proj1 (Hp 36 37 "Show Desktop" ltac:(lia))). reflexivity.
  - rewrite (proj1 (Hk 16 17 "Relative Zoom" 1 127 ltac:(lia))). reflexivity.
Defined.

(** X3: what [save_config] writes, [load_config] reads back: after a save
    that goes through, a load restores the saved pad and knob mappings
    whatever the tables hold in memory when it runs, and leaves the file
    as it is. *)
Theorem saved_mappings_are_reloaded (w : world) (pm km : PyVal) :
  write_succeeds w ->
  let w1 := set_knob_mappings km (set_pad_mappings pm (snd (save_config w))) in
  let w2 := snd (load_config w1) in
  fst (load_config w1) = Ok tt /\
  pad_mappings w2 = pad_mappings w /\
  knob_mappings w2 = knob_mappings w /\
  config_file w2 = Document (config_document w).
Proof.
  intros [H1 H2] w1 w2. subst w2 w1.
  rewrite save_config_run, H1, H2. cbv beta iota. simpl snd.
  rewrite load_config_run. simpl config_file. cbv iota.
  unfold config_document at 1 2 3 4. unfold lookup_or.
  rewrite lookup_insert_eq.
  rewrite lookup_insert_ne by discriminate. rewrite lookup_insert_eq.
  repeat split; reflexivity.
Qed.

Lemma saved_mappings_are_reloaded_witness :
  let w := default_world quiet_env in
  let w1 := set_knob_mappings PNone (set_pad_mappings (PDict ∅) (snd (save_config w))) in
  pad_mappings (snd (load_config w1)) = default_pad_mappings /\
  knob_mappings (snd (load_config w1)) = default_knob_mappings.
Proof.
  destruct (saved_mappings_are_reloaded (default_world quiet_env) (PDict ∅) PNone)
    as (_ & Hp & Hk & _); [split; reflexivity|].
  split; [exact Hp|exact Hk].
Defined.

Lemma get_knob_action_not_dict (w : world) (cc : string) :
  (forall m, knob_mappings w <> PDict m) ->
  get_knob_action cc w =
  (Ok PNone,
   set_trace (trace w ++ [Log ERROR "Error getting knob action for CC {}: {}"
                            [AStr cc; AExn "AttributeError"]]) w).
Proof.
  intros H. unfold get_knob_action, try_except, bind, gets.
  destruct (knob_mappings w) as [| | | | | |m]; try reflexivity.
  destruct (H m eq_refl).
Qed.

Lemma get_knob_action_returns (w : world) (cc : string) :
  exists v, fst (get_knob_action cc w) = Ok v.
Proof.
  destruct (knob_mappings w) as [| | | | | |m] eqn:E;
    try (rewrite get_knob_action_not_dict; [eexists; reflexivity|congruence]).
  rewrite (get_knob_action_run _ _ _ E). eexists. reflexivity.
Qed.

(** X4: [get_knob_action] never raises.  On a dictionary of knob
    mappings it changes nothing; on anything else (a configuration file
    can hold any JSON value under [knob_mappings]) it gives [None] and
    logs the [AttributeError] of the failed lookup. *)
Theorem get_knob_action_never_raises (w : world) (cc : string) :
  (exists v, fst (get_knob_action cc w) = Ok v) /\
  (forall m, knob_mappings w = PDict m -> snd (get_knob_action cc w) = w) /\
  ((forall m, knob_mappings w <> PDict m) ->
   get_knob_action cc w =
   (Ok PNone,
    set_trace (trace w ++ [Log ERROR "Error getting knob action for CC {}: {}"
                             [AStr cc; AExn "AttributeError"]]) w)).
Proof.
  split; [apply get_knob_action_returns|]. split.
  - intros m Hm. rewrite (get_knob_action_run _ _ _ Hm). reflexivity.
  - apply get_knob_action_not_dict.
Qed.

(** X5: the pad table has no such guard.  When [pad_mappings] is not a
    dictionary, [get_pad_action] raises [AttributeError], and
    [handle_pad_action], which looks the action up outside its [try],
    lets it through to the loop, as does the processing of a pad press;
    [update_pad_mapping] raises [TypeError] and saves nothing.  None of
    them changes anything. *)
Theorem pad_lookup_needs_a_dictionary (w : world) (note : Z) :
  (forall m, pad_mappings w <> PDict m) ->
  get_pad_action (str_of_Z note) w = (Raise (Exc "AttributeError"), w) /\
  handle_pad_action note w = (Raise (Exc "AttributeError"), w) /\
  (forall velocity, 0 < velocity ->
     process_event {| status := 144; data1 := note; data2 := velocity |} w
     = (Raise (Exc "AttributeError"), w)) /\
  (forall A, update_pad_mapping (str_of_Z note) A w = (Raise (Exc "TypeError"), w)).
Proof.
  intros H.
  assert (Hg : get_pad_action (str_of_Z note) w = (Raise (Exc "AttributeError"), w)).
  { unfold get_pad_action, bind, gets.
    destruct (pad_mappings w) as [| | | | | |m]; try reflexivity.
    destruct (H m eq_refl). }
  assert (Hh : handle_pad_action note w = (Raise (Exc "AttributeError"), w)).
  { unfold handle_pad_action, bind at 1. rewrite Hg. reflexivity. }
  split; [exact Hg|]. split; [exact Hh|]. split.
  - intros velocity Hv. unfold process_event. simpl.
    apply Z.ltb_lt in Hv. rewrite Hv. exact Hh.
  - intros A. unfold update_pad_mapping, bind, gets.
    destruct (pad_mappings w) as [| | | | | |m]; try reflexivity.
    destruct (H m eq_refl).
Qed.

Lemma pad_lookup_needs_a_dictionary_witness :
  let file := Document (PDict {["pad_mappings" := PList []]}) in
  let w := snd (load_config (initial_world quiet_env file)) in
  fst (load_config (initial_world quiet_env file)) = Ok tt /\
  pad_mappings w = PList [] /\
  handle_pad_action 36 w = (Raise (Exc "AttributeError"), w).
Proof.
  split; [reflexivity|]. split; [reflexivity|].
  apply (pad_lookup_needs_a_dictionary
           (snd (load_config (initial_world quiet_env
                                (Document (PDict {["pad_mappings" := PList []]})))))
           36).
  intros m. discriminate.
Defined.

Lemma handle_pad_action_unmapped (w : world) (m : gmap string PyVal) (note : Z) :
  pad_mappings w = PDict m -> m !! str_of_Z note = None ->
  handle_pad_action note w = (Ok tt, w).
Proof.
  intros Hm Hn. unfold handle_pad_action, bind at 1.
  rewrite (get_pad_action_run _ _ _ Hm). unfold lookup_or. rewrite Hn. reflexivity.
Qed.

Lemma handle_knob_action_unmapped (w : world) (m : gmap string PyVal) (cc value : Z) :
  knob_mappings w = PDict m -> m !! str_of_Z cc = None ->
  handle_knob_action cc value w = (Ok tt, w).
Proof.
  intros Hm Hn. unfold handle_knob_action, bind at 1.
  rewrite (get_knob_action_run _ _ _ Hm). unfold lookup_or. rewrite Hn. reflexivity.
Qed.

(** X6: a configuration file that is a JSON object without the two
    tables is loaded as two empty tables, not as the defaults: the load
    returns, the file stays as it is, and from then on every MIDI event
    is processed without any effect. *)
Theorem empty_document_disables_every_control (w : world) (d : gmap string PyVal) :
  config_file w = Document (PDict d) ->
  d !! "pad_mappings" = None ->
  d !! "knob_mappings" = None ->
  let w' := snd (load_config w) in
  fst (load_config w) = Ok tt /\
  pad_mappings w' = PDict ∅ /\
  knob_mappings w' = PDict ∅ /\
  config_file w' = config_file w /\
  forall ev : midi_event, process_event ev w' = (Ok tt, w').
Proof.
  intros Hf Hp Hk w'. subst w'. rewrite load_config_run, Hf.
  unfold lookup_or. rewrite Hp, Hk. simpl fst. simpl snd.
  split; [reflexivity|]. split; [reflexivity|]. split; [reflexivity|].
  split; [destruct w; simpl in *; congruence|].
  intros ev. unfold process_event.
  destruct (_ && _).
  - apply (handle_pad_action_unmapped _ ∅); [reflexivity|apply lookup_empty].
  - destruct (_ =? _); [|reflexivity].
    apply (handle_knob_action_unmapped _ ∅); [reflexivity|apply lookup_empty].
Qed.

Lemma empty_document_disables_every_control_witness :
  let w := initial_world quiet_env (Document (PDict ∅)) in
  pad_mappings (snd (load_config w)) = PDict ∅ /\
  process_event {| status := 144; data1 := 36; data2 := 100 |} (snd (load_config w))
  = (Ok tt, snd (load_config w)).
Proof.
  destruct (empty_document_disables_every_control
              (initial_world quiet_env (Document (PDict ∅))) ∅ eq_refl
              (lookup_empty _) (lookup_empty _))
    as (_ & Hp & _ & _ & He).
  split; [exact Hp|apply He].
Defined.



(** * The handlers never fail *)

Lemma try_except_logs_returns (m : M unit) (fmt : string)
    (args : string -> list logarg) (w : world) :
  mild (fst (m w)) -> fst (try_except m (fun e => log ERROR fmt (args e)) w) = Ok tt.
Proof.
  intros H. unfold try_except.
  destruct (m w) as [[[]|[|cls]|] w']; simpl in *; try destruct H; reflexivity.
Qed.

Lemma frame_of_run (w w' : world) :
  only_trace w w' -> emits any_event w w' ->
  exists t, w' = set_trace (trace w ++ t) w.
Proof.
  intros Ho (t & Et & _). exists t. rewrite <- Et. exact Ho.
Qed.

(** X8: [handle_knob_action] returns normally for every control number
    and value, whatever the mappings hold and whatever the libraries
    answer, and changes nothing but the trace. *)
Theorem knob_events_never_fail (w : world) (cc value : Z) :
  fst (handle_knob_action cc value w) = Ok tt /\
  exists t, snd (handle_knob_action cc value w) = set_trace (trace w ++ t) w.
Proof.
  split.
  - unfold handle_knob_action, bind at 1.
    destruct (get_knob_action_returns w (str_of_Z cc)) as [a Ha].
    destruct (get_knob_action (str_of_Z cc) w) as [r w1]. simpl in Ha. subst r.
    destruct (truthy a); [|reflexivity].
    apply (try_except_logs_returns _ _ (fun e => [AVal a; AExn e])).
    assert (Hb : behaves true any_event
                   (log INFO "Received knob CC: {}, value: {}" [AInt cc; AInt value] ;;
                    normalized_value <- normalize value ;;
                    log INFO "Normalized value: {:.2f}" [AFloat normalized_value] ;;
                    handle_action a normalized_value)).
    { pose proof (behaves_handle_action true) as H. unfold normalize. behaves. }
    apply Hb. reflexivity.
  - apply frame_of_run.
    + apply (keeps_handle_knob_action Only_trace).
    + apply (behaves_handle_knob_action true).
Qed.

(** X9: when the pad mappings are a dictionary, [handle_pad_action]
    returns normally for every note, whatever the action resolves to and
    whatever the libraries answer.  It changes nothing of the controller
    but the trace, with one exception: an action name that resolves to
    [__init__] runs the initialiser of the pad actions again, without an
    argument, which adds nothing to the trace and leaves the pad actions
    with their module's logger in place of the controller's. *)
Theorem pad_events_never_fail (w : world) (m : gmap string PyVal) (note : Z) :
  pad_mappings w = PDict m ->
  let action := lookup_or m (str_of_Z note) PNone in
  fst (handle_pad_action note w) = Ok tt /\
  ((forall s, action = PStr s -> attribute_name s <> "__init__") ->
   exists t, snd (handle_pad_action note w) = set_trace (trace w ++ t) w) /\
  (forall s, action = PStr s -> attribute_name s = "__init__" ->
             snd (handle_pad_action note w) = set_pad_logger module_logger w).
Proof.
  intros Hm action. split; [|split].
  - unfold handle_pad_action, bind at 1.
    rewrite (get_pad_action_run _ _ _ Hm).
    destruct (truthy (lookup_or m (str_of_Z note) PNone)); [|reflexivity].
    apply (try_except_logs_returns _ _
             (fun e => [AVal (lookup_or m (str_of_Z note) PNone); AExn e])).
    match goal with |- mild (fst (?body w)) =>
      assert (Hb : behaves true any_event body)
    end.
    { apply behaves_bind; [unfold method_name; behaves|intros name].
      apply behaves_dispatch. behaves. }
    apply Hb. reflexivity.
  - intros Hn. apply frame_of_run.
    + apply (keeps_handle_pad_action_other Only_trace). intros s Hs. apply Hn.
      rewrite (get_pad_action_run _ _ _ Hm) in Hs. injection Hs as Hs. exact Hs.
    + apply (behaves_handle_pad_action true).
  - intros s Hs Hi.
    assert (Hk : m !! str_of_Z note = Some (PStr s)).
    { unfold action, lookup_or in Hs. destruct (m !! str_of_Z note); congruence. }
    rewrite (handle_pad_action_run _ _ _ _ Hm Hk), Hi.
    destruct (String.eqb_spec s ""); [subst s; discriminate|].
    destruct w; reflexivity.
Qed.

Lemma pad_events_never_fail_witness :
  (let w := set_pad_mappings (PDict {["36" := PStr "logger"]}) (default_world quiet_env) in
   fst (handle_pad_action 36 w) = Ok tt /\
   exists t, snd (handle_pad_action 36 w) = set_trace (trace w ++ t) w) /\
  (let w := set_pad_mappings (PDict {["36" := PStr "  init  "]}) (default_world quiet_env) in
   fst (handle_pad_action 36 w) = Ok tt /\
   snd (handle_pad_action 36 w) = set_pad_logger module_logger w).
Proof.
  split.
  - destruct (pad_events_never_fail
                (set_pad_mappings (PDict {["36" := PStr "logger"]})
                   (default_world quiet_env))
                {["36" := PStr "logger"]} 36 eq_refl) as (H1 & H2 & _).
    split; [exact H1|]. apply H2. intros s [= <-]. discriminate.
  - destruct (pad_events_never_fail
                (set_pad_mappings (PDict {["36" := PStr "  init  "]})
                   (default_world quiet_env))
                {["36" := PStr "  init  "]} 36 eq_refl) as (H1 & _ & H3).
    split; [exact H1|]. exact (H3 "  init  " eq_refl eq_refl).
Defined.

(** * Shutdown *)

Lemma release_midi_closes (w : world) (h : Z) :
  midi_input w = Some h ->
  exists t, trace (snd (release_midi w)) = trace w ++ Call (Input_close h) :: t.
Proof.
  intros H. unfold release_midi, bind, gets, call. rewrite H.
  destruct (oracle (env w) unit (trace w) (Input_close h)); simpl.
  - destruct (oracle _ _ _ midi_quit); simpl; eexists;
      rewrite <- app_assoc; reflexivity.
  - exists []. reflexivity.
Qed.

Lemma start_monitoring_connected (fuel : nat) (w : world) (h : Z) :
  midi_input w = Some h ->
  start_monitoring fuel w =
  try_finally
    (try_except2 (monitor_loop fuel)
       (log INFO "Stopping MIDI monitoring" [])
       (fun e => log ERROR "Error in MIDI monitoring: {}" [AExn e]))
    release_midi
    (set_trace (trace w ++ [Log INFO "Started monitoring MIDI input" []]) w).
Proof.
  intros H. unfold start_monitoring. unfold bind at 1, gets. rewrite H. reflexivity.
Qed.

(** X10: neither the end of [start_monitoring] nor [cleanup] ever
    changes anything but the trace; the one exception is the logger of
    the pad actions, which monitoring can reset when a pad is mapped to
    a name that resolves to [__init__], and only then.  In
    particular a device handle stays stored in [midi_input] after it has
    been closed: when monitoring of a connected device ends, its
    [finally] has called [close] on the handle, and [cleanup] starts with
    [close] on the same handle. *)
Theorem shutdown_keeps_the_closed_handle (fuel : nat) (w : world) :
  snd (start_monitoring fuel w)
  = set_pad_logger (pad_logger (snd (start_monitoring fuel w)))
      (set_trace (trace (snd (start_monitoring fuel w))) w) /\
  (no_initializer_mapped w ->
   snd (start_monitoring fuel w)
   = set_trace (trace (snd (start_monitoring fuel w))) w) /\
  snd (cleanup w) = set_trace (trace (snd (cleanup w))) w /\
  forall h : Z,
    midi_input w = Some h ->
    midi_input (snd (start_monitoring fuel w)) = Some h /\
    (fst (start_monitoring fuel w) <> OutOfFuel ->
     exists t, trace (snd (start_monitoring fuel w)) = trace w ++ t /\
               In (Call (Input_close h)) t) /\
    exists t, trace (snd (cleanup w)) = trace w ++ Call (Input_close h) :: t.
Proof.
  pose proof (keeps_start_monitoring_if Only_trace_unless_reset
                keeps_pads_unless_reset fuel w) as [Hs Hlg].
  pose proof (keeps_cleanup Only_trace w) as Hc.
  split; [exact Hs|]. split.
  { intros Hn. change (only_trace_and_logger w (snd (start_monitoring fuel w))) in Hs.
    unfold only_trace_and_logger in Hs. rewrite Hs at 1. rewrite (Hlg Hn).
    destruct w; reflexivity. }
  split; [exact Hc|].
  intros h Hh. split; [|split].
  - change (only_trace_and_logger w (snd (start_monitoring fuel w))) in Hs.
    unfold only_trace_and_logger in Hs. rewrite Hs. exact Hh.
  - intros Hfuel. rewrite (start_monitoring_connected fuel w h Hh) in *.
    set (w1 := set_trace (trace w ++ [Log INFO "Started monitoring MIDI input" []]) w) in *.
    set (inner := try_except2 (monitor_loop fuel)
                    (log INFO "Stopping MIDI monitoring" [])
                    (fun e => log ERROR "Error in MIDI monitoring: {}" [AExn e])) in *.
    assert (Hk : keeps Only_trace_and_logger inner).
    { pose proof (keeps_monitor_loop Only_trace_and_logger
                    logger_free_Only_trace_and_logger fuel) as Hl.
      unfold inner. keeps. }
    assert (Hb : behaves false any_event inner).
    { pose proof (behaves_monitor_loop fuel) as Hl. unfold inner. behaves. }
    specialize (Hk w1). destruct (Hb w1) as [(t1 & E1 & _) _].
    unfold try_finally in *.
    destruct (inner w1) as [r w2]. simpl in Hk, E1.
    assert (Hh2 : midi_input w2 = Some h).
    { change (only_trace_and_logger w1 w2) in Hk. unfold only_trace_and_logger in Hk.
      rewrite Hk. exact Hh. }
    destruct (release_midi_closes w2 h Hh2) as (t2 & E2).
    destruct r as [u|e|]; [| |destruct (Hfuel eq_refl)];
      destruct (release_midi w2) as [[u'|e'|] w3]; simpl in *;
      (eexists; split;
       [rewrite E2, E1; unfold w1; simpl; rewrite <- !app_assoc; reflexivity
       |apply in_or_app; right; apply in_or_app; right; left; reflexivity]).
  - unfold cleanup, bind.
    destruct (release_midi_closes w h Hh) as (t & E).
    destruct (release_midi w) as [[u|e|] w1]; simpl in *.
    + eexists. rewrite E, <- app_assoc. reflexivity.
    + exists t. exact E.
    + exists t. exact E.
Qed.

Lemma shutdown_keeps_the_closed_handle_witness :
  exists w : world,
    w = set_midi_input (Some 7) (default_world quiet_env) /\
    no_initializer_mapped w /\
    snd (start_monitoring 3 w) = set_trace (trace (snd (start_monitoring 3 w))) w /\
    midi_input (snd (start_monitoring 3 w)) = Some 7.
Proof.
  exists (set_midi_input (Some 7) (default_world quiet_env)).
  split; [reflexivity|].
  assert (Hn : no_initializer_mapped (set_midi_input (Some 7) (default_world quiet_env)))
    by (apply default_pads_no_initializer; reflexivity).
  split; [exact Hn|]. split.
  - exact (proj1 (proj2 (shutdown_keeps_the_closed_handle 3
                            (set_midi_input (Some 7) (default_world quiet_env)))) Hn).
  - exact (proj1 (proj2 (proj2 (proj2 (shutdown_keeps_the_closed_handle 3
                            (set_midi_input (Some 7) (default_world quiet_env)))))
                   7 eq_refl)).
Defined.

(** * Construction *)

Lemma Config_init_returns (w : world) : fst (Config_init w) = Ok tt.
Proof. unfold Config_init, bind, modify. apply load_config_returns. Qed.

Lemma KnobActions_init_returns (w : world) : fst (KnobActions_init w) = Ok tt.
Proof.
  unfold KnobActions_init, try_except, bind, call, modify, log, emit.
  repeat (destruct (oracle _ _ _ _); simpl); reflexivity.
Qed.

Lemma initialize_midi_loop_uninterrupted (fuel : nat) :
  forall (rc : Z) (w : world),
    uninterrupted w ->
    fst (initialize_midi_loop fuel rc w) <> Raise KeyboardInterrupt.
Proof.
  induction fuel as [|fuel IH]; intros rc w Hu.
  - simpl. destruct (_ <? _); discriminate.
  - destruct (Z_lt_ge_dec rc max_retries) as [Hlt|Hge];
      [|rewrite loop_done by lia; discriminate].
    pose proof (setup_attempt_events w) as [Hm _].
    pose proof (keeps_setup_attempt w) as Hk.
    destruct (setup_attempt w) as [[[]|[|cls]|] w1] eqn:Ea; simpl in Hm, Hk;
      try destruct Hm.
    + rewrite (loop_returns fuel rc w w1 Hlt Ea). discriminate.
    + assert (Hu1 : uninterrupted w1).
      { intros hist. change (only_trace_and_input w w1) in Hk.
        unfold only_trace_and_input in Hk. rewrite Hk. apply Hu. }
      pose proof (retry_handler_run rc cls w1) as Hh. cbv zeta in Hh.
      destruct (rc + 1 <? max_retries).
      * rewrite Hu1 in Hh.
        rewrite (loop_retries fuel rc (rc + 1) cls w w1 _ Hlt Ea Hh).
        apply IH. intros hist. apply Hu1.
      * rewrite (loop_retries fuel rc (rc + 1) cls w w1 _ Hlt Ea Hh).
        apply IH. intros hist. apply Hu1.
Qed.



(** X12: [initialize_midi] changes nothing but the trace and the device
    handle: the mappings, the configuration file, the WMI flag and the
    logger of the pad actions are the same afterwards, however the
    attempts go. *)
Theorem initialization_leaves_configuration_alone (w : world) :
  let w' := snd (initialize_midi w) in
  pad_mappings w' = pad_mappings w /\
  knob_mappings w' = knob_mappings w /\
  config_file w' = config_file w /\
  wmi w' = wmi w /\
  env w' = env w /\
  pad_logger w' = pad_logger w.
Proof.
  intros w'. pose proof (keeps_initialize_midi w) as H.
  change (only_trace_and_input w w') in H. unfold only_trace_and_input in H.
  rewrite H. repeat split; reflexivity.
Qed.

(** * The knob actions *)

(** ** Computations that always return *)

Lemma returns_ret {A} (a : A) : returns (ret a).
Proof. intros w. exists a. reflexivity. Qed.

Lemma returns_gets {A} (f : world -> A) : returns (gets f).
Proof. intros w. eexists. reflexivity. Qed.

Lemma returns_emit (e : event) : returns (emit e).
Proof. intros w. exists tt. reflexivity. Qed.

Lemma returns_log lvl fmt args : returns (log lvl fmt args).
Proof. apply returns_emit. Qed.

Lemma returns_enter c : returns (enter c).
Proof. apply returns_emit. Qed.

Lemma returns_bind {A B} (m : M A) (k : A -> M B) :
  returns m -> (forall a, returns (k a)) -> returns (bind m k).
Proof.
  intros Hm Hk w. unfold bind. destruct (Hm w) as [a Ha].
  destruct (m w) as [r w']. simpl in Ha. subst r. apply Hk.
Qed.

Lemma returns_try_except {A} (m : M A) (h : string -> M A) :
  behaves true any_event m -> (forall cls, returns (h cls)) ->
  returns (try_except m h).
Proof.
  intros Hm Hh w. unfold try_except.
  pose proof (proj2 (Hm w) eq_refl) as H.
  destruct (m w) as [[a|[|cls]|] w']; simpl in *; try destruct H.
  - exists a. reflexivity.
  - apply Hh.
Qed.

Lemma returns_try_except_all {A} (m h : M A) :
  behaves true any_event m -> returns h -> returns (try_except_all m h).
Proof.
  intros Hm Hh w. unfold try_except_all.
  pose proof (proj2 (Hm w) eq_refl) as H.
  destruct (m w) as [[a|e|] w']; simpl in *; try destruct H.
  - exists a. reflexivity.
  - apply Hh.
Qed.

Lemma returns_try_finally {A} (m : M A) (f : M unit) :
  returns m -> returns f -> returns (try_finally m f).
Proof.
  intros Hm Hf w. unfold try_finally. destruct (Hm w) as [a Ha].
  destruct (m w) as [r w']. simpl in Ha. subst r.
  destruct (Hf w') as [u Hu]. destruct (f w') as [r' w'']. simpl in Hu. subst r'.
  exists a. reflexivity.
Qed.

Ltac returns_step :=
  lazymatch goal with
  | |- returns (ret _) => apply returns_ret
  | |- returns (gets _) => apply returns_gets
  | |- returns (log _ _ _) => apply returns_log
  | |- returns (enter _) => apply returns_enter
  | |- returns (emit _) => apply returns_emit
  | |- returns (try_except _ _) => apply returns_try_except; [behaves|intros]
  | |- returns (try_except_all _ _) => apply returns_try_except_all; [behaves|]
  | |- returns (try_finally _ _) => apply returns_try_finally
  | |- returns (bind _ _) => apply returns_bind; [|intros]
  | |- returns (match ?x with _ => _ end) => destruct x
  end.
Ltac returns := repeat returns_step.

(** ** Counting *)

Lemma at_most_weaken p n n' {A} (m : M A) :
  at_most p n m -> (n <= n')%nat -> at_most p n' m.
Proof. intros H Hn w. destruct (H w) as (t & E & C). exists t. split; [exact E|lia]. Qed.

Lemma at_most_try_except p n1 n2 {A} (m : M A) (h : string -> M A) :
  at_most p n1 m -> (forall cls, at_most p n2 (h cls)) ->
  at_most p (n1 + n2) (try_except m h).
Proof.
  intros Hm Hh w. unfold try_except. destruct (Hm w) as (t1 & E1 & C1).
  destruct (m w) as [[a|[|cls]|] w']; simpl in *;
    try (exists t1; split; [exact E1|lia]).
  destruct (Hh cls w') as (t2 & E2 & C2). exists (t1 ++ t2).
  rewrite E2, E1, <- app_assoc, count_app. split; [reflexivity|lia].
Qed.

Lemma at_most_repeat p (c : ext unit) {A} (l : list A) :
  at_most p (length l) (for_each l (fun _ => call c)).
Proof.
  induction l as [|x r IH]; simpl.
  - intros w. exists []. rewrite app_nil_r. split; [reflexivity|]. apply Nat.le_0_l.
  - apply (at_most_bind p 1 (length r)); [|intros _; exact IH].
    apply (at_most_weaken _ _ _ _ (at_most_call p c)). destruct (p (Call c)); lia.
Qed.

Lemma range_length (n : Z) : length (range n) = Z.to_nat n.
Proof. unfold range. rewrite length_map, length_seq. reflexivity. Qed.

Lemma not_hotkey_spec (e : event) : not_hotkey e = true -> is_hotkey e = false.
Proof. unfold not_hotkey. destruct (is_hotkey e); [discriminate|reflexivity]. Qed.

Lemma not_SetMasterVolume_spec (e : event) :
  not_SetMasterVolume e = true -> is_SetMasterVolume e = false.
Proof.
  unfold not_SetMasterVolume. destruct (is_SetMasterVolume e); [discriminate|reflexivity].
Qed.

(** ** Brightness *)

Lemma framed_set_brightness_all (b : Z) (l : list Z) (s : bool) :
  0 <= b <= 100 -> framed brightness_in_range (set_brightness_all b l s).
Proof.
  intros Hb. revert s. induction l as [|m r IH]; intros s; simpl.
  - apply framed_ret.
  - apply framed_bind; [|intros; apply IH].
    apply framed_try_except; [|intros; framed].
    apply framed_bind; [|intros; framed].
    apply framed_call. simpl.
    apply andb_true_iff. split; apply Z.leb_le; lia.
Qed.

Lemma framed_set_screen_brightness (v : float) :
  framed brightness_in_range (set_screen_brightness v).
Proof.
  unfold set_screen_brightness.
  apply framed_bind; [apply framed_emit; reflexivity|intros _].
  apply framed_bind; [apply framed_gets|intros has_wmi].
  destruct (negb has_wmi); [framed|].
  apply framed_try_finally; [|framed].
  apply framed_try_except; [|intros; framed].
  apply framed_bind; [apply framed_py_int|intros b].
  apply framed_bind; [framed|intros _].
  apply framed_bind; [framed|intros _].
  apply framed_bind; [framed|intros methods].
  destruct methods as [|m r]; [framed|].
  apply framed_bind; [apply framed_set_brightness_all; lia|intros success].
  destruct (negb success); framed.
Qed.

Lemma returns_set_screen_brightness (v : float) : returns (set_screen_brightness v).
Proof.
  pose proof (behaves_set_brightness_all true) as H.
  unfold set_screen_brightness. returns.
Qed.

(** X13: [set_screen_brightness] always returns and changes nothing but
    the trace; every brightness it passes to WMI lies between 0 and 100,
    whatever the normalised value is; and without WMI it makes no
    library call at all: it only logs one error. *)
Theorem brightness_is_clamped (v : float) (w : world) :
  fst (set_screen_brightness v w) = Ok tt /\
  (exists t, snd (set_screen_brightness v w) = set_trace (trace w ++ t) w /\
             forallb brightness_in_range t = true) /\
  (wmi w = false ->
   set_screen_brightness v w =
   (Ok tt,
    set_trace (trace w ++ [Enter (set_screen_brightness_ v);
                           Log ERROR "WMI not initialized, cannot control brightness" []])
      w)).
Proof.
  split; [|split].
  - destruct (returns_set_screen_brightness v w) as [[] H]. exact H.
  - destruct (framed_set_screen_brightness v w) as (_ & t & Ht & E).
    exists t. split; [exact E|exact Ht].
  - intros H. destruct w as [e t f pm km lg wm mi]. simpl in H. subst wm.
    unfold set_screen_brightness, bind, enter, emit, gets, log, emit, set_trace. simpl.
    rewrite <- app_assoc. reflexivity.
Qed.

(** ** Application volume *)

Lemma sets_once_none {B} : sets_once (@ret (option B) None).
Proof.
  intros w. exists []. rewrite app_nil_r. split; [reflexivity|].
  split; [apply Nat.le_0_l|reflexivity].
Qed.

Lemma sets_once_bind {A B} (m : M A) (k : A -> M (option B)) :
  at_most is_SetMasterVolume 0 m -> (forall a, sets_once (k a)) -> sets_once (bind m k).
Proof.
  intros Hm Hk w. unfold bind. destruct (Hm w) as (t1 & E1 & C1).
  destruct (m w) as [[a|e|] w']; simpl in *.
  - destruct (Hk a w') as (t2 & E2 & C2 & Z2). exists (t1 ++ t2).
    rewrite E2, E1, <- app_assoc, count_app.
    split; [reflexivity|]. split; [lia|]. intros H. specialize (Z2 H). lia.
  - exists t1. split; [exact E1|]. split; [lia|discriminate].
  - exists t1. split; [exact E1|]. split; [lia|discriminate].
Qed.

Lemma sets_once_found {B} (m : M (option B)) :
  at_most is_SetMasterVolume 1 m -> (forall w, fst (m w) <> Ok None) -> sets_once m.
Proof.
  intros Hm Hn w. destruct (Hm w) as (t & E & C). exists t.
  split; [exact E|]. split; [exact C|]. intros H. destruct (Hn w H).
Qed.

Lemma for_first_sets_once {A B} (l : list A) (f : A -> M (option B)) :
  (forall x, sets_once (f x)) -> sets_once (for_first l f).
Proof.
  intros H. induction l as [|x l IH]; simpl; [apply sets_once_none|].
  intros w. unfold bind. destruct (H x w) as (t1 & E1 & C1 & Z1).
  destruct (f x w) as [[[b|]|e|] w']; simpl in *.
  - exists t1. split; [exact E1|]. split; [exact C1|discriminate].
  - destruct (IH w') as (t2 & E2 & C2 & Z2). exists (t1 ++ t2).
    rewrite E2, E1, <- app_assoc, count_app. rewrite (Z1 eq_refl).
    split; [reflexivity|]. split; [exact C2|exact Z2].
  - exists t1. split; [exact E1|]. split; [exact C1|discriminate].
  - exists t1. split; [exact E1|]. split; [exact C1|discriminate].
Qed.

Lemma sets_once_at_most {B} (m : M (option B)) :
  sets_once m -> at_most is_SetMasterVolume 1 m.
Proof. intros H w. destruct (H w) as (t & E & C & _). exists t. split; assumption. Qed.

Lemma session_sets_once (app : string) (v : float) (s : session) :
  sets_once
    (if sess_has_process s then
       name <- call (Process_name (sess_id s)) ;;
       if String.eqb (lower name) (lower app) then
         call (ISimpleAudioVolume_QueryInterface (sess_id s)) ;;
         call (SetMasterVolume (sess_id s) v) ;;
         log INFO "{} volume set to {:.0%}" [AStr app; AFloat v] ;;
         ret (Some true)
       else ret None
     else ret None).
Proof.
  destruct (sess_has_process s); [|apply sets_once_none].
  apply sets_once_bind; [apply (at_most_call is_SetMasterVolume)|intros name].
  destruct (String.eqb _ _); [|apply sets_once_none].
  apply sets_once_found.
  - apply (at_most_bind _ 0 1); [apply (at_most_call is_SetMasterVolume)|intros _].
    apply (at_most_bind _ 1 0); [apply (at_most_call is_SetMasterVolume)|intros _].
    apply (at_most_behaves _ not_SetMasterVolume true _ not_SetMasterVolume_spec).
    behaves.
  - intros w. unfold bind, call, log, emit, ret.
    repeat (destruct (oracle _ _ _ _); simpl); discriminate.
Qed.

Lemma returns_set_application_volume (app : string) (v : float) :
  returns (set_application_volume app v).
Proof. unfold set_application_volume. returns. Qed.


(** ** The relative actions on raw values *)

(** X15: in raw knob values the dead zone of the zoom is exactly 58..69
    and the dead zone of the two scrolls exactly 61..66 (64 is the centre
    of the knob). *)
Theorem dead_zone_in_raw_values (r : Z) :
  0 <= r <= 127 ->
  (PrimFloat.abs (_get_relative_change (normalize_spec r) 1) <? 0.1)%float
  = (58 <=? r) && (r <=? 69) /\
  (PrimFloat.abs (_get_relative_change (normalize_spec r) 2) <? 0.1)%float
  = (61 <=? r) && (r <=? 66).
Proof.
  intros Hr.
  pose (P := fun r =>
    Bool.eqb (PrimFloat.abs (_get_relative_change (normalize_spec r) 1) <? 0.1)%float
             ((58 <=? r) && (r <=? 69)) &&
    Bool.eqb (PrimFloat.abs (_get_relative_change (normalize_spec r) 2) <? 0.1)%float
             ((61 <=? r) && (r <=? 66))).
  assert (H : P r = true) by (apply byte_cases; [vm_compute; reflexivity|exact Hr]).
  unfold P in H. apply andb_true_iff in H. destruct H as [H1 H2].
  split; apply Bool.eqb_prop; assumption.
Qed.

Lemma dead_zone_in_raw_values_witness :
  (PrimFloat.abs (_get_relative_change (normalize_spec 64) 1) <? 0.1)%float = true /\
  (PrimFloat.abs (_get_relative_change (normalize_spec 60) 2) <? 0.1)%float = false.
Proof.
  split.
  - exact (proj1 (dead_zone_in_raw_values 64 ltac:(lia))).
  - exact (proj2 (dead_zone_in_raw_values 60 ltac:(lia))).
Defined.

Lemma framed_ret_bind P {A B} (a : A) (k : A -> M B) :
  framed P (k a) -> framed P (bind (ret a) k).
Proof. intros H w. exact (H w). Qed.

Lemma at_most_ret_bind p n {A B} (a : A) (k : A -> M B) :
  at_most p n (k a) -> at_most p n (bind (ret a) k).
Proof. intros H w. exact (H w). Qed.

Lemma framed_raise_bind P {A B} (cls : string) (k : A -> M B) :
  framed P (bind (raise (Exc cls)) k).
Proof. intros w. exact (framed_raise P cls w). Qed.

Lemma at_most_raise_bind p n {A B} (e : exn) (k : A -> M B) :
  at_most p n (bind (raise e) k).
Proof.
  intros w. exists []. rewrite app_nil_r. split; [reflexivity|]. apply Nat.le_0_l.
Qed.

Lemma framed_horizontal_scroll (v : float) :
  (forall k, int_of_float (_get_relative_change v 2 * 50)%float = inr k ->
             -100 <= k <= 100) ->
  framed scroll_in_range (horizontal_scroll v).
Proof.
  intros H. unfold horizontal_scroll.
  apply framed_bind; [apply framed_emit; reflexivity|intros _].
  apply framed_try_except; [|intros; framed]. cbv zeta.
  destruct (_ <? _)%float; [framed|].
  unfold py_int. destruct (int_of_float _) as [cls|k]; [apply framed_raise_bind|].
  apply framed_ret_bind.
  apply framed_bind; [framed|intros _].
  apply framed_call. simpl. specialize (H k eq_refl).
  apply andb_true_iff. split; apply Z.leb_le; lia.
Qed.

Lemma framed_vertical_scroll (v : float) :
  (forall k, int_of_float (_get_relative_change v 2 * 50)%float = inr k ->
             -100 <= k <= 100) ->
  framed scroll_in_range (vertical_scroll v).
Proof.
  intros H. unfold vertical_scroll.
  apply framed_bind; [apply framed_emit; reflexivity|intros _].
  apply framed_try_except; [|intros; framed]. cbv zeta.
  destruct (_ <? _)%float; [framed|].
  unfold py_int. destruct (int_of_float _) as [cls|k]; [apply framed_raise_bind|].
  apply framed_ret_bind.
  apply framed_bind; [framed|intros _].
  apply framed_call. simpl. specialize (H k eq_refl).
  apply andb_true_iff. split; apply Z.leb_le; lia.
Qed.

Ltac no_hotkey :=
  apply (at_most_behaves is_hotkey not_hotkey true _ not_hotkey_spec); behaves.

Lemma relative_zoom_presses (v : float) (n : nat) :
  (forall k, int_of_float (_get_relative_change v 1 * 5)%float = inr k ->
             (Z.to_nat k <= n)%nat) ->
  (forall k, int_of_float (PrimFloat.abs (_get_relative_change v 1) * 5)%float = inr k ->
             (Z.to_nat k <= n)%nat) ->
  at_most is_hotkey n (relative_zoom v).
Proof.
  intros H1 H2. unfold relative_zoom.
  apply (at_most_bind _ 0 n); [no_hotkey|intros _].
  apply (at_most_weaken _ (n + 0)); [|lia].
  apply at_most_try_except; [|intros; no_hotkey]. cbv zeta.
  destruct (_ <? 0.1)%float; [apply (at_most_weaken _ 0); [no_hotkey|lia]|].
  apply (at_most_bind _ 0 n); [no_hotkey|intros _].
  destruct (0 <? _)%float; unfold py_int.
  - destruct (int_of_float (_get_relative_change v 1 * 5)%float) as [cls|k];
      [apply at_most_raise_bind|].
    apply at_most_ret_bind.
    apply (at_most_weaken _ (length (range k))); [apply at_most_repeat|].
    rewrite range_length. auto.
  - destruct (int_of_float (PrimFloat.abs (_get_relative_change v 1) * 5)%float)
      as [cls|k]; [apply at_most_raise_bind|].
    apply at_most_ret_bind.
    apply (at_most_weaken _ (length (range k))); [apply at_most_repeat|].
    rewrite range_length. auto.
Qed.

Lemma scroll_clicks_of_byte (r k : Z) :
  0 <= r <= 127 ->
  int_of_float (_get_relative_change (normalize_spec r) 2 * 50)%float = inr k ->
  -100 <= k <= 100.
Proof.
  intros Hr E.
  pose (P := fun r =>
    match int_of_float (_get_relative_change (normalize_spec r) 2 * 50)%float with
    | inr k => (-100 <=? k) && (k <=? 100)
    | inl _ => true
    end).
  assert (H : P r = true) by (apply byte_cases; [vm_compute; reflexivity|exact Hr]).
  unfold P in H. rewrite E in H. apply andb_true_iff in H.
  destruct H as [H1 H2]. apply Z.leb_le in H1. apply Z.leb_le in H2. lia.
Qed.

Lemma zoom_presses_of_byte (r : Z) :
  0 <= r <= 127 ->
  (forall k, int_of_float (_get_relative_change (normalize_spec r) 1 * 5)%float = inr k ->
             (Z.to_nat k <= 5)%nat) /\
  (forall k, int_of_float (PrimFloat.abs (_get_relative_change (normalize_spec r) 1) * 5)%float
             = inr k -> (Z.to_nat k <= 5)%nat).
Proof.
  intros Hr.
  pose (P := fun r =>
    match int_of_float (_get_relative_change (normalize_spec r) 1 * 5)%float with
    | inr k => k <=? 5
    | inl _ => true
    end &&
    match int_of_float (PrimFloat.abs (_get_relative_change (normalize_spec r) 1) * 5)%float with
    | inr k => k <=? 5
    | inl _ => true
    end).
  assert (H : P r = true) by (apply byte_cases; [vm_compute; reflexivity|exact Hr]).
  unfold P in H. apply andb_true_iff in H. destruct H as [H1 H2].
  split; intros k E; [rewrite E in H1; apply Z.leb_le in H1
                     |rewrite E in H2; apply Z.leb_le in H2]; lia.
Qed.

(** X16: for every raw knob value the relative actions are bounded: a
    scroll that reaches pyautogui is of at most 100 clicks in either
    direction, and the zoom presses at most five key combinations. *)
Theorem relative_actions_are_bounded (r : Z) (w : world) :
  0 <= r <= 127 ->
  let v := normalize_spec r in
  (exists t, snd (horizontal_scroll v w) = set_trace (trace w ++ t) w /\
             forallb scroll_in_range t = true) /\
  (exists t, snd (vertical_scroll v w) = set_trace (trace w ++ t) w /\
             forallb scroll_in_range t = true) /\
  (exists t, trace (snd (relative_zoom v w)) = trace w ++ t /\
             (count is_hotkey t <= 5)%nat).
Proof.
  intros Hr v. split; [|split].
  - destruct (framed_horizontal_scroll v (fun k => scroll_clicks_of_byte r k Hr) w)
      as (_ & t & Ht & E).
    exists t. split; [exact E|exact Ht].
  - destruct (framed_vertical_scroll v (fun k => scroll_clicks_of_byte r k Hr) w)
      as (_ & t & Ht & E).
    exists t. split; [exact E|exact Ht].
  - destruct (zoom_presses_of_byte r Hr) as [H1 H2].
    exact (relative_zoom_presses v 5 H1 H2 w).
Qed.

Lemma relative_actions_are_bounded_witness :
  exists t, snd (horizontal_scroll (normalize_spec 127) (default_world quiet_env))
            = set_trace (trace (default_world quiet_env) ++ t) (default_world quiet_env) /\
            forallb scroll_in_range t = true.
Proof.
  exact (proj1 (relative_actions_are_bounded 127 (default_world quiet_env) ltac:(lia))).
Defined.

(** * Processes and windows *)

Lemma scan_other (process_name : string) (procs : list (option string))
    (f := fun name : option string =>
            match name with
            | None => raise (Exc "AttributeError")
            | Some n =>
                ret (if String.eqb (lower n) (lower process_name)
                     then Some true else None)
            end) (w : world) :
  Forall (other_process process_name) procs ->
  forall rest, for_first (procs ++ rest) f w = for_first rest f w.
Proof.
  intros H rest. induction H as [|p l (n & -> & Hn) _ IH]; simpl; [reflexivity|].
  unfold bind at 1. simpl.
  destruct (String.eqb_spec (lower n) (lower process_name)); [contradiction|].
  exact IH.
Qed.

(** X17: [is_process_running] reads the process list once and scans it
    in order.  It gives [False] when every name is readable and none
    matches, [True] when the first match (ignoring case) comes before any
    unreadable name, and it raises [AttributeError] when a process whose
    name psutil could not read ([None]) comes first: the handler around
    the comparison only covers psutil's own exceptions. *)
Theorem process_scan_stops_at_unreadable_name (process_name : string) (w : world)
    (procs : list (option string)) :
  oracle (env w) _ (trace w) psutil_process_iter = Returns procs ->
  let w' := set_trace (trace w ++ [Call psutil_process_iter]) w in
  (Forall (other_process process_name) procs ->
   is_process_running process_name w = (Ok false, w')) /\
  (forall pre n post,
     procs = pre ++ Some n :: post ->
     Forall (other_process process_name) pre ->
     lower n = lower process_name ->
     is_process_running process_name w = (Ok true, w')) /\
  (forall pre post,
     procs = pre ++ None :: post ->
     Forall (other_process process_name) pre ->
     is_process_running process_name w = (Raise (Exc "AttributeError"), w')).
Proof.
  intros Ho w'.
  assert (E : forall k : list (option string) -> M bool,
            (procs <- call psutil_process_iter ;; k procs) w = k procs w').
  { intros k. unfold bind, call. rewrite Ho. reflexivity. }
  unfold is_process_running. split; [|split].
  - intros H. rewrite E. unfold bind at 1.
    rewrite <- (app_nil_r procs), (scan_other _ _ w' H []). reflexivity.
  - intros pre n post -> Hpre Hn. rewrite E. unfold bind at 1.
    rewrite (scan_other _ _ w' Hpre). simpl. unfold bind at 1. simpl.
    rewrite Hn, String.eqb_refl. reflexivity.
  - intros pre post -> Hpre. rewrite E. unfold bind at 1.
    rewrite (scan_other _ _ w' Hpre). reflexivity.
Qed.

Lemma process_scan_stops_at_unreadable_name_witness :
  let w := default_world locked_process_env in
  is_spotify_running w
  = (Raise (Exc "AttributeError"), set_trace [Call psutil_process_iter] w) /\
  handle_pad_action 37 w
  = (Ok tt,
     set_trace [Enter play_pause_spotify_; Call psutil_process_iter;
                Log ERROR "Error executing pad action {}: {}"
                  [AVal (PStr "Play/Pause Spotify"); AExn "AttributeError"]] w).
Proof.
  split; [|reflexivity].
  apply (proj2 (proj2 (process_scan_stops_at_unreadable_name "Spotify.exe"
                         (default_world locked_process_env)
                         [Some "explorer.exe"; None; Some "Spotify.exe"] eq_refl))
           [Some "explorer.exe"] [Some "Spotify.exe"] eq_refl).
  constructor; [|constructor]. exists "explorer.exe". split; [reflexivity|discriminate].
Defined.

Lemma last_snoc_event (t : list event) (e : event) : last (t ++ [e]) = Some e.
Proof. rewrite last_app. reflexivity. Qed.

(** X18: the three window operations never raise: they return [True]
    when their last win32 call went through (show command 6 to minimise,
    3 to maximise) and [False] after logging the failure of a call. *)
Theorem window_operations_never_raise (hwnd : Z) (w : world) :
  (fst (focus_window hwnd w) = Ok true /\
   last (trace (snd (focus_window hwnd w))) = Some (Call (SetForegroundWindow hwnd)) \/
   fst (focus_window hwnd w) = Ok false /\
   exists cls, last (trace (snd (focus_window hwnd w)))
               = Some (Log ERROR "Failed to focus window: {}" [AExn cls])) /\
  (fst (WindowUtils_minimize_window hwnd w) = Ok true /\
   last (trace (snd (WindowUtils_minimize_window hwnd w)))
   = Some (Call (ShowWindow hwnd 6)) \/
   fst (WindowUtils_minimize_window hwnd w) = Ok false /\
   exists cls, last (trace (snd (WindowUtils_minimize_window hwnd w)))
               = Some (Log ERROR "Failed to minimize window: {}" [AExn cls])) /\
  (fst (WindowUtils_maximize_window hwnd w) = Ok true /\
   last (trace (snd (WindowUtils_maximize_window hwnd w)))
   = Some (Call (ShowWindow hwnd 3)) \/
   fst (WindowUtils_maximize_window hwnd w) = Ok false /\
   exists cls, last (trace (snd (WindowUtils_maximize_window hwnd w)))
               = Some (Log ERROR "Failed to maximize window: {}" [AExn cls])).
Proof.
  split; [|split].
  - unfold focus_window, try_except, bind, when, call, log, emit, ret.
    destruct (oracle (env w) bool (trace w) (IsIconic hwnd)) as [[|]|cls]; simpl;
      repeat (destruct (oracle _ _ _ _); simpl);
      first [left; split; [reflexivity|apply last_snoc_event]
            |right; split; [reflexivity|eexists; apply last_snoc_event]].
  - unfold WindowUtils_minimize_window, try_except, bind, call, log, emit, ret.
    repeat (destruct (oracle _ _ _ _); simpl);
      first [left; split; [reflexivity|apply last_snoc_event]
            |right; split; [reflexivity|eexists; apply last_snoc_event]].
  - unfold WindowUtils_maximize_window, try_except, bind, call, log, emit, ret.
    repeat (destruct (oracle _ _ _ _); simpl);
      first [left; split; [reflexivity|apply last_snoc_event]
            |right; split; [reflexivity|eexists; apply last_snoc_event]].
Qed.

(** * Graceful shutdown *)

Lemma release_midi_returns (w : world) :
  releases (env w) -> fst (release_midi w) = Ok tt.
Proof.
  intros [Hc Hq]. unfold release_midi, bind, gets, call, ret.
  destruct (midi_input w) as [h|]; simpl.
  - rewrite Hc. simpl. rewrite Hq. reflexivity.
  - rewrite Hq. reflexivity.
Qed.

Lemma try_except2_logs_returns (m : M unit) (f1 f2 : string)
    (args : string -> list logarg) (w : world) :
  let r := fst (try_except2 m (log INFO f1 []) (fun e => log ERROR f2 (args e)) w) in
  r = Ok tt \/ r = OutOfFuel.
Proof.
  unfold try_except2. destruct (m w) as [[[]|[|cls]|] w']; simpl; auto.
Qed.

Lemma start_monitoring_ends (fuel : nat) (w : world) :
  releases (env w) ->
  fst (start_monitoring fuel w) = Ok tt \/ fst (start_monitoring fuel w) = OutOfFuel.
Proof.
  intros Hr.
  destruct (midi_input w) as [h|] eqn:Hh;
    [|rewrite (start_monitoring_idle fuel w Hh); left; reflexivity].
  rewrite (start_monitoring_connected fuel w h Hh).
  set (w1 := set_trace (trace w ++ [Log INFO "Started monitoring MIDI input" []]) w).
  set (inner := try_except2 (monitor_loop fuel)
                  (log INFO "Stopping MIDI monitoring" [])
                  (fun e => log ERROR "Error in MIDI monitoring: {}" [AExn e])).
  assert (Hk : keeps Same_env inner).
  { pose proof (keeps_monitor_loop Same_env logger_free_Same_env fuel) as Hl. unfold inner. keeps. }
  specialize (Hk w1).
  assert (Ho : fst (inner w1) = Ok tt \/ fst (inner w1) = OutOfFuel)
    by apply (try_except2_logs_returns (monitor_loop fuel) "Stopping MIDI monitoring"
                "Error in MIDI monitoring: {}" (fun e => [AExn e]) w1).
  unfold try_finally. destruct (inner w1) as [r w2]. simpl in Hk, Ho.
  assert (Hr2 : releases (env w2)).
  { change (same_env w1 w2) in Hk. unfold same_env in Hk. rewrite Hk. exact Hr. }
  pose proof (release_midi_returns w2 Hr2) as Hrel.
  destruct Ho as [-> | ->]; [|right; reflexivity].
  destruct (release_midi w2) as [r' w3]. simpl in Hrel. subst r'. left. reflexivity.
Qed.

Lemma cleanup_returns (w : world) : releases (env w) -> fst (cleanup w) = Ok tt.
Proof.
  intros Hr. unfold cleanup, bind. pose proof (release_midi_returns w Hr) as Hrel.
  destruct (release_midi w) as [r' w3]. simpl in Hrel. subst r'. reflexivity.
Qed.

(** X19: the only exceptions that can leave [start_monitoring] and
    [cleanup] are those of [close] and [quit].  With a MIDI library
    whose [close] and [quit] always return, nothing that happens while
    polling (a failing handler, a device error, Ctrl+C) makes
    [start_monitoring] raise: it returns normally (or is still running
    when the observation ends), and [cleanup] returns normally. *)
Theorem shutdown_is_graceful_when_release_succeeds (fuel : nat) (w : world) :
  releases (env w) ->
  (fst (start_monitoring fuel w) = Ok tt \/ fst (start_monitoring fuel w) = OutOfFuel) /\
  fst (cleanup w) = Ok tt.
Proof.
  intros Hr. split; [apply start_monitoring_ends, Hr|apply cleanup_returns, Hr].
Qed.

Lemma shutdown_is_graceful_when_release_succeeds_witness :
  let w := set_midi_input (Some 7) (default_world quiet_env) in
  (fst (start_monitoring 3 w) = Ok tt \/ fst (start_monitoring 3 w) = OutOfFuel) /\
  fst (cleanup w) = Ok tt.
Proof.
  apply (shutdown_is_graceful_when_release_succeeds 3
           (set_midi_input (Some 7) (default_world quiet_env))).
  split; intros; reflexivity.
Defined.

(** * The dispatch tables *)

Create HintDb framed.

Ltac framed_auto :=
  repeat first [framed_step | progress cbv zeta | solve [auto with framed]].

Lemma framed_WindowUtils_minimize_window hwnd :
  framed no_dispatch (WindowUtils_minimize_window hwnd).
Proof. unfold WindowUtils_minimize_window. framed. Qed.

Lemma framed_WindowUtils_maximize_window hwnd :
  framed no_dispatch (WindowUtils_maximize_window hwnd).
Proof. unfold WindowUtils_maximize_window. framed. Qed.

Lemma framed_is_process_running name : framed no_dispatch (is_process_running name).
Proof. unfold is_process_running. framed. Qed.

Lemma framed_find_spotify_path : framed no_dispatch find_spotify_path.
Proof. unfold find_spotify_path. framed. Qed.

Lemma framed_launch_spotify : framed no_dispatch launch_spotify.
Proof. pose proof framed_find_spotify_path. unfold launch_spotify. framed_auto. Qed.

Lemma framed_monitor_at l i : framed no_dispatch (monitor_at l i).
Proof. unfold monitor_at. framed. Qed.

Lemma framed_brightness_loop b l s : framed no_dispatch (set_brightness_all b l s).
Proof. revert s. induction l as [|m r IH]; intros s; simpl; framed_auto. Qed.

#[local] Hint Resolve framed_find_window_by_title framed_focus_window
  framed_WindowUtils_minimize_window framed_WindowUtils_maximize_window
  framed_is_process_running framed_find_spotify_path framed_launch_spotify
  framed_monitor_at framed_brightness_loop : framed.

Lemma pad_method_runs (name : string) (c : capability) (m : M unit) :
  In (name, c) pad_table ->
  assoc (attribute_name name) PadActions_methods = Some m ->
  runs_capability c m.
Proof.
  unfold pad_table. intros Hin.
  repeat (destruct Hin as [[= <- <-]|Hin];
          [intros [= <-]; apply runs_capability_intro;
           unfold is_spotify_running; framed_auto|]).
  destruct Hin.
Qed.

Lemma pad_table_resolves (name : string) (c : capability) :
  In (name, c) pad_table ->
  String.eqb name "" = false /\
  exists m, assoc (attribute_name name) PadActions_methods = Some m.
Proof.
  unfold pad_table. intros Hin.
  repeat (destruct Hin as [[= <- <-]|Hin];
          [split; [reflexivity|eexists; reflexivity]|]).
  destruct Hin.
Qed.

(** X20: the pad dispatch table.  A note mapped to one of the thirteen
    pad action names is handled by entering the method of that name and
    no other, whatever the method then does; the handler returns
    normally and changes nothing but the trace. *)
Theorem pad_dispatch_table (w : world) (m : gmap string PyVal) (note : Z)
    (name : string) (c : capability) :
  In (name, c) pad_table ->
  pad_mappings w = PDict m ->
  m !! str_of_Z note = Some (PStr name) ->
  exists t, handle_pad_action note w = (Ok tt, set_trace (trace w ++ t) w) /\
            dispatched t = [c].
Proof.
  intros Hin Hm Hn.
  destruct (pad_table_resolves name c Hin) as (Hne & meth & Ha).
  rewrite (handle_pad_action_run w m note name Hm Hn), Hne.
  unfold PadActions_getattr. rewrite Ha. simpl call_attribute.
  apply (guarded_capability c meth _ (fun cls => [AVal (PStr name); AExn cls])).
  exact (pad_method_runs name c meth Hin Ha).
Qed.

Lemma pad_dispatch_table_witness :
  let w := set_pad_mappings (PDict {["36" := PStr "Show Desktop"]})
             (default_world quiet_env) in
  exists t, handle_pad_action 36 w = (Ok tt, set_trace (trace w ++ t) w) /\
            dispatched t = [show_desktop_].
Proof.
  apply (pad_dispatch_table
           (set_pad_mappings (PDict {["36" := PStr "Show Desktop"]})
              (default_world quiet_env))
           {["36" := PStr "Show Desktop"]} 36 "Show Desktop" show_desktop_);
    [do 12 right; left; reflexivity|reflexivity|reflexivity].
Defined.

Lemma set_screen_brightness_runs (v : float) :
  runs_capability (set_screen_brightness_ v) (set_screen_brightness v).
Proof. apply runs_capability_intro. framed_auto. Qed.

Lemma relative_zoom_runs (v : float) :
  runs_capability (relative_zoom_ v) (relative_zoom v).
Proof. apply runs_capability_intro. framed_auto. Qed.

Lemma horizontal_scroll_runs (v : float) :
  runs_capability (horizontal_scroll_ v) (horizontal_scroll v).
Proof. apply runs_capability_intro. framed_auto. Qed.

Lemma vertical_scroll_runs (v : float) :
  runs_capability (vertical_scroll_ v) (vertical_scroll v).
Proof. apply runs_capability_intro. framed_auto. Qed.

Lemma knob_table_runs (name : string) (c : float -> capability) (v : float) :
  In (name, c) knob_table ->
  exists m, handle_action (PStr name) v = try_except m (knob_error (PStr name)) /\
            runs_capability (c v) m.
Proof.
  unfold knob_table. intros Hin.
  destruct Hin as [[= <- <-]|Hin];
    [eexists; split; [reflexivity|apply set_system_volume_runs]|].
  destruct Hin as [[= <- <-]|Hin];
    [eexists; split;
     [reflexivity|apply runs_capability_discard, set_application_volume_runs]|].
  destruct Hin as [[= <- <-]|Hin];
    [eexists; split;
     [reflexivity|apply runs_capability_discard, set_application_volume_runs]|].
  destruct Hin as [[= <- <-]|Hin];
    [eexists; split; [reflexivity|apply set_screen_brightness_runs]|].
  destruct Hin as [[= <- <-]|Hin];
    [eexists; split; [reflexivity|apply relative_zoom_runs]|].
  destruct Hin as [[= <- <-]|Hin];
    [eexists; split; [reflexivity|apply horizontal_scroll_runs]|].
  destruct Hin as [[= <- <-]|Hin];
    [eexists; split; [reflexivity|apply vertical_scroll_runs]|].
  destruct Hin.
Qed.

Lemma knob_table_names (name : string) (c : float -> capability) :
  In (name, c) knob_table -> name <> "".
Proof.
  unfold knob_table. intros Hin.
  repeat (destruct Hin as [[= <- <-]|Hin]; [discriminate|]). destruct Hin.
Qed.

Lemma get_knob_action_named (w : world) (m : gmap string PyVal) (k name : string)
    (lo hi : Z) :
  name <> "" ->
  knob_mappings w = PDict m ->
  m !! k = Some (knob_record (PStr name) lo hi) \/ m !! k = Some (PStr name) ->
  get_knob_action k w = (Ok (PStr name), w).
Proof.
  intros Hne Hm [H|H].
  - exact (get_knob_action_record w m k (PStr name) lo hi Hm H).
  - rewrite (get_knob_action_run _ _ _ Hm). unfold lookup_or. rewrite H. cbv zeta.
    rewrite (truthy_PStr _ Hne). reflexivity.
Qed.

(** X21: the knob dispatch table.  A control number mapped to one of the
    seven knob action names, in the structured or in the legacy form, is
    handled by entering the method of that name and no other, with the
    raw value divided by 127 (and the process name [spotify.exe] or
    [firefox.exe] for the two application volumes); the handler returns
    normally and changes nothing but the trace. *)
Theorem knob_dispatch_table (w : world) (m : gmap string PyVal) (cc value lo hi : Z)
    (name : string) (c : float -> capability) :
  In (name, c) knob_table ->
  knob_mappings w = PDict m ->
  m !! str_of_Z cc = Some (knob_record (PStr name) lo hi) \/
  m !! str_of_Z cc = Some (PStr name) ->
  0 <= value <= 127 ->
  exists t, handle_knob_action cc value w = (Ok tt, set_trace (trace w ++ t) w) /\
            dispatched t = [c (normalize_spec value)].
Proof.
  intros Hin Hm Hk Hv.
  pose proof (knob_table_names name c Hin) as Hne.
  destruct (knob_table_runs name c (normalize_spec value) Hin) as (meth & Ha & Hr).
  apply (knob_dispatch (c (normalize_spec value)) meth (PStr name) cc value w Hv).
  - exact (get_knob_action_named w m _ name lo hi Hne Hm Hk).
  - apply truthy_PStr, Hne.
  - exact Ha.
  - exact Hr.
Qed.

Lemma knob_dispatch_table_witness :
  let w := set_knob_mappings (PDict {["18" := PStr "Firefox Volume"]})
             (default_world quiet_env) in
  exists t, handle_knob_action 18 127 w = (Ok tt, set_trace (trace w ++ t) w) /\
            dispatched t = [set_application_volume_ "firefox.exe" (normalize_spec 127)].
Proof.
  apply (knob_dispatch_table
           (set_knob_mappings (PDict {["18" := PStr "Firefox Volume"]})
              (default_world quiet_env))
           {["18" := PStr "Firefox Volume"]} 18 127 1 127 "Firefox Volume"
           (set_application_volume_ "firefox.exe"));
    [right; right; left; reflexivity|reflexivity|right; reflexivity|lia].
Defined.

(** * The entry points *)

Lemma keeps_same_env_initialize_midi : keeps Same_env initialize_midi.
Proof.
  intros w. pose proof (keeps_initialize_midi w) as H.
  change (only_trace_and_input w (snd (initialize_midi w))) in H.
  unfold only_trace_and_input in H. change (env (snd (initialize_midi w)) = env w).
  rewrite H. reflexivity.
Qed.

Lemma keeps_AkaiMPKMiniAutomation_init : keeps Same_env AkaiMPKMiniAutomation_init.
Proof.
  pose proof (keeps_setup_logging Same_env). pose proof keeps_Config_init.
  pose proof keeps_KnobActions_init. pose proof keeps_same_env_initialize_midi.
  unfold AkaiMPKMiniAutomation_init, PadActions_init. keeps.
Qed.

(** X22: once the controller has been constructed, and with a MIDI
    library whose [close] and [quit] always return, both entry points
    end normally (or are still polling when the observation ends):
    nothing that happens while monitoring reaches their caller. *)
Theorem entry_points_end_normally (fuel : nat) (w w1 : world) :
  releases (env w) ->
  AkaiMPKMiniAutomation_init w = (Ok tt, w1) ->
  (fst (main_py fuel w) = Ok tt \/ fst (main_py fuel w) = OutOfFuel) /\
  (fst (main fuel w) = Ok tt \/ fst (main fuel w) = OutOfFuel).
Proof.
  intros Hr Hi.
  assert (Hr1 : releases (env w1)).
  { pose proof (keeps_AkaiMPKMiniAutomation_init w) as H. rewrite Hi in H.
    change (env w1 = env w) in H. rewrite H. exact Hr. }
  assert (Hafter : forall w', env w' = env w1 -> fst (local_cleanup true w') = Ok tt).
  { intros w' E. apply cleanup_returns. rewrite E. exact Hr1. }
  unfold main_py, main. rewrite Hi. split.
  - set (w2 := set_trace (trace w1 ++ [Print "MIDI Controller started. Press Ctrl+C to exit." []]) w1).
    assert (Eb : (emit (Print "MIDI Controller started. Press Ctrl+C to exit." []) ;;
                  start_monitoring fuel) w1 = start_monitoring fuel w2) by reflexivity.
    unfold try_finally, try_except2. rewrite Eb.
    assert (Hr2 : releases (env w2)) by exact Hr1.
    destruct (start_monitoring_ends fuel w2 Hr2) as [E|E];
      pose proof (keeps_start_monitoring Same_env logger_free_Same_env fuel w2) as Hk;
      destruct (start_monitoring fuel w2) as [r w3]; simpl in E, Hk; subst r;
      [|right; reflexivity].
    pose proof (Hafter w3 Hk) as Hc.
    destruct (local_cleanup true w3) as [r' w4]. simpl in Hc. subst r'.
    left. reflexivity.
  - unfold try_finally, try_except.
    destruct (start_monitoring_ends fuel w1 Hr1) as [E|E];
      pose proof (keeps_start_monitoring Same_env logger_free_Same_env fuel w1) as Hk;
      destruct (start_monitoring fuel w1) as [r w3]; simpl in E, Hk; subst r;
      [|right; reflexivity].
    pose proof (Hafter w3 Hk) as Hc.
    destruct (local_cleanup true w3) as [r' w4]. simpl in Hc. subst r'.
    left. reflexivity.
Qed.

Lemma entry_points_end_normally_witness :
  fst (main_py 2 (initial_world (flaky_env 0) Absent)) = OutOfFuel \/
  fst (main_py 2 (initial_world (flaky_env 0) Absent)) = Ok tt.
Proof.
  destruct (entry_points_end_normally 2 (initial_world (flaky_env 0) Absent)
              (snd (AkaiMPKMiniAutomation_init (initial_world (flaky_env 0) Absent))))
    as [[H|H] _].
  - split; intros; reflexivity.
  - vm_compute. reflexivity.
  - right. exact H.
  - left. exact H.
Defined.

(** * First effects *)

Lemma begins_call {T} (c : ext T) : begins (Call c) (call c).
Proof.
  intros w. exists []. unfold call. destruct (oracle _ _ _ _); reflexivity.
Qed.

Lemma begins_extends (first : event) (w w1 w2 : world) :
  (exists t, trace w1 = trace w ++ first :: t) ->
  emits any_event w1 w2 ->
  exists t, trace w2 = trace w ++ first :: t.
Proof.
  intros (t & E) (t' & E' & _). exists (t ++ t').
  rewrite E', E, <- app_assoc. reflexivity.
Qed.

Lemma begins_bind (first : event) {A B} (m : M A) (k : A -> M B) :
  begins first m -> (forall a, behaves false any_event (k a)) ->
  begins first (bind m k).
Proof.
  intros Hm Hk w. unfold bind. specialize (Hm w).
  destruct (m w) as [[a|e|] w1]; simpl in *; try exact Hm.
  exact (begins_extends first w w1 _ Hm (proj1 (Hk a w1))).
Qed.

Lemma begins_try_except (first : event) {A} (m : M A) (h : string -> M A) :
  begins first m -> (forall cls, behaves false any_event (h cls)) ->
  begins first (try_except m h).
Proof.
  intros Hm Hh w. unfold try_except. specialize (Hm w).
  destruct (m w) as [[a|[|cls]|] w1]; simpl in *; try exact Hm.
  exact (begins_extends first w w1 _ Hm (proj1 (Hh cls w1))).
Qed.

(** * The retry loop of the initialisation *)

Lemma setup_attempt_one_quit : at_most is_midi_quit 1 setup_attempt.
Proof.
  assert (HP : forall e, not_quit e = true -> is_midi_quit e = false).
  { intros e. unfold not_quit. destruct (is_midi_quit e); [discriminate|reflexivity]. }
  unfold setup_attempt.
  apply (at_most_bind _ 0 1); [apply (at_most_behaves _ not_quit true _ HP); behaves|intros mi].
  apply (at_most_bind _ 0 1); [apply (at_most_behaves _ not_quit true _ HP); behaves|intros _].
  apply (at_most_bind _ 1 0); [apply (at_most_call is_midi_quit midi_quit)|intros _].
  apply (at_most_behaves _ not_quit true _ HP). unfold connect_if_mpk_mini. behaves.
Qed.

Lemma setup_attempt_quiet : behaves true attempt_event setup_attempt.
Proof. unfold setup_attempt, connect_if_mpk_mini. behaves. Qed.

Lemma attempt_event_spec (t : list event) :
  forallb attempt_event t = true ->
  count is_Sleep t = 0%nat /\ count is_failure_warning t = 0%nat /\
  forallb is_one_second t = true /\ forallb not_sleep t = true.
Proof.
  intros H. split; [|split; [|split]].
  - apply (count_none is_Sleep attempt_event); [|exact H].
    intros e. unfold attempt_event. destruct (is_Sleep e); [discriminate|reflexivity].
  - apply (count_none is_failure_warning attempt_event); [|exact H].
    intros e. unfold attempt_event.
    destruct (is_failure_warning e); [rewrite andb_false_r; discriminate|reflexivity].
  - induction t as [|e t IH]; [reflexivity|]. simpl in *.
    apply andb_true_iff in H. destruct H as [He Ht]. rewrite (IH Ht), andb_true_r.
    destruct e; try reflexivity. discriminate.
  - induction t as [|e t IH]; [reflexivity|]. simpl in *.
    apply andb_true_iff in H. destruct H as [He Ht]. rewrite (IH Ht), andb_true_r.
    destruct e; try reflexivity. discriminate.
Qed.

(** One attempt: at most one [quit] and one [init], no sleep and no
    warning of a failed attempt. *)
Lemma setup_attempt_counts (w : world) :
  mild (fst (setup_attempt w)) /\
  exists t, trace (snd (setup_attempt w)) = trace w ++ t /\
            (count is_midi_quit t <= 1)%nat /\ (count is_midi_init t <= 1)%nat /\
            forallb attempt_event t = true.
Proof.
  destruct (setup_attempt_quiet w) as [(t & E & Ht) Hm].
  split; [apply Hm; reflexivity|].
  exists t. split; [exact E|].
  destruct (setup_attempt_one_quit w) as (t1 & E1 & Hq).
  destruct (setup_attempt_one_init w) as (t2 & E2 & Hi).
  rewrite E in E1, E2. apply app_inv_head in E1, E2. subst t1 t2. auto.
Qed.

Lemma retry_handler_retries (rc : Z) (e : string) (w : world) :
  rc + 1 < max_retries ->
  interrupt (env w) (trace w ++ [Log WARNING "Failed to initialize MIDI (attempt {}/{}): {}"
                                   [AInt (rc + 1); AInt max_retries; AExn e];
                                 Log INFO "Retrying in 1 second..." []]) = false ->
  retry_handler rc e w
  = (Ok (Some (rc + 1)), set_trace (trace w ++ retry_report (rc + 1) e) w).
Proof.
  intros Hrc Hi. rewrite retry_handler_run. cbv zeta.
  apply Z.ltb_lt in Hrc. rewrite Hrc, Hi. reflexivity.
Qed.

Lemma retry_handler_gives_up (e : string) (w : world) :
  retry_handler 2 e w = (Ok (Some 3), set_trace (trace w ++ final_report e) w).
Proof. rewrite retry_handler_run. reflexivity. Qed.

Lemma count_nil (p : event -> bool) : count p [] = 0%nat.
Proof. reflexivity. Qed.

Ltac count_concrete :=
  repeat match goal with
         | |- context [count ?p (?e :: ?l)] =>
             let v := eval vm_compute in (count p (e :: l)) in
             change (count p (e :: l)) with v
         | |- context [forallb ?p (?e :: ?l)] =>
             let v := eval vm_compute in (forallb p (e :: l)) in
             change (forallb p (e :: l)) with v
         end.

Lemma initialize_midi_loop_counts (fuel : nat) :
  forall (rc : Z) (w : world),
    0 <= rc <= 3 ->
    (Z.to_nat (3 - rc) <= fuel)%nat ->
    exists t,
      trace (snd (initialize_midi_loop fuel rc w)) = trace w ++ t /\
      (count is_midi_quit t <= Z.to_nat (3 - rc))%nat /\
      (count is_midi_init t <= Z.to_nat (3 - rc))%nat /\
      (count is_failure_warning t <= Z.to_nat (3 - rc))%nat /\
      count is_Sleep t = Nat.min (count is_failure_warning t) (Z.to_nat (2 - rc)) /\
      forallb is_one_second t = true.
Proof.
  induction fuel as [|fuel IH]; intros rc w Hrc Hf.
  - rewrite loop_done by (unfold max_retries; lia).
    exists []. rewrite app_nil_r, !count_nil. repeat split; simpl; lia.
  - destruct (Z_lt_ge_dec rc 3) as [Hlt|Hge].
    2:{ rewrite loop_done by (unfold max_retries; lia).
        exists []. rewrite app_nil_r, !count_nil. repeat split; simpl; lia. }
    destruct (setup_attempt_counts w) as (Hm & t1 & E1 & Hq1 & Hi1 & Ha1).
    destruct (attempt_event_spec t1 Ha1) as (Hs1 & Hw1 & Ho1 & _).
    destruct (setup_attempt w) as [[[]|[|cls]|] w1] eqn:Ea; simpl in Hm, E1;
      try destruct Hm.
    + rewrite (loop_returns fuel rc w w1 Hlt Ea). simpl.
      exists t1. split; [exact E1|]. rewrite Hs1, Hw1.
      repeat split; try lia. exact Ho1.
    + pose proof (retry_handler_run rc cls w1) as Hh. cbv zeta in Hh.
      unfold max_retries in Hh.
      destruct (rc + 1 <? 3) eqn:Hnext.
      * apply Z.ltb_lt in Hnext.
        destruct (interrupt (env w1) _).
        -- rewrite (loop_interrupted fuel rc cls w w1 _ Hlt Ea Hh). simpl.
           eexists. rewrite E1, <- app_assoc. split; [reflexivity|].
           rewrite !count_app, forallb_app, Hs1, Hw1, Ho1. count_concrete.
           repeat split; lia.
        -- rewrite (loop_retries fuel rc (rc + 1) cls w w1 _ Hlt Ea Hh).
           match goal with |- context [initialize_midi_loop fuel (rc + 1) ?w2] =>
             destruct (IH (rc + 1) w2 ltac:(lia) ltac:(lia))
               as (t2 & E2 & Hq2 & Hi2 & Hw2 & Hs2 & Ho2)
           end.
           eexists. rewrite E2. simpl trace.
           rewrite E1, <- !app_assoc. split; [reflexivity|].
           rewrite !count_app, !forallb_app, Hs1, Hw1, Ho1, Ho2, Hs2. count_concrete.
           repeat split; lia.
      * apply Z.ltb_ge in Hnext.
        rewrite (loop_retries fuel rc (rc + 1) cls w w1 _ Hlt Ea Hh).
        rewrite loop_done by (unfold max_retries; lia). simpl.
        eexists. rewrite E1, <- app_assoc. split; [reflexivity|].
        rewrite !count_app, forallb_app, Hs1, Hw1, Ho1. count_concrete.
        repeat split; lia.
Qed.

(** * An attempt that finds the controller *)

Lemma range_split (i n : Z) :
  0 <= i < n ->
  exists rest, range n = range i ++ i :: rest.
Proof.
  intros H. unfold range.
  replace (Z.to_nat n) with (Z.to_nat i + S (Z.to_nat n - S (Z.to_nat i)))%nat by lia.
  rewrite seq_app, map_app. simpl. rewrite Z2Nat.id by lia.
  eexists. reflexivity.
Qed.

Lemma range_bound (i j : Z) : In j (range i) -> 0 <= j < i.
Proof.
  unfold range. intros H. apply in_map_iff in H. destruct H as (k & <- & Hk).
  apply in_seq in Hk. lia.
Qed.

Lemma call_returns {T} (c : ext T) (v : T) (w : world) :
  oracle (env w) T (trace w) c = Returns v ->
  call c w = (Ok v, set_trace (trace w ++ [Call c]) w).
Proof. intros H. unfold call. rewrite H. reflexivity. Qed.

Lemma bind_returns {A B} (m : M A) (k : A -> M B) (a : A) (w w1 : world) :
  m w = (Ok a, w1) -> bind m k w = k a w1.
Proof. intros H. unfold bind. rewrite H. reflexivity. Qed.

Lemma attempting_step (w w' : world) (t : list event) :
  attempting w w' -> attempting w (set_trace (trace w' ++ t) w').
Proof.
  intros (He & Hm & t0 & Ht). split; [exact He|]. split; [exact Hm|].
  exists (t0 ++ t). simpl. rewrite Ht, <- app_assoc. reflexivity.
Qed.

Lemma set_trace_app (t1 t2 : list event) (w : world) :
  set_trace (trace (set_trace (trace w ++ t1) w) ++ t2) (set_trace (trace w ++ t1) w)
  = set_trace (trace w ++ t1 ++ t2) w.
Proof. unfold set_trace. simpl. rewrite <- app_assoc. reflexivity. Qed.

Lemma for_first_cons {A B} (x : A) (r : list A) (f : A -> M (option B)) :
  for_first (x :: r) f
  = (o <- f x ;; match o with Some b => ret (Some b) | None => for_first r f end).
Proof. reflexivity. Qed.

Section Connects.
Variables (w : world) (n : Z) (devs : Z -> device_info) (i h : Z).
Hypothesis listed : controller_listed w n devs i h.

Lemma attempting_info (w' : world) (j : Z) :
  attempting w w' ->
  call (midi_get_device_info j) w'
  = (Ok (devs j), set_trace (trace w' ++ [Call (midi_get_device_info j)]) w').
Proof.
  intros (He & _ & t & Ht). apply call_returns. rewrite He, Ht.
  apply (proj1 (proj2 (proj2 (proj2 listed)))).
Qed.

Lemma attempting_count (w' : world) :
  attempting w w' ->
  call midi_get_count w' = (Ok n, set_trace (trace w' ++ [Call midi_get_count]) w').
Proof.
  intros (He & _ & t & Ht). apply call_returns. rewrite He, Ht.
  apply (proj1 (proj2 (proj2 listed))).
Qed.

Lemma list_devices (l : list Z) :
  forall w', attempting w w' ->
    exists t',
      for_each l (fun i =>
        info <- call (midi_get_device_info i) ;;
        log INFO "Device {}: {} (Input: {}, Output: {})"
          [AInt i; AStr (dev_name info);
           ABool (dev_input info =? 1); ABool (dev_output info =? 1)]) w'
      = (Ok tt, set_trace (trace w' ++ t') w').
Proof.
  induction l as [|j l IH]; intros w' Hw; simpl.
  - exists []. rewrite set_trace_same. reflexivity.
  - apply attempting_step with (t := [Call (midi_get_device_info j)]) in Hw as Hw1.
    apply attempting_step
      with (t := [Log INFO "Device {}: {} (Input: {}, Output: {})"
                    [AInt j; AStr (dev_name (devs j));
                     ABool (dev_input (devs j) =? 1); ABool (dev_output (devs j) =? 1)]])
      in Hw1 as Hw2.
    destruct (IH _ Hw2) as [t' E].
    eexists. unfold bind at 1.
    rewrite (bind_returns _ _ _ _ _ (attempting_info w' j Hw)).
    unfold log, emit in E |- *. rewrite E, !set_trace_app. reflexivity.
Qed.

Lemma skip_devices (pre : list Z) :
  (forall j, In j pre -> is_mpk_mini_input (devs j) = false) ->
  forall rest w', attempting w w' ->
    exists t',
      attempting w (set_trace (trace w' ++ t') w') /\
      for_first (pre ++ rest) connect_if_mpk_mini w'
      = for_first rest connect_if_mpk_mini (set_trace (trace w' ++ t') w').
Proof.
  induction pre as [|j pre IH]; intros Hpre rest w' Hw; simpl.
  - exists []. rewrite set_trace_same. split; [exact Hw|reflexivity].
  - apply attempting_step with (t := [Call (midi_get_device_info j)]) in Hw as Hw1.
    destruct (IH (fun k Hk => Hpre k (or_intror Hk)) rest _ Hw1) as (t' & Ha & E).
    pose proof (Hpre j (or_introl eq_refl)) as Hj. unfold is_mpk_mini_input in Hj.
    eexists. unfold bind at 1, connect_if_mpk_mini at 1.
    rewrite (bind_returns _ _ _ _ _ (attempting_info w' j Hw)).
    cbv zeta. rewrite Hj. unfold ret at 1. rewrite E.
    rewrite set_trace_app in Ha |- *. split; [exact Ha|reflexivity].
Qed.

Lemma connect_controller (w' : world) :
  attempting w w' ->
  exists t', connect_if_mpk_mini i w'
             = (Ok (Some tt), set_midi_input (Some h) (set_trace (trace w' ++ t') w')).
Proof.
  intros Hw.
  destruct listed as (_ & _ & _ & _ & Hopen & _ & Hmpk & _).
  apply attempting_step with (t := [Call (midi_get_device_info i)]) in Hw as Hw1.
  destruct Hw1 as (He & _ & t & Ht).
  unfold connect_if_mpk_mini.
  rewrite (bind_returns _ _ _ _ _ (attempting_info w' i Hw)).
  cbv zeta. unfold is_mpk_mini_input in Hmpk. rewrite Hmpk.
  erewrite bind_returns; [|apply call_returns; rewrite He, Ht; apply Hopen].
  eexists. unfold bind, modify, log, emit, ret. simpl.
  unfold set_midi_input, set_trace. simpl. rewrite <- !app_assoc. reflexivity.
Qed.

Lemma setup_attempt_connects :
  midi_input w = None ->
  exists a, setup_attempt w
            = (Ok tt, set_midi_input (Some h) (set_trace (trace w ++ a) w)).
Proof.
  intros Hin.
  destruct listed as (Hquit & Hinit & _ & _ & _ & Hi & _ & Hfirst).
  destruct (range_split i n Hi) as [rest Hrange].
  set (w1 := set_trace (trace w ++ [Call midi_quit; Call midi_init]) w).
  assert (H1 : attempting w w1).
  { split; [reflexivity|]. split; [reflexivity|]. exists []. simpl.
    rewrite app_nil_r. reflexivity. }
  set (w2 := set_trace (trace w1 ++ [Call midi_get_count;
                                     Log INFO "Found {} MIDI devices:" [AInt n];
                                     Call midi_get_count]) w1).
  assert (H2 : attempting w w2) by (apply attempting_step; exact H1).
  destruct (list_devices (range n) w2 H2) as [t3 E3].
  set (w3 := set_trace (trace w2 ++ t3) w2) in *.
  assert (H3 : attempting w w3) by (apply attempting_step; exact H2).
  set (w4 := set_trace (trace w3 ++ [Call midi_get_count]) w3).
  assert (H4 : attempting w w4) by (apply attempting_step; exact H3).
  destruct (skip_devices (range i) (fun j Hj => Hfirst j (range_bound i j Hj))
              (i :: rest) w4 H4) as (t5 & H5 & E5).
  destruct (connect_controller _ H5) as [t6 E6].
  eexists.
  unfold setup_attempt.
  unfold bind at 1, gets. rewrite Hin.
  unfold bind at 1, ret.
  erewrite bind_returns; [|apply call_returns, Hquit].
  erewrite bind_returns; [|apply call_returns, Hinit].
  rewrite (set_trace_app [Call midi_quit] [Call midi_init] w).
  change (set_trace (trace w ++ [Call midi_quit] ++ [Call midi_init]) w) with w1.
  rewrite (bind_returns _ _ _ _ _ (attempting_count w1 H1)).
  unfold bind at 1, log, emit.
  erewrite bind_returns; [|apply attempting_count, attempting_step, attempting_step, H1].
  rewrite !set_trace_app.
  change (set_trace (trace w1 ++ _) w1) with w2.
  rewrite (bind_returns _ _ _ _ _ E3).
  rewrite (bind_returns _ _ _ _ _ (attempting_count w3 H3)).
  fold w4. rewrite Hrange. unfold bind at 1. rewrite E5, for_first_cons.
  unfold bind at 1. rewrite E6. unfold ret.
  unfold w4, w3, w2, w1. rewrite !set_trace_app. reflexivity.
Qed.
End Connects.

(** With no device stored, an attempt starts with [quit] and calls it
    once. *)
Lemma setup_attempt_quits (w : world) :
  midi_input w = None ->
  exists t, trace (snd (setup_attempt w)) = trace w ++ t /\
            count is_midi_quit t = 1%nat.
Proof.
  intros Hin.
  destruct (setup_attempt_one_quit w) as (t & E & Hq).
  exists t. split; [exact E|].
  assert (Hb : exists t', trace (snd (setup_attempt w)) = trace w ++ Call midi_quit :: t').
  { unfold setup_attempt. unfold bind at 1, gets. rewrite Hin.
    rewrite (bind_returns (ret tt) _ tt w w eq_refl).
    match goal with |- context [bind (call midi_quit) ?k] =>
      apply (begins_bind (Call midi_quit) (call midi_quit) k (begins_call midi_quit))
    end.
    intros _. unfold connect_if_mpk_mini. behaves. }
  destruct Hb as (t' & E'). rewrite E in E'. apply app_inv_head in E'. subst t.
  change (Call midi_quit :: t') with ([Call midi_quit] ++ t') in *.
  rewrite count_app in *.
  change (count is_midi_quit [Call midi_quit]) with 1%nat in *. lia.
Qed.

Lemma initialize_midi_loop_attempts (fuel : nat) :
  forall (rc : Z) (w : world),
    midi_input w = None ->
    exists t,
      trace (snd (initialize_midi_loop fuel rc w)) = trace w ++ t /\
      (count is_failure_warning t <= count is_midi_quit t
       <= count is_failure_warning t + 1)%nat.
Proof.
  induction fuel as [|fuel IH]; intros rc w Hin.
  - exists []. simpl. destruct (rc <? max_retries); simpl; rewrite app_nil_r, !count_nil;
      (split; [reflexivity|lia]).
  - destruct (Z_lt_ge_dec rc max_retries) as [Hlt|Hge].
    2:{ rewrite loop_done by lia. exists []. rewrite app_nil_r, !count_nil.
        split; [reflexivity|simpl; lia]. }
    destruct (setup_attempt_quits w Hin) as (t1 & E1 & Hq1).
    destruct (setup_attempt_counts w) as (Hm & t1' & E1' & _ & _ & Ha1).
    rewrite E1 in E1'. apply app_inv_head in E1'. subst t1'.
    destruct (attempt_event_spec t1 Ha1) as (_ & Hw1 & _ & _).
    destruct (setup_attempt w) as [[[]|[|cls]|] w1] eqn:Ea; simpl in Hm, E1;
      try destruct Hm.
    + rewrite (loop_returns fuel rc w w1 Hlt Ea). simpl.
      exists t1. split; [exact E1|]. lia.
    + assert (Hin1 : midi_input w1 = None)
        by (rewrite (setup_attempt_failed_input _ _ _ Ea); exact Hin).
      pose proof (retry_handler_run rc cls w1) as Hh. cbv zeta in Hh.
      destruct (rc + 1 <? max_retries) eqn:Hnext.
      * destruct (interrupt (env w1) _).
        -- rewrite (loop_interrupted fuel rc cls w w1 _ Hlt Ea Hh). simpl.
           eexists. rewrite E1, <- app_assoc. split; [reflexivity|].
           rewrite !count_app, Hq1, Hw1. count_concrete. lia.
        -- rewrite (loop_retries fuel rc (rc + 1) cls w w1 _ Hlt Ea Hh).
           match goal with |- context [initialize_midi_loop fuel (rc + 1) ?w2] =>
             destruct (IH (rc + 1) w2 Hin1) as (t2 & E2 & H2)
           end.
           eexists. rewrite E2. simpl trace.
           rewrite E1, <- !app_assoc. split; [reflexivity|].
           rewrite !count_app, Hq1, Hw1. count_concrete. lia.
      * rewrite (loop_retries fuel rc (rc + 1) cls w w1 _ Hlt Ea Hh).
        match goal with |- context [initialize_midi_loop fuel (rc + 1) ?w2] =>
          destruct (IH (rc + 1) w2 Hin1) as (t2 & E2 & H2)
        end.
        eexists. rewrite E2. simpl trace.
        rewrite E1, <- !app_assoc. split; [reflexivity|].
        rewrite !count_app, Hq1, Hw1. count_concrete. lia.
Qed.

Lemma flaky_env_lists (w : world) (k : nat) :
  env w = flaky_env k ->
  count is_midi_init (trace w) = k ->
  controller_listed w 2 mpk_devices 1 7.
Proof.
  intros He Hk. unfold controller_listed. rewrite He. cbv zeta.
  assert (Hc : forall t, oracle (flaky_env k) Z
                           ((trace w ++ [Call midi_quit; Call midi_init]) ++ t)
                           midi_get_count = Returns 2).
  { intros t. simpl. rewrite !count_app, Hk. count_concrete.
    replace (Nat.leb (k + 1 + count is_midi_init t) k) with false; [reflexivity|].
    symmetry. apply Nat.leb_gt. lia. }
  repeat split; try reflexivity; try exact Hc; try lia.
  intros j Hj. replace j with 0 by lia. reflexivity.
Qed.

Lemma failed_attempt (w w1 : world) (e : exn) :
  setup_attempt w = (Raise e, w1) ->
  exists a, w1 = set_trace (trace w ++ a) w /\ forallb not_sleep a = true.
Proof.
  intros H. pose proof (setup_attempt_rolls_back w) as Hr. rewrite H in Hr. simpl in Hr.
  destruct (setup_attempt_quiet w) as [(a & E & Ha) _]. rewrite H in E. simpl in E.
  exists a. rewrite <- E. split; [exact Hr|]. apply (attempt_event_spec a Ha).
Qed.

Lemma initialize_midi_outcome (w : world) :
  (fst (initialize_midi w) = Ok tt \/ fst (initialize_midi w) = Raise KeyboardInterrupt) /\
  (uninterrupted w -> fst (initialize_midi w) = Ok tt).
Proof.
  destruct (initialize_midi_loop_spec (Z.to_nat max_retries) 0 w) as [Ho _];
    [unfold max_retries; lia|unfold max_retries; lia|].
  split; [exact Ho|]. intros Hu.
  destruct Ho as [Ho|Ho]; [exact Ho|].
  destruct (initialize_midi_loop_uninterrupted _ 0 w Hu Ho).
Qed.




(** * The polling loop and the scenario *)

Lemma runs_from_intro (c : capability) (first : event) {A} (body : M A) :
  framed no_dispatch body -> begins first body ->
  runs_from c first (enter c ;; body).
Proof.
  intros Hf Hb w. unfold bind, enter, emit.
  set (w1 := set_trace (trace w ++ [Enter c]) w).
  destruct (Hf w1) as (Hm & t & Ht & Hw). destruct (Hb w1) as (t' & Et).
  assert (E : t = first :: t').
  { rewrite Hw in Et. simpl in Et. apply app_inv_head in Et. exact Et. }
  subst t. simpl in Ht.
  destruct (body w1) as [[a|e|] w']; simpl in *; subst w';
    (split; [exact Hm|]); exists t';
    (split; [apply andb_true_iff in Ht; apply Ht|]);
    unfold w1; unfold set_trace; simpl; rewrite <- app_assoc; reflexivity.
Qed.

Lemma runs_from_discard (c : capability) (first : event) {A} (m : M A) :
  runs_from c first m -> runs_from c first (m ;; ret tt).
Proof.
  intros H w. unfold bind, ret. destruct (H w) as (Hmild & t & Ht & Hw).
  destruct (m w) as [[a|e|] w']; simpl in *; (split; [exact Hmild|]);
    exists t; (split; [exact Ht|exact Hw]).
Qed.

Lemma launch_focus_windsurf_from :
  runs_from launch_focus_windsurf_ (Call EnumWindows) launch_focus_windsurf.
Proof.
  apply runs_from_intro.
  - apply framed_bind; [apply framed_find_window_by_title|intros o].
    destruct (hwnd_truthy o).
    + apply framed_bind; [apply framed_focus_window|intros b]. framed.
    + framed.
  - pose proof (behaves_focus_window false) as Hf.
    pose proof (behaves_enum_callback false) as He.
    apply begins_bind.
    + unfold find_window_by_title. apply begins_bind; [apply begins_call|].
      intros hwnds. behaves.
    + intros o. destruct (hwnd_truthy o); behaves.
Qed.

Lemma set_system_volume_from (v : float) :
  runs_from (set_system_volume_ v) (Call AudioUtilities_GetSpeakers)
    (set_system_volume v).
Proof.
  apply runs_from_intro; [framed|].
  apply begins_try_except; [|intros; behaves].
  apply begins_bind; [apply begins_call|intros; behaves].
Qed.

Lemma set_application_volume_from (app : string) (v : float) :
  runs_from (set_application_volume_ app v) (Call AudioUtilities_GetAllSessions)
    (set_application_volume app v).
Proof.
  apply runs_from_intro; [framed|].
  apply begins_try_except; [|intros; behaves].
  apply begins_bind; [apply begins_call|intros; behaves].
Qed.

(** A handler that logs what a unit-valued capability method raises. *)
Lemma guarded_from (c : capability) (first : event) (m : M unit) (fmt : string)
    (args : string -> list logarg) :
  runs_from c first m ->
  forall w, exists t,
    forallb no_dispatch t = true /\
    try_except m (fun cls => log ERROR fmt (args cls)) w
    = (Ok tt, set_trace (trace w ++ Enter c :: first :: t) w).
Proof.
  intros Hm w. unfold try_except.
  destruct (Hm w) as (Hmild & t & Ht & Hw).
  destruct (m w) as [[[]|[|cls]|] w']; simpl in *; subst w'; try destruct Hmild.
  - exists t. split; [exact Ht|reflexivity].
  - exists (t ++ [Log ERROR fmt (args cls)]). split.
    + rewrite forallb_app, Ht. reflexivity.
    + unfold log, emit, set_trace; simpl. rewrite <- app_assoc. reflexivity.
Qed.

Lemma pad_40_effects (w : world) :
  default_mappings w ->
  exists t,
    forallb no_dispatch t = true /\
    handle_pad_action 40 w
    = (Ok tt, set_trace (trace w ++ Enter launch_focus_windsurf_
                                  :: Call EnumWindows :: t) w).
Proof.
  intros [Hp _].
  rewrite (handle_pad_action_run w _ 40 "Launch/Focus Windsurf" Hp eq_refl).
  change (String.eqb "Launch/Focus Windsurf" "") with false. cbv iota.
  change (PadActions_getattr (env w) (attribute_name "Launch/Focus Windsurf"))
    with (Some (Method launch_focus_windsurf)).
  apply (guarded_from _ _ _ _ (fun cls => [AVal _; AExn cls])).
  apply launch_focus_windsurf_from.
Qed.

Lemma knob_effects (c : capability) (first : event) (m : M unit) (a : PyVal)
    (cc value : Z) (w : world) :
  0 <= value <= 127 ->
  get_knob_action (str_of_Z cc) w = (Ok a, w) ->
  truthy a = true ->
  handle_action a (normalize_spec value) = try_except m (knob_error a) ->
  runs_from c first m ->
  exists t,
    forallb no_dispatch t = true /\
    handle_knob_action cc value w
    = (Ok tt, set_trace (trace w ++ knob_lines cc value ++ Enter c :: first :: t) w).
Proof.
  intros Hv Hg Ht Ha Hm.
  rewrite (handle_knob_action_run _ _ _ _ Hv Hg), Ht, Ha.
  unfold try_except at 1, bind, log, emit. simpl.
  match goal with |- context [try_except m _ ?w1] =>
    destruct (guarded_from c first m "Error executing knob action {}: {}"
                (fun cls => [AVal a; AExn cls]) Hm w1) as (t & Hn & E)
  end.
  unfold knob_error. rewrite E. simpl.
  exists t. split; [exact Hn|].
  unfold set_trace. simpl. rewrite <- !app_assoc. reflexivity.
Qed.

(** ** The loop *)

Lemma bind_assoc {A B C} (m : M A) (k1 : A -> M B) (k2 : B -> M C) (w : world) :
  bind (bind m k1) k2 w = bind m (fun a => bind (k1 a) k2) w.
Proof. unfold bind. destruct (m w) as [[a|e|] w1]; reflexivity. Qed.

Lemma monitor_loop_reads (fuel : nat) (w : world) (h : Z) (events : list midi_event) :
  midi_input w = Some h ->
  oracle (env w) bool (trace w) (Input_poll h) = Returns true ->
  oracle (env w) (list midi_event) (trace w ++ [Call (Input_poll h)]) (Input_read h 10)
  = Returns events ->
  monitor_loop (S fuel) w =
  (for_each events process_event ;; sleep 0.001 ;; monitor_loop fuel)
    (set_trace (trace w ++ [Call (Input_poll h); Call (Input_read h 10)]) w).
Proof.
  intros Hh Hp Hr. simpl monitor_loop. unfold bind at 1, gets. rewrite Hh.
  rewrite (bind_returns _ _ true _ _ (call_returns _ _ _ Hp)). cbv iota.
  rewrite bind_assoc.
  rewrite (bind_returns _ _ events _ _
             (call_returns (Input_read h 10) events
                (set_trace (trace w ++ [Call (Input_poll h)]) w) Hr)).
  rewrite set_trace_app. reflexivity.
Qed.

Lemma monitor_loop_waits (fuel : nat) (w : world) (h : Z) :
  midi_input w = Some h ->
  oracle (env w) bool (trace w) (Input_poll h) = Returns false ->
  monitor_loop (S fuel) w =
  (sleep 0.001 ;; monitor_loop fuel) (set_trace (trace w ++ [Call (Input_poll h)]) w).
Proof.
  intros Hh Hp. simpl. unfold bind at 1, gets. rewrite Hh.
  unfold bind at 1 2, call. rewrite Hp. reflexivity.
Qed.

Lemma scenario_effects (w : world) :
  default_mappings w ->
  exists t1 t2 t3,
    forallb no_dispatch (t1 ++ t2 ++ t3) = true /\
    for_each scenario_events process_event w =
    (Ok tt,
     set_trace
       (trace w ++
        Enter launch_focus_windsurf_ :: Call EnumWindows :: t1 ++
        knob_lines 16 64 ++
        Enter (set_system_volume_ (normalize_spec 64))
          :: Call AudioUtilities_GetSpeakers :: t2 ++
        knob_lines 17 0 ++
        Enter (set_application_volume_ "spotify.exe" 0)
          :: Call AudioUtilities_GetAllSessions :: t3) w).
Proof.
  intros Hw.
  destruct (pad_40_effects w Hw) as (t1 & N1 & E1).
  set (w1 := set_trace (trace w ++ Enter launch_focus_windsurf_
                                 :: Call EnumWindows :: t1) w) in *.
  assert (Hw1 : default_mappings w1) by exact Hw.
  destruct (knob_effects (set_system_volume_ (normalize_spec 64))
              (Call AudioUtilities_GetSpeakers)
              (set_system_volume (normalize_spec 64)) (PStr "System Volume") 16 64 w1)
    as (t2 & N2 & E2); [lia| |reflexivity|reflexivity|apply set_system_volume_from|].
  { rewrite (get_knob_action_run w1 _ _ (proj2 Hw1)). reflexivity. }
  match type of E2 with _ = (_, ?x) => set (w2 := x) in * end.
  assert (Hw2 : default_mappings w2) by exact Hw.
  destruct (knob_effects (set_application_volume_ "spotify.exe" (normalize_spec 0))
              (Call AudioUtilities_GetAllSessions)
              (set_application_volume "spotify.exe" (normalize_spec 0) ;; ret tt)
              (PStr "Spotify Volume") 17 0 w2)
    as (t3 & N3 & E3); [lia| |reflexivity|reflexivity| |].
  { rewrite (get_knob_action_run w2 _ _ (proj2 Hw2)). reflexivity. }
  { apply runs_from_discard, set_application_volume_from. }
  exists t1, t2, t3. split; [rewrite !forallb_app, N1, N2, N3; reflexivity|].
  unfold scenario_events, for_each.
  change (process_event {| status := 144; data1 := 40; data2 := 100 |})
    with (handle_pad_action 40).
  change (process_event {| status := 176; data1 := 16; data2 := 64 |})
    with (handle_knob_action 16 64).
  change (process_event {| status := 176; data1 := 17; data2 := 0 |})
    with (handle_knob_action 17 0).
  change (process_event {| status := 144; data1 := 36; data2 := 0 |})
    with (@ret unit tt).
  unfold bind. rewrite E1. fold w1. rewrite E2. fold w2. rewrite E3.
  unfold ret, w2, w1, knob_lines. unfold set_trace. simpl.
  repeat (rewrite <- app_assoc; simpl). reflexivity.
Qed.

Lemma start_monitoring_step (fuel : nat) (w w' : world) (h : Z) (rest : M unit) :
  midi_input w = Some h ->
  monitor_loop fuel (set_trace (trace w ++ [Log INFO "Started monitoring MIDI input" []]) w)
  = rest w' ->
  start_monitoring fuel w =
  try_finally
    (try_except2 rest
       (log INFO "Stopping MIDI monitoring" [])
       (fun e => log ERROR "Error in MIDI monitoring: {}" [AExn e]))
    release_midi w'.
Proof.
  intros Hh E. rewrite (start_monitoring_connected fuel w h Hh).
  unfold try_finally, try_except2. rewrite E. reflexivity.
Qed.

(** C1: the polling loop hands every event it reads to [process_event],
    in order, before it sleeps and polls again; [process_event]
    classifies by the status byte: status 144 with data2 > 0 goes to
    [handle_pad_action data1], status 176 to [handle_knob_action data1
    data2], and every other event (a status-144 event with data2 = 0
    included) changes nothing.  Under the default mappings the stream
    (144,40,100), (176,16,64), (176,17,0), (144,36,0), read by
    [start_monitoring], enters exactly the Windsurf launcher, which
    starts by enumerating the windows, the system volume with 64/127
    (0.504 to three places), which starts by asking for the speakers, and
    the Spotify volume with 0.0, which starts by asking for the audio
    sessions; the last event adds nothing.  In an environment where no
    Windsurf window is open and Spotify has an audio session this run
    launches Windsurf, sets the master volume to 64/127 and the volume of
    the Spotify session to 0.0. *)
Theorem events_are_classified_by_status :
  (forall (fuel : nat) (w : world) (h : Z),
     midi_input w = Some h ->
     (forall events : list midi_event,
        oracle (env w) bool (trace w) (Input_poll h) = Returns true ->
        oracle (env w) (list midi_event) (trace w ++ [Call (Input_poll h)])
          (Input_read h 10) = Returns events ->
        monitor_loop (S fuel) w =
        (for_each events process_event ;; sleep 0.001 ;; monitor_loop fuel)
          (set_trace (trace w ++ [Call (Input_poll h); Call (Input_read h 10)]) w)) /\
     (oracle (env w) bool (trace w) (Input_poll h) = Returns false ->
      monitor_loop (S fuel) w =
      (sleep 0.001 ;; monitor_loop fuel)
        (set_trace (trace w ++ [Call (Input_poll h)]) w))) /\
  (forall ev : midi_event,
     status ev = 144 -> 0 < data2 ev ->
     process_event ev = handle_pad_action (data1 ev)) /\
  (forall ev : midi_event,
     status ev = 176 ->
     process_event ev = handle_knob_action (data1 ev) (data2 ev)) /\
  (forall (ev : midi_event) (w : world),
     status ev <> 176 -> (status ev <> 144 \/ data2 ev <= 0) ->
     process_event ev w = (Ok tt, w)) /\
  (forall (fuel : nat) (w : world) (h : Z),
     default_mappings w ->
     midi_input w = Some h ->
     let started := trace w ++ [Log INFO "Started monitoring MIDI input" []] in
     oracle (env w) bool started (Input_poll h) = Returns true ->
     oracle (env w) (list midi_event) (started ++ [Call (Input_poll h)])
       (Input_read h 10) = Returns scenario_events ->
     exists t1 t2 t3 : list event,
       let batch :=
         Enter launch_focus_windsurf_ :: Call EnumWindows :: t1 ++
         knob_lines 16 64 ++
         Enter (set_system_volume_ (normalize_spec 64))
           :: Call AudioUtilities_GetSpeakers :: t2 ++
         knob_lines 17 0 ++
         Enter (set_application_volume_ "spotify.exe" 0)
           :: Call AudioUtilities_GetAllSessions :: t3 in
       forallb no_dispatch (t1 ++ t2 ++ t3) = true /\
       dispatched batch =
       [launch_focus_windsurf_;
        set_system_volume_ (normalize_spec 64);
        set_application_volume_ "spotify.exe" 0] /\
       start_monitoring (S fuel) w =
       try_finally
         (try_except2 (sleep 0.001 ;; monitor_loop fuel)
            (log INFO "Stopping MIDI monitoring" [])
            (fun e => log ERROR "Error in MIDI monitoring: {}" [AExn e]))
         release_midi
         (set_trace (started ++ Call (Input_poll h) :: Call (Input_read h 10) :: batch) w)) /\
  (let w := set_midi_input (Some 7) (default_world scenario_env) in
   start_monitoring 2 w =
   (OutOfFuel,
    set_trace
      [Log INFO "Started monitoring MIDI input" [];
       Call (Input_poll 7); Call (Input_read 7 10);
       Enter launch_focus_windsurf_; Call EnumWindows;
       Log INFO "Windsurf not found, launching..." [];
       Call (os_path_exists windsurf_path);
       Call (subprocess_Popen [windsurf_path]);
       Log INFO "Received knob CC: {}, value: {}" [AInt 16; AInt 64];
       Log INFO "Normalized value: {:.2f}" [AFloat (normalize_spec 64)];
       Enter (set_system_volume_ (normalize_spec 64));
       Call AudioUtilities_GetSpeakers; Call IAudioEndpointVolume_Activate;
       Call (SetMasterVolumeLevelScalar (normalize_spec 64));
       Log INFO "System volume set to {:.0%}" [AFloat (normalize_spec 64)];
       Log INFO "Received knob CC: {}, value: {}" [AInt 17; AInt 0];
       Log INFO "Normalized value: {:.2f}" [AFloat 0];
       Enter (set_application_volume_ "spotify.exe" 0);
       Call AudioUtilities_GetAllSessions; Call (Process_name 5);
       Call (ISimpleAudioVolume_QueryInterface 5);
       Call (SetMasterVolume 5 0);
       Log INFO "{} volume set to {:.0%}" [AStr "spotify.exe"; AFloat 0];
       Sleep 0.001; Call (Input_poll 7); Sleep 0.001] w)) /\
  (0.5035 <=? normalize_spec 64)%float = true /\
  (normalize_spec 64 <? 0.5045)%float = true.
Proof.
  split; [|split; [|split; [|split; [|split; [|split; [|split]]]]]].
  - intros fuel w h Hh. split.
    + intros events Hp Hr. exact (monitor_loop_reads fuel w h events Hh Hp Hr).
    + intros Hp. exact (monitor_loop_waits fuel w h Hh Hp).
  - intros ev Hs Hd. unfold process_event. rewrite Hs.
    apply Z.ltb_lt in Hd. rewrite Hd. reflexivity.
  - intros ev Hs. unfold process_event. rewrite Hs. reflexivity.
  - intros ev w Hs Hd. unfold process_event.
    apply Z.eqb_neq in Hs. rewrite Hs.
    destruct Hd as [Hd|Hd].
    + apply Z.eqb_neq in Hd. rewrite Hd. reflexivity.
    + apply Z.ltb_ge in Hd. rewrite Hd, andb_false_r. reflexivity.
  - intros fuel w h Hw Hh started Hp Hr.
    set (w1 := set_trace started w).
    set (w2 := set_trace (trace w1 ++ [Call (Input_poll h); Call (Input_read h 10)]) w1).
    destruct (scenario_effects w2 Hw) as (t1 & t2 & t3 & Hn & E).
    exists t1, t2, t3. cbv zeta.
    split; [exact Hn|]. split.
    + rewrite !forallb_app in Hn.
      apply andb_true_iff in Hn. destruct Hn as [N1 Hn].
      apply andb_true_iff in Hn. destruct Hn as [N2 N3].
      unfold knob_lines. simpl. rewrite dispatched_app. simpl.
      rewrite dispatched_app. simpl.
      rewrite !dispatched_no_dispatch by assumption. reflexivity.
    + eapply start_monitoring_step; [exact Hh|].
      fold started. fold w1.
      rewrite (monitor_loop_reads fuel w1 h scenario_events Hh Hp Hr). fold w2.
      rewrite (bind_returns _ _ tt _ _ E).
      unfold w2, w1, started. unfold set_trace. simpl.
      repeat (rewrite <- app_assoc; simpl). reflexivity.
  - vm_compute. reflexivity.
  - reflexivity.
  - reflexivity.
Qed.

Lemma events_are_classified_by_status_witness :
  let w := set_midi_input (Some 7) (default_world scenario_env) in
  process_event {| status := 144; data1 := 40; data2 := 100 |} = handle_pad_action 40 /\
  process_event {| status := 176; data1 := 16; data2 := 64 |} = handle_knob_action 16 64 /\
  process_event {| status := 144; data1 := 36; data2 := 0 |} w = (Ok tt, w) /\
  exists t1 t2 t3 : list event,
    forallb no_dispatch (t1 ++ t2 ++ t3) = true /\
    dispatched
      (Enter launch_focus_windsurf_ :: Call EnumWindows :: t1 ++
       knob_lines 16 64 ++
       Enter (set_system_volume_ (normalize_spec 64))
         :: Call AudioUtilities_GetSpeakers :: t2 ++
       knob_lines 17 0 ++
       Enter (set_application_volume_ "spotify.exe" 0)
         :: Call AudioUtilities_GetAllSessions :: t3) =
    [launch_focus_windsurf_;
     set_system_volume_ (normalize_spec 64);
     set_application_volume_ "spotify.exe" 0] /\
    start_monitoring 1 w =
    try_finally
      (try_except2 (sleep 0.001 ;; monitor_loop 0)
         (log INFO "Stopping MIDI monitoring" [])
         (fun e => log ERROR "Error in MIDI monitoring: {}" [AExn e]))
      release_midi
      (set_trace
         ((trace w ++ [Log INFO "Started monitoring MIDI input" []]) ++
          Call (Input_poll 7) :: Call (Input_read 7 10) ::
          Enter launch_focus_windsurf_ :: Call EnumWindows :: t1 ++
          knob_lines 16 64 ++
          Enter (set_system_volume_ (normalize_spec 64))
            :: Call AudioUtilities_GetSpeakers :: t2 ++
          knob_lines 17 0 ++
          Enter (set_application_volume_ "spotify.exe" 0)
            :: Call AudioUtilities_GetAllSessions :: t3) w).
Proof.
  destruct events_are_classified_by_status as (_ & Hp & Hk & Hi & Hs & _).
  intro w. split; [|split; [|split]].
  - apply (Hp {| status := 144; data1 := 40; data2 := 100 |}); [reflexivity|simpl; lia].
  - apply (Hk {| status := 176; data1 := 16; data2 := 64 |}); reflexivity.
  - apply Hi; simpl; [lia|right; lia].
  - apply (Hs 0%nat w 7); [split; reflexivity|reflexivity|reflexivity|reflexivity].
Defined.
